(** * Upload queue of the p115strmhelper plugin: tables, processor, enqueuer

    A shallow embedding of

      - [db_manager/models/upload_queue.py]    (table [upload_queue])
      - [db_manager/models/upload_history.py]  (table [upload_history])
      - [helper/upload_queue_processor.py]     ([UploadQueueProcessor])
      - [helper/monitor.py]                    ([is_file_stable], [enqueue_file])

    Python [str] values are sequences of Unicode code points; tables are
    lists of rows in row-id order; everything outside the repository (file
    system, storage chain, configuration, clock, database faults) is an
    oracle of the [World] record. *)

From Stdlib Require Import ZArith NArith List String Ascii Bool Lia.
From Stdlib Require Import DecimalString DecimalPos DecimalZ.
From Stdlib Require Import Permutation Sorted.
Import ListNotations.

Local Open Scope Z_scope.

(* ================================================================== *)
(** * Python strings *)
(* ================================================================== *)

Module PyStr.

(** A Python [str]: the list of its code points. *)
Definition pystr := list N.

Definition bytes_of (s : string) : list N :=
  map N_of_ascii (list_ascii_of_string s).

(** UTF-8 decoding, used to write the literals of the source as they are
    spelled there. *)
Fixpoint utf8_decode (l : list N) : pystr :=
  match l with
  | [] => []
  | b :: r =>
      if (b <? 128)%N then b :: utf8_decode r
      else if (b <? 224)%N then
        match r with
        | c1 :: r1 => ((b - 192) * 64 + (c1 - 128))%N :: utf8_decode r1
        | _ => []
        end
      else if (b <? 240)%N then
        match r with
        | c1 :: c2 :: r2 =>
            ((b - 224) * 4096 + (c1 - 128) * 64 + (c2 - 128))%N
              :: utf8_decode r2
        | _ => []
        end
      else
        match r with
        | c1 :: c2 :: c3 :: r3 =>
            ((b - 240) * 262144 + (c1 - 128) * 4096
             + (c2 - 128) * 64 + (c3 - 128))%N :: utf8_decode r3
        | _ => []
        end
  end.

Definition ustr (s : string) : pystr := utf8_decode (bytes_of s).

Arguments ustr _ : simpl never.

(** [a == b] *)
Fixpoint eqb (a b : pystr) : bool :=
  match a, b with
  | [], [] => true
  | x :: a', y :: b' => (x =? y)%N && eqb a' b'
  | _, _ => false
  end.

(** [x in xs] for a list of strings. *)
Definition mem (x : pystr) (xs : list pystr) : bool := existsb (eqb x) xs.

(** [str(n)] for an [int]. *)
Definition str_of_Z (z : Z) : pystr :=
  bytes_of (NilZero.string_of_int (Z.to_int z)).

(** Truthiness of a string: non-empty. *)
Definition truthy (s : pystr) : bool :=
  match s with [] => false | _ => true end.

(** Truthiness of an optional string ([None] and [""] are falsy). *)
Definition truthy_opt (s : option pystr) : bool :=
  match s with Some x => truthy x | None => false end.

Definition comma : N := 44.
Definition fullwidth_comma : N := 65292.
Definition dot : N := 46.
Definition slash : N := 47.
Definition backslash : N := 92.

(** The lower case of an ASCII code point: the letters [A] to [Z] move
    to [a] to [z]. *)
Definition lower_cp (c : N) : N :=
  if ((65 <=? c) && (c <=? 90))%N then (c + 32)%N else c.

(** What [str.lower] gives on a string that is all ASCII. *)
Definition ascii_lower (s : pystr) : pystr := map lower_cp s.

(** An upper-case ASCII letter. *)
Definition is_upper (c : N) : bool := ((65 <=? c) && (c <=? 90))%N.

(** A code point that is neither a full stop nor an upper-case ASCII
    letter. *)
Definition plain (c : N) : bool := negb (c =? dot)%N && negb (is_upper c).

(** The case tables of the interpreter for the code points outside
    ASCII.  They belong to the Python runtime, not to the repository, and
    change with its Unicode version: [to_lower before c after] is what
    [str.lower] writes for the code point [c] that stands between
    [before] (nearest first) and [after]; one code point may become
    several, and capital sigma depends on its neighbours.  Every version
    has [to_lower_plain]: the lower case of a code point is not empty and
    holds neither a full stop nor an upper-case ASCII letter. *)
Record CaseTable := mkCaseTable {
  to_lower : pystr -> N -> pystr -> pystr;
  to_lower_plain :
    forall (before : pystr) (c : N) (after : pystr),
      (128 <= c)%N ->
      to_lower before c after <> []
      /\ forallb plain (to_lower before c after) = true
}.

(** [str.lower] from a position on: an ASCII code point is mapped by
    [lower_cp], any other by the tables. *)
Fixpoint lower_from (u : CaseTable) (before s : pystr) : pystr :=
  match s with
  | [] => []
  | c :: after =>
      (if (c <? 128)%N then [lower_cp c] else to_lower u before c after)
      ++ lower_from u (c :: before) after
  end.

(** [s.lower()] *)
Definition lower (u : CaseTable) (s : pystr) : pystr := lower_from u [] s.

(** [str.isspace] on one code point (the code points Python's [str.strip]
    removes). *)
Definition is_space (c : N) : bool :=
  (((9 <=? c) && (c <=? 13)) || ((28 <=? c) && (c <=? 32))
   || (c =? 133) || (c =? 160) || (c =? 5760)
   || ((8192 <=? c) && (c <=? 8202))
   || (c =? 8232) || (c =? 8233) || (c =? 8239) || (c =? 8287)
   || (c =? 12288))%N.

Fixpoint lstrip (s : pystr) : pystr :=
  match s with
  | [] => []
  | c :: r => if is_space c then lstrip r else s
  end.

Definition rstrip (s : pystr) : pystr := rev (lstrip (rev s)).

(** [s.strip()] *)
Definition strip (s : pystr) : pystr := rstrip (lstrip s).

(** [s.replace(old, new)] for one-character [old] and [new]. *)
Definition replace1 (old new : N) (s : pystr) : pystr :=
  map (fun c => if (c =? old)%N then new else c) s.

(** [s.split(sep)] for a one-character separator: never the empty list. *)
Fixpoint split (sep : N) (s : pystr) : list pystr :=
  match s with
  | [] => [[]]
  | c :: r =>
      if (c =? sep)%N then [] :: split sep r
      else match split sep r with
           | [] => [[c]]
           | w :: ws => (c :: w) :: ws
           end
  end.

Fixpoint starts_with (p s : pystr) : bool :=
  match p, s with
  | [], _ => true
  | a :: p', b :: s' => (a =? b)%N && starts_with p' s'
  | _ :: _, [] => false
  end.

(** [needle in hay] for strings. *)
Fixpoint contains (needle hay : pystr) : bool :=
  starts_with needle hay
  || match hay with
     | [] => false
     | _ :: r => contains needle r
     end.

(** ** [pathlib.PurePosixPath] *)

(** The parts of a path below its root: empty components and ["."] are
    dropped by [Path(...)]. *)
Definition components (p : pystr) : list pystr :=
  filter (fun c => truthy c && negb (eqb c [dot])) (split slash p).

(** [Path(p).name]: the final component, [""] when there is none. *)
Definition name (p : pystr) : pystr := last (components p) [].

(** The suffix of a file name: from its last dot on, when that dot is
    neither the first nor the last character. *)
Fixpoint suffix_from (n : pystr) : option pystr :=
  match n with
  | [] => None
  | c :: r =>
      match suffix_from r with
      | Some s => Some s
      | None => if (c =? dot)%N then Some n else None
      end
  end.

Definition suffix_of_name (n : pystr) : pystr :=
  match n with
  | [] => []
  | c :: r =>
      match suffix_from r with
      | Some ((_ :: _ :: _) as s) => s
      | _ => []
      end
  end.

(** [Path(p).suffix] *)
Definition suffix (p : pystr) : pystr := suffix_of_name (name p).

Fixpoint join (sep : N) (l : list pystr) : pystr :=
  match l with
  | [] => []
  | [x] => x
  | x :: r => x ++ sep :: join sep r
  end.

(** [str(Path(p))]: the root (["/"], or ["//"] for exactly two leading
    slashes), the components joined by ["/"], and ["."] for the empty
    path. *)
Definition path_str (p : pystr) : pystr :=
  let root :=
    match p with
    | 47%N :: 47%N :: 47%N :: _ => [slash]
    | 47%N :: 47%N :: _ => [slash; slash]
    | 47%N :: _ => [slash]
    | _ => []
    end in
  match root, components p with
  | [], [] => [dot]
  | _, cs => root ++ join slash cs
  end.

End PyStr.

Import PyStr.

(** An exception: [type(e).__name__] and [str(e)]. *)
Record Exn := mkExn {
  exn_type : pystr;
  exn_msg : pystr
}.

(* ================================================================== *)
(** * Ordered selects *)
(* ================================================================== *)

Module Sql.

Section OrderBy.

Context {A : Type} (key : A -> Z).

(** [.order_by(key.desc())].  SQL leaves the order of rows of equal key
    open; here they keep their table order, as they do in SQLite, and no
    statement below depends on it. *)
Fixpoint insert_desc (r : A) (l : list A) : list A :=
  match l with
  | [] => [r]
  | m :: l' =>
      if key m <=? key r then r :: m :: l'
      else m :: insert_desc r l'
  end.

Fixpoint order_by_desc (l : list A) : list A :=
  match l with
  | [] => []
  | r :: l' => insert_desc r (order_by_desc l')
  end.

End OrderBy.

(** The order of a descending select: the key does not grow. *)
Definition desc_by {A : Type} (key : A -> Z) (a b : A) : Prop :=
  key b <= key a.

(** [.limit(n)] for a limit that is not negative. *)
Definition limit {A : Type} (n : nat) (l : list A) : list A := firstn n l.

End Sql.

(* ================================================================== *)
(** * Table [upload_queue] ([db_manager/models/upload_queue.py]) *)
(* ================================================================== *)

Module UploadQueue.

(** The four values the code writes into the column [status]. *)
Inductive Status := Pending | Processing | Completed | Failed.

Definition status_eqb (a b : Status) : bool :=
  match a, b with
  | Pending, Pending | Processing, Processing
  | Completed, Completed | Failed, Failed => true
  | _, _ => false
  end.

(** The column value of a status. *)
Definition status_name (s : Status) : pystr :=
  match s with
  | Pending => ustr "pending"
  | Processing => ustr "processing"
  | Completed => ustr "completed"
  | Failed => ustr "failed"
  end.

(** One row of the table. *)
Record Row := mkRow {
  id : Z;
  file_path : pystr;
  file_name : pystr;
  file_size : Z;
  file_mtime : Z;
  monitor_path : pystr;
  dest_remote : option pystr;
  dest_local : option pystr;
  operation_type : pystr;
  delete_source : bool;
  status : Status;
  retry_count : Z;
  error_message : option pystr;
  created_at : Z;
  updated_at : Z
}.

(** The table: its rows in row-id order. *)
Definition Table := list Row.

(** [.values(status=..., updated_at=...)] *)
Definition values_status (st : Status) (ts : Z) (r : Row) : Row :=
  {| id := id r; file_path := file_path r; file_name := file_name r;
     file_size := file_size r; file_mtime := file_mtime r;
     monitor_path := monitor_path r; dest_remote := dest_remote r;
     dest_local := dest_local r; operation_type := operation_type r;
     delete_source := delete_source r;
     status := st;
     retry_count := retry_count r; error_message := error_message r;
     created_at := created_at r;
     updated_at := ts |}.

(** [.values(status="failed", error_message=..., retry_count=...,
    updated_at=...)] *)
Definition values_failed (msg : pystr) (rc ts : Z) (r : Row) : Row :=
  {| id := id r; file_path := file_path r; file_name := file_name r;
     file_size := file_size r; file_mtime := file_mtime r;
     monitor_path := monitor_path r; dest_remote := dest_remote r;
     dest_local := dest_local r; operation_type := operation_type r;
     delete_source := delete_source r;
     status := Failed;
     retry_count := rc; error_message := Some msg;
     created_at := created_at r;
     updated_at := ts |}.

(** [.values(status="pending", retry_count=..., updated_at=...)] *)
Definition values_retry (rc ts : Z) (r : Row) : Row :=
  {| id := id r; file_path := file_path r; file_name := file_name r;
     file_size := file_size r; file_mtime := file_mtime r;
     monitor_path := monitor_path r; dest_remote := dest_remote r;
     dest_local := dest_local r; operation_type := operation_type r;
     delete_source := delete_source r;
     status := Pending;
     retry_count := rc; error_message := error_message r;
     created_at := created_at r;
     updated_at := ts |}.

(** [update(UploadQueue).where(p).values(f)] *)
Definition update_where (p : Row -> bool) (f : Row -> Row) (t : Table)
  : Table :=
  map (fun r => if p r then f r else r) t.

(** [result.rowcount] of that statement. *)
Definition rowcount (p : Row -> bool) (t : Table) : Z :=
  Z.of_nat (List.length (filter p t)).

Definition has_id (task_id : Z) (r : Row) : bool := id r =? task_id.
Definition has_status (st : Status) (r : Row) : bool :=
  status_eqb (status r) st.

(** The row a task id designates. *)
Definition get (task_id : Z) (t : Table) : option Row :=
  find (has_id task_id) t.

(** [.order_by(UploadQueue.created_at.asc())].  The statement has no
    second key, so SQL leaves the order of rows of equal [created_at]
    open; here they keep their table order, as they do in SQLite.  What
    is stated of [get_next_pending_task] below is stated for rows whose
    [created_at] differ, or up to that order. *)
Fixpoint insert_by_created_at (r : Row) (l : list Row) : list Row :=
  match l with
  | [] => [r]
  | m :: l' =>
      if created_at r <=? created_at m then r :: m :: l'
      else m :: insert_by_created_at r l'
  end.

Fixpoint order_by_created_at (l : list Row) : list Row :=
  match l with
  | [] => []
  | r :: l' => insert_by_created_at r (order_by_created_at l')
  end.

(** [get_next_pending_task]:
    [select.where(status == "pending").order_by(created_at.asc()).limit(1)]
    and [scalar_one_or_none()]. *)
Definition get_next_pending_task (t : Table) : option Row :=
  hd_error (order_by_created_at (filter (has_status Pending) t)).

(** [mark_as_processing] *)
Definition mark_as_processing (task_id timestamp : Z) (t : Table) : Table :=
  update_where (has_id task_id) (values_status Processing timestamp) t.

(** [mark_as_completed] *)
Definition mark_as_completed (task_id timestamp : Z) (t : Table) : Table :=
  update_where (has_id task_id) (values_status Completed timestamp) t.

(** [mark_as_failed] *)
Definition mark_as_failed (task_id : Z) (error_msg : pystr)
    (retry_count timestamp : Z) (t : Table) : Table :=
  update_where (has_id task_id)
    (values_failed error_msg retry_count timestamp) t.

(** [mark_as_pending_retry] *)
Definition mark_as_pending_retry (task_id retry_count timestamp : Z)
    (t : Table) : Table :=
  update_where (has_id task_id) (values_retry retry_count timestamp) t.

(** [exists_in_queue]: the count of rows with that path and status
    pending or processing is positive. *)
Definition exists_in_queue (path : pystr) (t : Table) : bool :=
  0 <? Z.of_nat (List.length (filter
         (fun r => PyStr.eqb (file_path r) path
                   && (has_status Pending r || has_status Processing r)) t)).

(** The key an autoincrement column gives the next row. *)
Definition next_id (t : Table) : Z :=
  1 + fold_right (fun r m => Z.max (id r) m) 0 t.

(** [create_task]: the new row is pending with retry count 0 and both
    timestamps equal; [None] when the unique index on [file_path] rejects
    it. *)
Definition create_task (path fname : pystr) (size mtime : Z)
    (mon op : pystr) (remote local_ : option pystr) (del : bool)
    (timestamp : Z) (t : Table) : option Table :=
  if existsb (fun r => PyStr.eqb (file_path r) path) t then None
  else Some (t ++ [ {| id := next_id t; file_path := path;
                       file_name := fname; file_size := size;
                       file_mtime := mtime; monitor_path := mon;
                       dest_remote := remote; dest_local := local_;
                       operation_type := op; delete_source := del;
                       status := Pending; retry_count := 0;
                       error_message := None;
                       created_at := timestamp;
                       updated_at := timestamp |} ]).

(** [reset_processing_tasks]: the table after the update and its
    [rowcount]. *)
Definition reset_processing_tasks (timestamp : Z) (t : Table)
  : Z * Table :=
  (rowcount (has_status Processing) t,
   update_where (has_status Processing) (values_status Pending timestamp) t).

(** The result rows of [select(status, func.count()).group_by(status)]:
    one per status that occurs, in the order of the status names. *)
Definition group_by_status (t : Table) : list (Status * Z) :=
  filter (fun g => 0 <? snd g)
    (map (fun st => (st, rowcount (has_status st) t))
         [Completed; Failed; Pending; Processing]).

(** [status in stats] *)
Definition has_key (st : Status) (stats : list (Status * Z)) : bool :=
  existsb (fun g => status_eqb (fst g) st) stats.

(** [stats.get(status)] *)
Definition lookup (st : Status) (stats : list (Status * Z)) : option Z :=
  option_map snd (find (fun g => status_eqb (fst g) st) stats).

(** [count_by_status]: the groups as a dictionary, then a zero for each
    of the four statuses that has no group. *)
Definition count_by_status (t : Table) : list (Status * Z) :=
  fold_left
    (fun stats st => if has_key st stats then stats else stats ++ [(st, 0)])
    [Pending; Processing; Completed; Failed]
    (group_by_status t).

(** [get_failed_tasks]:
    [select.where(status == "failed").order_by(updated_at.desc())
     .limit(limit)] *)
Definition get_failed_tasks (limit : nat) (t : Table) : list Row :=
  Sql.limit limit
    (Sql.order_by_desc updated_at (filter (has_status Failed) t)).

End UploadQueue.

(* ================================================================== *)
(** * Table [upload_history] ([db_manager/models/upload_history.py]) *)
(* ================================================================== *)

Module UploadHistory.

Record Row := mkRow {
  id : Z;
  file_fingerprint : pystr;
  file_size : Z;
  file_path : pystr;
  file_name : pystr;
  dest_remote : option pystr;
  dest_local : option pystr;
  operation_type : pystr;
  completed_at : Z
}.

Definition Table := list Row.

Definition matches (fingerprint : pystr) (size : Z) (r : Row) : bool :=
  PyStr.eqb (file_fingerprint r) fingerprint && (file_size r =? size).

(** [is_uploaded]: the select on fingerprint and size has a first row. *)
Definition is_uploaded (fingerprint : pystr) (size : Z) (t : Table) : bool :=
  match find (matches fingerprint size) t with
  | Some _ => true
  | None => false
  end.

Definition next_id (t : Table) : Z :=
  1 + fold_right (fun r m => Z.max (id r) m) 0 t.

(** [record_upload] *)
Definition record_upload (fingerprint : pystr) (size : Z)
    (path fname op : pystr) (remote local_ : option pystr)
    (timestamp : Z) (t : Table) : Table :=
  t ++ [ {| id := next_id t; file_fingerprint := fingerprint;
            file_size := size; file_path := path; file_name := fname;
            dest_remote := remote; dest_local := local_;
            operation_type := op; completed_at := timestamp |} ].

(** [int(datetime.now().timestamp() - days * 86400)], the clock being
    read in microseconds, the resolution of [datetime]: [int] truncates
    towards zero. *)
Definition cutoff_timestamp (now_us days : Z) : Z :=
  Z.quot (now_us - days * 86400 * 1000000) 1000000.

Definition is_old (cutoff : Z) (r : Row) : bool := completed_at r <? cutoff.

(** [cleanup_old_records]: [delete.where(completed_at < cutoff)]; its
    [rowcount] and the table that is left. *)
Definition cleanup_old_records (now_us days : Z) (t : Table) : Z * Table :=
  let cutoff := cutoff_timestamp now_us days in
  (Z.of_nat (List.length (filter (is_old cutoff) t)),
   filter (fun r => negb (is_old cutoff r)) t).

(** [get_recent_uploads]:
    [select.order_by(completed_at.desc()).limit(limit)] *)
Definition get_recent_uploads (limit : nat) (t : Table) : list Row :=
  Sql.limit limit (Sql.order_by_desc completed_at t).

End UploadHistory.

(* ================================================================== *)
(** * The environment and the state of one process *)
(* ================================================================== *)

(** The operations that leave the process: database statements, file
    system probes, configuration reads. *)
Inductive Op :=
| OpGetNextPending | OpMarkProcessing | OpPathExists | OpIsUploaded
| OpMarkCompleted | OpRecordUpload | OpMarkFailed | OpMarkPendingRetry
| OpLock | OpStat | OpExistsInQueue | OpConfigPaths
| OpConfigUploadExt | OpConfigCopyExt | OpCreateTask.

(** What [exists()] followed by [stat().st_size] gives for a file. *)
Inductive Sample :=
| Missing
| Size (n : Z)
| SampleFault (e : Exn).

(** One entry of the configuration list [directory_upload_path]; a key
    that is absent reads as its default ([""], [False]). *)
Record ConfigItem := mkConfigItem {
  src : pystr;
  cfg_dest_remote : pystr;
  cfg_dest_local : pystr;
  delete : bool
}.

(** The collaborators, as oracles for the span of one call. *)
Record World := mkWorld {
  (** [int(datetime.now().timestamp())] as the operation reads it *)
  now : Op -> Z;
  (** the exception the operation raises, when it raises *)
  fault : Op -> option Exn;
  (** [Path(p).exists()] *)
  path_exists : pystr -> bool;
  (** what [_do_upload] returns for a task: the outcome of its storage
      chain calls, its own caught exceptions included *)
  do_upload : UploadQueue.Row -> bool * pystr;
  (** what [_do_copy] returns once the destination is configured *)
  do_copy : UploadQueue.Row -> bool * pystr;
  (** the two samples of [is_file_stable], taken [wait_seconds] apart *)
  sample1 : pystr -> Sample;
  sample2 : pystr -> Sample;
  (** [file_path.stat()]: [st_size] and [int(st_mtime)] *)
  stat : pystr -> Z * Z;
  (** [configer.get_config("directory_upload_path")]; a falsy item is
      [None] *)
  config_paths : list (option ConfigItem);
  (** [configer.get_config("directory_upload_uploadext")] *)
  config_uploadext : pystr;
  (** [configer.get_config("directory_upload_copyext")] *)
  config_copyext : pystr;
  (** the case tables behind [str.lower] *)
  case_table : CaseTable
}.

(** The calls a pass makes, for the record.  [EvUpload]: [_do_upload]
    runs for the task (its storage-chain calls, [upload_file] among them
    when it gets that far).  [EvCopy]: [_do_copy] gets past its
    destination check for the task (target path, [mkdir], then
    [SystemUtils.copy] when it gets that far).  [EvDeleteSource]:
    [_delete_source_file(path, monitor)] is called; whether its [unlink]
    removes the file is the file system's, and the method keeps every
    exception to itself.  [EvLogError]: the error line of one of the
    handlers modelled here.  An event is an upper bound on what reaches
    the collaborator: without the event there is no call. *)
Inductive Event :=
| EvUpload (task_id : Z)
| EvCopy (task_id : Z)
| EvDeleteSource (path monitor : pystr)
| EvLogError (msg : pystr).

(** The state: the processor's flag, the two tables, and the events so
    far, newest first, each with the value the flag had when it
    happened. *)
Record State := mkState {
  is_processing : bool;
  queue : UploadQueue.Table;
  history : UploadHistory.Table;
  trace : list (bool * Event)
}.

Definition set_is_processing (b : bool) (s : State) : State :=
  {| is_processing := b; queue := queue s; history := history s;
     trace := trace s |}.

Definition set_queue (q : UploadQueue.Table) (s : State) : State :=
  {| is_processing := is_processing s; queue := q; history := history s;
     trace := trace s |}.

Definition set_history (h : UploadHistory.Table) (s : State) : State :=
  {| is_processing := is_processing s; queue := queue s; history := h;
     trace := trace s |}.

Definition record_event (e : Event) (s : State) : State :=
  {| is_processing := is_processing s; queue := queue s;
     history := history s;
     trace := (is_processing s, e) :: trace s |}.

(* ================================================================== *)
(** * Statements that may raise *)
(* ================================================================== *)

(** A computation returns a value or raises, and leaves a state. *)
Definition M (A : Type) : Type := State -> (Exn + A) * State.

Definition ret {A} (a : A) : M A := fun s => (inr a, s).

Definition raise {A} (e : Exn) : M A := fun s => (inl e, s).

Definition bind {A B} (c : M A) (k : A -> M B) : M B :=
  fun s =>
    match c s with
    | (inr a, s') => k a s'
    | (inl e, s') => (inl e, s')
    end.

Notation "x <- c1 ;; c2" := (bind c1 (fun x => c2))
  (at level 61, c1 at next level, right associativity).
Notation "c1 ;; c2" := (bind c1 (fun _ => c2))
  (at level 61, right associativity).

(** [try: body / except Exception as e: handler(e)] *)
Definition try_except {A} (body : M A) (handler : Exn -> M A) : M A :=
  fun s =>
    match body s with
    | (inl e, s') => handler e s'
    | r => r
    end.

(** [try: body / finally: fin] for a [fin] that cannot raise. *)
Definition try_finally {A} (body : M A) (fin : State -> State) : M A :=
  fun s => let (r, s') := body s in (r, fin s').

Definition emit (e : Event) : M unit :=
  fun s => (inr tt, record_event e s).

(** A call that cannot raise: its events are recorded in order and its
    value returned. *)
Definition record_events (evs : list Event) (s : State) : State :=
  fold_left (fun s' e => record_event e s') evs s.

Definition perform {A} (c : list Event * A) : M A :=
  fun s => (inr (snd c), record_events (fst c) s).

(** A read that leaves the process. *)
Definition query {A} (w : World) (op : Op) (f : State -> A) : M A :=
  fun s =>
    match fault w op with
    | Some e => (inl e, s)
    | None => (inr (f s), s)
    end.

(** A database statement under [db_update]: it is committed as a whole,
    or it raises and nothing is written. *)
Definition update (w : World) (op : Op) (f : Z -> State -> State) : M unit :=
  fun s =>
    match fault w op with
    | Some e => (inl e, s)
    | None => (inr tt, f (now w op) s)
    end.

Definition on_queue (f : UploadQueue.Table -> UploadQueue.Table)
  : State -> State :=
  fun s => set_queue (f (queue s)) s.

Definition on_history (f : UploadHistory.Table -> UploadHistory.Table)
  : State -> State :=
  fun s => set_history (f (history s)) s.

(* ================================================================== *)
(** * [UploadQueueProcessor] ([helper/upload_queue_processor.py]) *)
(* ================================================================== *)

Module Processor.

Import UploadQueue.

(** The message of the missing source file. *)
Definition MSG_FILE_MISSING : pystr := ustr "文件不存在".

(** [f"{task.file_size}_{task.file_mtime}"] *)
Definition fingerprint (task : Row) : pystr :=
  str_of_Z (file_size task) ++ ustr "_" ++ str_of_Z (file_mtime task).

(** [_do_upload]: that it runs, and what it returns.  The whole body
    is under its own [try], so it returns a pair on every path; the pair
    is the oracle [do_upload], whichever of its statements produced it
    (a path outside the monitor root, a folder that cannot be created,
    the upload itself). *)
Definition _do_upload (w : World) (task : Row) : list Event * (bool * pystr) :=
  ([EvUpload (id task)], do_upload w task).

(** [_do_copy]: the destination check, then the part that computes the
    target, makes the directory and copies, whose outcome is the oracle
    [do_copy]. *)
Definition _do_copy (w : World) (task : Row) : list Event * (bool * pystr) :=
  if negb (truthy_opt (dest_local task)) then
    ([], (false, ustr "未配置本地目标路径"))
  else
    ([EvCopy (id task)], do_copy w task).

(** [_execute_task]; its handler is part of what the two branches
    return. *)
Definition _execute_task (w : World) (task : Row)
  : list Event * (bool * pystr) :=
  if PyStr.eqb (operation_type task) (ustr "upload") then
    _do_upload w task
  else if PyStr.eqb (operation_type task) (ustr "copy") then
    _do_copy w task
  else
    ([], (false, ustr "未知的操作类型: " ++ operation_type task)).

(** [_delete_source_file]: the call is recorded.  What it removes is
    the file system's ([unlink] may fail and leave the file; the handler
    of the method keeps every exception); the walk over the parents is
    [removed_dirs] below. *)
Definition _delete_source_file (path monitor : pystr) : list Event * unit :=
  ([EvDeleteSource path monitor], tt).

(** The block under [try:] in [process_one_task]. *)
Definition process_body (w : World) : M bool :=
  next <- query w OpGetNextPending
            (fun s => get_next_pending_task (queue s)) ;;
  match next with
  | None => ret false
  | Some task =>
      update w OpMarkProcessing
        (fun ts => on_queue (mark_as_processing (id task) ts)) ;;
      present <- query w OpPathExists
                   (fun _ => path_exists w (file_path task)) ;;
      if negb present then
        update w OpMarkFailed
          (fun ts => on_queue (mark_as_failed (id task) MSG_FILE_MISSING
                                 (retry_count task) ts)) ;;
        ret true
      else
        uploaded <- query w OpIsUploaded
                      (fun s => UploadHistory.is_uploaded (fingerprint task)
                                  (file_size task) (history s)) ;;
        if (uploaded : bool) then
          update w OpMarkCompleted
            (fun ts => on_queue (mark_as_completed (id task) ts)) ;;
          ret true
        else
          r <- perform (_execute_task w task) ;;
          (if fst r then
             update w OpMarkCompleted
               (fun ts => on_queue (mark_as_completed (id task) ts)) ;;
             update w OpRecordUpload
               (fun ts => on_history
                  (UploadHistory.record_upload (fingerprint task)
                     (file_size task) (file_path task) (file_name task)
                     (operation_type task) (dest_remote task)
                     (dest_local task) ts)) ;;
             (if delete_source task then
                perform (_delete_source_file (file_path task)
                                              (monitor_path task))
              else ret tt)
           else
             let retry_count := retry_count task + 1 in
             if retry_count <? 3 then
               update w OpMarkPendingRetry
                 (fun ts => on_queue
                    (mark_as_pending_retry (id task) retry_count ts))
             else
               update w OpMarkFailed
                 (fun ts => on_queue
                    (mark_as_failed (id task) (snd r) retry_count ts))) ;;
          ret true
  end.

(** The line the handler of [process_one_task] logs. *)
Definition fault_line (e : Exn) : pystr :=
  ustr "【队列处理】处理器异常: " ++ exn_type e ++ ustr ": " ++ exn_msg e.

(** The [except Exception] clause of [process_one_task]. *)
Definition process_handler (e : Exn) : M bool :=
  emit (EvLogError (fault_line e)) ;;
  ret false.

(** [process_one_task] *)
Definition process_one_task (w : World) : M bool :=
  fun s =>
    if is_processing s then (inr false, s)
    else
      try_finally
        (try_except (process_body w) process_handler)
        (set_is_processing false)
        (set_is_processing true s).

(** What [SystemUtils.list_files(file_dir)] gives when the walk asks. *)
Inductive Listing :=
| HasFiles
| NoFiles
| ListingFault.

(** The root of a path: ["/"], ["//"] for exactly two leading slashes,
    [""] for a relative path. *)
Definition root_of (p : pystr) : pystr :=
  match p with
  | 47%N :: 47%N :: 47%N :: _ => [slash]
  | 47%N :: 47%N :: _ => [slash; slash]
  | 47%N :: _ => [slash]
  | _ => []
  end.

(** The string of the path with this root and these components. *)
Definition path_of (root : pystr) (cs : list pystr) : pystr :=
  match root, cs with
  | [], [] => [dot]
  | _, _ => root ++ join slash cs
  end.

(** [[str(d) for d in Path(p).parents]]: the ancestors, nearest first. *)
Definition parents (p : pystr) : list pystr :=
  map (fun k => path_of (root_of p) (firstn k (components p)))
      (rev (seq 0 (List.length (components p)))).

(** The loop of [_delete_source_file] over the parents: the directories
    it removes, nearest first.  It stops at the first parent whose string
    is not longer than that of the monitor root, at the first one that
    still has files, and when the listing raises. *)
Fixpoint remove_empty_parents (list_files : pystr -> Listing)
    (root_len : nat) (dirs : list pystr) : list pystr :=
  match dirs with
  | [] => []
  | file_dir :: rest =>
      if (List.length file_dir <=? root_len)%nat then []
      else match list_files file_dir with
           | NoFiles =>
               file_dir :: remove_empty_parents list_files root_len rest
           | HasFiles | ListingFault => []
           end
  end.

(** The directories [_delete_source_file(file_path, monitor_path)]
    removes after unlinking the file. *)
Definition removed_dirs (list_files : pystr -> Listing)
    (file_path monitor_path : pystr) : list pystr :=
  remove_empty_parents list_files
    (List.length (path_str monitor_path)) (parents file_path).

(** [reset_stale_tasks]: [UploadQueue.reset_processing_tasks()] under
    [db_update], outside any handler; the count only feeds the log. *)
Definition reset_stale_tasks (raises : option Exn) (timestamp : Z) : M unit :=
  fun s =>
    match raises with
    | Some e => (inl e, s)
    | None =>
        (inr tt, set_queue (snd (reset_processing_tasks timestamp (queue s))) s)
    end.

End Processor.

(* ================================================================== *)
(** * The enqueuer ([helper/monitor.py]) *)
(* ================================================================== *)

Module Monitor.

(** [is_file_stable]: two samples of the size; stable when both exist,
    are equal and positive; its own handler turns a fault into [False]. *)
Definition is_file_stable (w : World) (file_path : pystr) : M bool :=
  try_except
    (match sample1 w file_path with
     | Missing => ret false
     | SampleFault e => raise e
     | Size size1 =>
         match sample2 w file_path with
         | Missing => ret false
         | SampleFault e => raise e
         | Size size2 => ret ((size1 =? size2) && (size1 >? 0))
         end
     end)
    (fun e =>
       emit (EvLogError (ustr "【文件稳定性】检查失败: " ++ name file_path
                         ++ ustr " | 错误: " ++ exn_msg e)) ;;
       ret false).

(** The recycle-bin and hidden-file markers. *)
Definition is_recycle_or_hidden (event_path : pystr) : bool :=
  contains (ustr "/@Recycle/") event_path
  || contains (ustr "/#recycle/") event_path
  || contains (ustr "/.") event_path
  || contains (ustr "/@eaDir") event_path.

(** A letter of a pattern under [re.IGNORECASE]: the code points whose
    lower case is the letter, and the long s for [s]. *)
Definition ci (letter : N) (c : N) : bool :=
  ((lower_cp c =? letter) || ((letter =? 115) && (c =? 383)))%N.

Definition sep_class (c : N) : bool := ((c =? slash) || (c =? backslash))%N.

Fixpoint match_here (pat : list (N -> bool)) (s : pystr) : bool :=
  match pat, s with
  | [], _ => true
  | p :: pat', c :: s' => p c && match_here pat' s'
  | _ :: _, [] => false
  end.

Fixpoint search (pat : list (N -> bool)) (s : pystr) : bool :=
  match_here pat s
  || match s with
     | [] => false
     | _ :: r => search pat r
     end.

(** [re.search(r"BDMV[/\\]STREAM", event_path, re.IGNORECASE)] *)
Definition is_bluray (event_path : pystr) : bool :=
  search (map ci (ustr "bdmv") ++ [sep_class] ++ map ci (ustr "stream"))
         event_path.

(** The scan of [directory_upload_path]: the first item that is truthy
    and whose [src] is the monitor root. *)
Fixpoint match_config (mon_path : pystr) (items : list (option ConfigItem))
  : option ConfigItem :=
  match items with
  | [] => None
  | None :: rest => match_config mon_path rest
  | Some item :: rest =>
      if PyStr.eqb mon_path (src item) then Some item
      else match_config mon_path rest
  end.

(** [[f".{ext.strip()}" for ext in cfg.replace("，", ",").split(",")]] *)
Definition parse_exts (cfg : pystr) : list pystr :=
  map (fun ext => dot :: strip ext)
      (split comma (replace1 fullwidth_comma comma cfg)).

(** [file_path.suffix.lower()] *)
Definition file_suffix (w : World) (event_path : pystr) : pystr :=
  lower (case_table w) (suffix event_path).

(** Step 5 of [enqueue_file]: the operation type, or [None] where the
    function returns without a task. *)
Definition classify (suffix_ : pystr) (upload_exts copy_exts : list pystr)
    (dest_remote dest_local : pystr) : option pystr :=
  if mem suffix_ upload_exts then
    if negb (truthy dest_remote) then None else Some (ustr "upload")
  else if mem suffix_ copy_exts then
    if negb (truthy dest_local) then None else Some (ustr "copy")
  else None.

(** The exception of the unique index on [file_path]. *)
Definition IntegrityError : Exn :=
  {| exn_type := ustr "IntegrityError";
     exn_msg := ustr "UNIQUE constraint failed: upload_queue.file_path" |}.

(** [UploadQueue.create_task] under [db_update]. *)
Definition create_task_stmt (w : World) (path fname : pystr)
    (size mtime : Z) (mon op : pystr) (remote local_ : option pystr)
    (del : bool) : M unit :=
  fun s =>
    match fault w OpCreateTask with
    | Some e => (inl e, s)
    | None =>
        match UploadQueue.create_task path fname size mtime mon op
                remote local_ del (now w OpCreateTask) (queue s) with
        | Some q => (inr tt, set_queue q s)
        | None => (inl IntegrityError, s)
        end
    end.

(** The block under [try:] in [enqueue_file]; [ret tt] is a [return]. *)
Definition enqueue_body (w : World) (event_path mon_path : pystr) : M unit :=
  present <- query w OpPathExists (fun _ => path_exists w event_path) ;;
  if negb present then ret tt else
  query w OpLock (fun _ => tt) ;;
  if is_recycle_or_hidden event_path then ret tt else
  if is_bluray event_path then ret tt else
  stable <- is_file_stable w event_path ;;
  if negb stable then ret tt else
  st <- query w OpStat (fun _ => stat w event_path) ;;
  let file_size := fst st in
  let file_mtime := snd st in
  let fingerprint := str_of_Z file_size ++ ustr "_" ++ str_of_Z file_mtime in
  uploaded <- query w OpIsUploaded
                (fun s => UploadHistory.is_uploaded fingerprint file_size
                            (history s)) ;;
  if (uploaded : bool) then ret tt else
  queued <- query w OpExistsInQueue
              (fun s => UploadQueue.exists_in_queue (path_str event_path)
                          (queue s)) ;;
  if (queued : bool) then ret tt else
  items <- query w OpConfigPaths (fun _ => config_paths w) ;;
  match match_config mon_path items with
  | None => ret tt
  | Some item =>
      let dest_remote := cfg_dest_remote item in
      let dest_local := cfg_dest_local item in
      let delete_source := delete item in
      upload_cfg <- query w OpConfigUploadExt
                      (fun _ => config_uploadext w) ;;
      copy_cfg <- query w OpConfigCopyExt (fun _ => config_copyext w) ;;
      let upload_exts := parse_exts upload_cfg in
      let copy_exts := parse_exts copy_cfg in
      match classify (file_suffix w event_path) upload_exts copy_exts
              dest_remote dest_local with
      | None => ret tt
      | Some operation_type =>
          create_task_stmt w (path_str event_path) (name event_path)
            file_size file_mtime mon_path operation_type
            (if PyStr.eqb operation_type (ustr "upload")
             then Some dest_remote else None)
            (if PyStr.eqb operation_type (ustr "copy")
             then Some dest_local else None)
            delete_source
      end
  end.

(** The [except Exception] clause of [enqueue_file]. *)
Definition enqueue_handler (event_path : pystr) (e : Exn) : M unit :=
  emit (EvLogError (ustr "【目录上传】入队异常: " ++ name event_path
                    ++ ustr " | " ++ exn_msg e)).

(** [enqueue_file]: [Path(event_path)] and the first log line, which do
    not raise on a string, then the guarded block. *)
Definition enqueue_file (w : World) (event_path mon_path : pystr) : M unit :=
  try_except (enqueue_body w event_path mon_path)
             (enqueue_handler event_path).

(** What [is_file_stable] returns in a world: both samples are sizes,
    equal and positive. *)
Definition stable_samples (w : World) (file_path : pystr) : bool :=
  match sample1 w file_path, sample2 w file_path with
  | Size size1, Size size2 => (size1 =? size2) && (size1 >? 0)
  | _, _ => false
  end.

End Monitor.

(* ================================================================== *)
(** * Vocabulary of the statements *)
(* ================================================================== *)

Import UploadQueue.

(** None of the listed operations raises in this world. *)
Definition quiet (w : World) (ops : list Op) : bool :=
  forallb (fun op => match fault w op with None => true | Some _ => false end)
          ops.

Fixpoint distinct (l : list Z) : bool :=
  match l with
  | [] => true
  | x :: r => negb (existsb (Z.eqb x) r) && distinct r
  end.

(** The primary key of [upload_queue]: no two rows share an [id]. *)
Definition primary_key (t : Table) : bool := distinct (map id t).

(** The number of rows in a status. *)
Definition count (st : Status) (t : Table) : Z :=
  Z.of_nat (List.length (filter (has_status st) t)).

(** The transfer attempts a trace records ([_do_upload] run, [_do_copy]
    past its destination check), by task id. *)
Fixpoint transfers (tr : list (bool * Event)) : list Z :=
  match tr with
  | [] => []
  | (_, EvUpload i) :: r | (_, EvCopy i) :: r => i :: transfers r
  | _ :: r => transfers r
  end.

(** The calls of [_delete_source_file] a trace records, by path. *)
Fixpoint deletions (tr : list (bool * Event)) : list pystr :=
  match tr with
  | [] => []
  | (_, EvDeleteSource p _) :: r => p :: deletions r
  | _ :: r => deletions r
  end.

(** The error lines a trace records. *)
Fixpoint errors (tr : list (bool * Event)) : list pystr :=
  match tr with
  | [] => []
  | (_, EvLogError m) :: r => m :: errors r
  | _ :: r => errors r
  end.

(** Two rows that agree on every column but [status] and [updated_at]. *)
Definition same_but_status (r r' : Row) : Prop :=
  id r' = id r /\ file_path r' = file_path r /\ file_name r' = file_name r /\
  file_size r' = file_size r /\ file_mtime r' = file_mtime r /\
  monitor_path r' = monitor_path r /\ dest_remote r' = dest_remote r /\
  dest_local r' = dest_local r /\ operation_type r' = operation_type r /\
  delete_source r' = delete_source r /\ retry_count r' = retry_count r /\
  error_message r' = error_message r /\ created_at r' = created_at r.

(** The state a call works on once it holds the flag. *)
Definition claimed (s : State) : State := set_is_processing true s.

(** What [process_one_task] runs between the claim of the flag and its
    release: the block under [try:] with its [except Exception]
    clause. *)
Definition guarded (w : World) : M bool :=
  try_except (Processor.process_body w) Processor.process_handler.

(** The state after a call of [process_one_task]. *)
Definition after (w : World) (s : State) : State :=
  snd (Processor.process_one_task w s).

(** A pass of an idle processor that fetches the task [task_id], finds
    its file, finds no history entry for it, and whose transfer fails
    with [msg], no database statement raising. *)
Definition failed_pass (w : World) (s : State) (task_id : Z) (msg : pystr)
  : bool :=
  negb (is_processing s)
  && primary_key (queue s)
  && quiet w [OpGetNextPending; OpMarkProcessing; OpPathExists;
              OpIsUploaded; OpMarkPendingRetry; OpMarkFailed]
  && match get_next_pending_task (queue s) with
     | None => false
     | Some task =>
         (id task =? task_id)
         && path_exists w (file_path task)
         && negb (UploadHistory.is_uploaded (Processor.fingerprint task)
                    (file_size task) (history s))
         && negb (fst (snd (Processor._execute_task w task)))
         && PyStr.eqb (snd (snd (Processor._execute_task w task))) msg
     end.

(** The unique index of [upload_queue] on [file_path]. *)
Fixpoint distinct_paths (l : list pystr) : bool :=
  match l with
  | [] => true
  | x :: r => negb (mem x r) && distinct_paths r
  end.

Definition unique_paths (t : Table) : bool := distinct_paths (map file_path t).

(** Two rows that agree on every column a pass never writes. *)
Definition same_task (r r' : Row) : Prop :=
  id r' = id r /\ file_path r' = file_path r /\ file_name r' = file_name r /\
  file_size r' = file_size r /\ file_mtime r' = file_mtime r /\
  monitor_path r' = monitor_path r /\ dest_remote r' = dest_remote r /\
  dest_local r' = dest_local r /\ operation_type r' = operation_type r /\
  delete_source r' = delete_source r /\ created_at r' = created_at r.

(** The state after a call of [enqueue_file]. *)
Definition enqueued (w : World) (event_path mon_path : pystr) (s : State)
  : State :=
  snd (Monitor.enqueue_file w event_path mon_path s).

(* ================================================================== *)
(** * Sample data *)
(* ================================================================== *)

Definition op_index (op : Op) : nat :=
  match op with
  | OpGetNextPending => 0 | OpMarkProcessing => 1 | OpPathExists => 2
  | OpIsUploaded => 3 | OpMarkCompleted => 4 | OpRecordUpload => 5
  | OpMarkFailed => 6 | OpMarkPendingRetry => 7 | OpLock => 8
  | OpStat => 9 | OpExistsInQueue => 10 | OpConfigPaths => 11
  | OpConfigUploadExt => 12 | OpConfigCopyExt => 13 | OpCreateTask => 14
  end%nat.

(** The cased letters of Latin-1, as every Unicode version has them:
    [U+00C0] to [U+00DE] without the multiplication sign move up by 32.
    The code points beyond Latin-1 are left as they are, which is enough
    for the sample paths. *)
Definition latin1_lower (c : N) : N :=
  if (((192 <=? c) && (c <=? 214)) || ((216 <=? c) && (c <=? 222)))%N
  then (c + 32)%N else c.

Lemma latin1_plain (before : pystr) (c : N) (after : pystr) :
  (128 <= c)%N ->
  [latin1_lower c] <> [] /\ forallb plain [latin1_lower c] = true.
Proof.
  intros Hc. split; [discriminate|].
  assert (128 <= latin1_lower c)%N as H.
  { unfold latin1_lower.
    destruct (((192 <=? c) && (c <=? 214)) || ((216 <=? c) && (c <=? 222)))%N;
      lia. }
  unfold forallb, plain, is_upper.
  destruct (N.eqb_spec (latin1_lower c) dot); [unfold dot in *; lia|].
  destruct (N.leb_spec (latin1_lower c) 90); [lia|].
  now rewrite andb_false_r.
Qed.

Definition latin1 : CaseTable :=
  {| to_lower := fun _ c _ => [latin1_lower c];
     to_lower_plain := latin1_plain |}.

Definition locked : Exn :=
  {| exn_type := ustr "OperationalError";
     exn_msg := ustr "database is locked" |}.

(** No operation raises. *)
Definition no_fault : Op -> option Exn := fun _ => None.

(** Exactly the operation [op] raises. *)
Definition fault_at (op : Op) : Op -> option Exn :=
  fun o => if Nat.eqb (op_index o) (op_index op) then Some locked else None.

(** A world in which the watched root [/mon] is configured with both
    destinations and deletion of the source; its other oracles are the
    parameters. *)
Definition sample_world (present : bool) (upload : bool * pystr)
    (faults : Op -> option Exn) (uploadext : pystr) : World :=
  {| now := fun _ => 1700000100;
     fault := faults;
     path_exists := fun _ => present;
     do_upload := fun _ => upload;
     do_copy := fun _ => (true, []);
     sample1 := fun _ => Size 1000000000;
     sample2 := fun _ => Size 1000000000;
     stat := fun _ => (1000000000, 1700000000);
     config_paths :=
       [None;
        Some {| src := ustr "/mon"; cfg_dest_remote := ustr "/remote";
                cfg_dest_local := ustr "/local"; delete := true |}];
     config_uploadext := uploadext;
     config_copyext := ustr "srt, ass";
     case_table := latin1 |}.

(** The transfer succeeds. *)
Definition world_ok : World :=
  sample_world true (true, []) no_fault (ustr "mkv，mp4").

(** The transfer fails with the given message. *)
Definition world_failing (msg : pystr) : World :=
  sample_world true (false, msg) no_fault (ustr "mkv，mp4").

(** The source file is gone. *)
Definition world_missing : World :=
  sample_world false (true, []) no_fault (ustr "mkv，mp4").

(** One operation raises. *)
Definition world_fault (op : Op) : World :=
  sample_world true (true, []) (fault_at op) (ustr "mkv，mp4").

(** The upload extensions are configured in upper case. *)
Definition world_upper : World :=
  sample_world true (true, []) no_fault (ustr "MKV").

Definition movie : Row :=
  {| id := 1; file_path := ustr "/mon/a/movie.mkv";
     file_name := ustr "movie.mkv";
     file_size := 1000000000; file_mtime := 1700000000;
     monitor_path := ustr "/mon";
     dest_remote := Some (ustr "/remote"); dest_local := None;
     operation_type := ustr "upload"; delete_source := true;
     status := Pending; retry_count := 0; error_message := None;
     created_at := 1700000010; updated_at := 1700000010 |}.

Definition subtitles : Row :=
  {| id := 2; file_path := ustr "/mon/a/movie.srt";
     file_name := ustr "movie.srt";
     file_size := 52000; file_mtime := 1700000001;
     monitor_path := ustr "/mon";
     dest_remote := None; dest_local := Some (ustr "/local");
     operation_type := ustr "copy"; delete_source := false;
     status := Pending; retry_count := 0; error_message := None;
     created_at := 1700000020; updated_at := 1700000020 |}.

(** The movie, claimed by a process that died. *)
Definition movie_claimed : Row := values_status Processing 1700000050 movie.

(** The history entry of a file with the movie's size and mtime. *)
Definition movie_done : UploadHistory.Row :=
  {| UploadHistory.id := 1;
     UploadHistory.file_fingerprint := ustr "1000000000_1700000000";
     UploadHistory.file_size := 1000000000;
     UploadHistory.file_path := ustr "/mon/b/movie-copy.mkv";
     UploadHistory.file_name := ustr "movie-copy.mkv";
     UploadHistory.dest_remote := Some (ustr "/remote");
     UploadHistory.dest_local := None;
     UploadHistory.operation_type := ustr "upload";
     UploadHistory.completed_at := 1700000090 |}.

(** The movie after three failed transfers. *)
Definition movie_failed : Row :=
  values_failed (ustr "boom") 3 1700000300 movie.

(** The subtitles after three failed copies, the last one later than
    the movie's. *)
Definition subtitles_failed : Row :=
  values_failed (ustr "disk full") 3 1700000350 subtitles.

(** A trailer whose third upload failed before the movie's. *)
Definition trailer_failed : Row :=
  {| id := 3; file_path := ustr "/mon/a/trailer.mp4";
     file_name := ustr "trailer.mp4";
     file_size := 40000000; file_mtime := 1700000002;
     monitor_path := ustr "/mon";
     dest_remote := Some (ustr "/remote"); dest_local := None;
     operation_type := ustr "upload"; delete_source := false;
     status := Failed; retry_count := 3;
     error_message := Some (ustr "timeout");
     created_at := 1700000030; updated_at := 1700000200 |}.

(** The subtitles, transferred. *)
Definition subtitles_completed : Row :=
  values_status Completed 1700000400 subtitles.

(** An older history entry. *)
Definition old_done : UploadHistory.Row :=
  {| UploadHistory.id := 2;
     UploadHistory.file_fingerprint := ustr "52000_1600000001";
     UploadHistory.file_size := 52000;
     UploadHistory.file_path := ustr "/mon/old/old.srt";
     UploadHistory.file_name := ustr "old.srt";
     UploadHistory.dest_remote := None;
     UploadHistory.dest_local := Some (ustr "/local");
     UploadHistory.operation_type := ustr "copy";
     UploadHistory.completed_at := 1600000000 |}.

(** A listing in which only [/mon/a] has files. *)
Definition only_a_has_files (d : pystr) : Processor.Listing :=
  if PyStr.eqb d (ustr "/mon/a") then Processor.HasFiles
  else Processor.NoFiles.

Definition idle (q : Table) (h : UploadHistory.Table) : State :=
  {| is_processing := false; queue := q; history := h; trace := [] |}.

Definition busy (q : Table) (h : UploadHistory.Table) : State :=
  {| is_processing := true; queue := q; history := h; trace := [] |}.

(* ================================================================== *)
(** * Lemmas on strings and tables *)
(* ================================================================== *)

Lemma pystr_eqb_eq (a b : pystr) : PyStr.eqb a b = true <-> a = b.
Proof.
  revert b. induction a as [|x a IH]; intros [|y b]; simpl;
    try (split; congruence).
  rewrite andb_true_iff, N.eqb_eq, IH. split.
  - intros [-> ->]. reflexivity.
  - intros [= -> ->]. auto.
Qed.

Lemma pystr_eqb_refl (a : pystr) : PyStr.eqb a a = true.
Proof. now apply pystr_eqb_eq. Qed.

Lemma mem_In (x : pystr) (xs : list pystr) : mem x xs = true <-> In x xs.
Proof.
  unfold mem. rewrite existsb_exists. split.
  - intros [y [Hy Hxy]]. apply pystr_eqb_eq in Hxy. now subst.
  - intros H. exists x. split; [assumption | apply pystr_eqb_refl].
Qed.

Lemma lower_cp_idem (c : N) : lower_cp (lower_cp c) = lower_cp c.
Proof.
  unfold lower_cp.
  destruct ((65 <=? c) && (c <=? 90))%N eqn:E; [|now rewrite E].
  apply andb_true_iff in E. destruct E as [E1 E2].
  apply N.leb_le in E1, E2.
  destruct (N.leb_spec 65 (c + 32)), (N.leb_spec (c + 32) 90); simpl;
    try reflexivity; lia.
Qed.

Lemma lower_cp_fixed (c k : N) :
  (k < 65 \/ 90 < k < 97 \/ 122 < k)%N ->
  (lower_cp c =? k)%N = (c =? k)%N.
Proof.
  intros Hk. unfold lower_cp.
  destruct ((65 <=? c) && (c <=? 90))%N eqn:E; [|reflexivity].
  apply andb_true_iff in E. destruct E as [E1 E2].
  apply N.leb_le in E1, E2.
  destruct (N.eqb_spec (c + 32) k), (N.eqb_spec c k); try reflexivity; lia.
Qed.

Lemma status_eqb_eq (a b : Status) : status_eqb a b = true <-> a = b.
Proof. destruct a, b; simpl; split; congruence. Qed.

Lemma has_status_true (st : Status) (r : Row) :
  has_status st r = true <-> status r = st.
Proof. unfold has_status. apply status_eqb_eq. Qed.

Lemma has_status_false (st : Status) (r : Row) :
  has_status st r = false <-> status r <> st.
Proof.
  unfold has_status. destruct (status r), st; simpl; split;
    congruence.
Qed.

Lemma quiet_fault (w : World) (ops : list Op) (op : Op) :
  quiet w ops = true -> In op ops -> fault w op = None.
Proof.
  unfold quiet. rewrite forallb_forall. intros H Hin.
  specialize (H op Hin). now destruct (fault w op).
Qed.

(** ** [update_where] *)

Lemma update_where_length p f (t : Table) :
  List.length (update_where p f t) = List.length t.
Proof. unfold update_where. apply length_map. Qed.

Lemma update_where_ids p f (t : Table) :
  (forall r, id (f r) = id r) ->
  map id (update_where p f t) = map id t.
Proof.
  intros Hf. unfold update_where. rewrite map_map. apply map_ext.
  intros r. destruct (p r); auto.
Qed.

Lemma get_update_same i f (t : Table) :
  (forall r, id (f r) = id r) ->
  get i (update_where (has_id i) f t) = option_map f (get i t).
Proof.
  intros Hf. unfold get, update_where.
  induction t as [|a t IH]; simpl; [reflexivity|].
  destruct (has_id i a) eqn:Ha.
  - unfold has_id in *. rewrite Hf. now rewrite Ha.
  - now rewrite Ha.
Qed.

Lemma get_update_other i j f (t : Table) :
  (forall r, id (f r) = id r) -> i <> j ->
  get j (update_where (has_id i) f t) = get j t.
Proof.
  intros Hf Hij. unfold get, update_where.
  induction t as [|a t IH]; simpl; [reflexivity|].
  destruct (has_id i a) eqn:Ha.
  - unfold has_id in *. rewrite Hf.
    apply Z.eqb_eq in Ha.
    destruct (id a =? j) eqn:Hj; [apply Z.eqb_eq in Hj; lia | exact IH].
  - destruct (has_id j a); [reflexivity | exact IH].
Qed.

Lemma primary_key_update p f (t : Table) :
  (forall r, id (f r) = id r) ->
  primary_key (update_where p f t) = primary_key t.
Proof. intros Hf. unfold primary_key. now rewrite update_where_ids. Qed.

Lemma primary_key_get (t : Table) (r : Row) :
  primary_key t = true -> In r t -> get (id r) t = Some r.
Proof.
  unfold primary_key, get.
  induction t as [|a t IH]; simpl; [contradiction|].
  intros Hpk [-> | Hin].
  - unfold has_id. now rewrite Z.eqb_refl.
  - apply andb_true_iff in Hpk. destruct Hpk as [Hna Hd].
    unfold has_id at 1. destruct (id a =? id r) eqn:E.
    + apply Z.eqb_eq in E. apply negb_true_iff in Hna.
      assert (existsb (Z.eqb (id a)) (map id t) = true) as Hex.
      { apply existsb_exists. exists (id r). split.
        - now apply in_map.
        - now apply Z.eqb_eq. }
      congruence.
    + now apply IH.
Qed.

(** ** [get_next_pending_task] *)

Lemma insert_by_created_at_head r l :
  exists m l', insert_by_created_at r l = m :: l'
    /\ (m = r \/ hd_error l = Some m)
    /\ created_at m <= created_at r
    /\ (forall x, hd_error l = Some x -> created_at m <= created_at x)
    /\ (forall x, hd_error l = Some x ->
          created_at x < created_at r -> m = x).
Proof.
  destruct l as [|m l']; simpl.
  - exists r, []. repeat split; auto; try lia; discriminate.
  - match goal with
    | |- context [if ?c then _ else _] => destruct c eqn:E
    end.
    + assert (created_at r <= created_at m) as Hle
        by (first [apply Z.leb_le in E | apply Z.ltb_lt in E]; lia).
      exists r, (m :: l').
      repeat split; auto; try lia; intros x [= <-]; lia.
    + assert (created_at m <= created_at r) as Hle
        by (first [apply Z.leb_gt in E | apply Z.ltb_ge in E]; lia).
      exists m, (insert_by_created_at r l').
      repeat split; auto; try lia; intros x [= <-]; auto; lia.
Qed.

Lemma order_by_created_at_nil l :
  order_by_created_at l = [] -> l = [].
Proof.
  destruct l as [|r l]; [reflexivity|]. simpl.
  destruct (insert_by_created_at_head r (order_by_created_at l))
    as (m & l' & E & _). rewrite E. discriminate.
Qed.

Lemma order_by_created_at_head l m :
  hd_error (order_by_created_at l) = Some m ->
  In m l /\ forall x, In x l -> created_at m <= created_at x.
Proof.
  revert m. induction l as [|r l IH]; simpl; [discriminate|].
  intros m Hm.
  destruct (insert_by_created_at_head r (order_by_created_at l))
    as (m' & l' & E & Hor & Hle & Hhd & _).
  rewrite E in Hm. simpl in Hm. injection Hm as <-.
  destruct (order_by_created_at l) as [|h tl] eqn:Eo.
  - apply order_by_created_at_nil in Eo. subst l.
    destruct Hor as [-> | Hor]; [|discriminate].
    split; [now left|]. intros x [<- | []]. lia.
  - destruct (IH h eq_refl) as [Hin Hmin].
    specialize (Hhd h eq_refl).
    split.
    + destruct Hor as [-> | Hor]; [now left|].
      simpl in Hor. injection Hor as <-. now right.
    + intros x [<- | Hx]; [assumption|].
      specialize (Hmin x Hx). lia.
Qed.

Lemma get_next_pending_task_some (t : Table) (r : Row) :
  get_next_pending_task t = Some r ->
  In r t /\ status r = Pending
  /\ forall x, In x t -> status x = Pending -> created_at r <= created_at x.
Proof.
  unfold get_next_pending_task. intros H.
  apply order_by_created_at_head in H. destruct H as [Hin Hmin].
  apply filter_In in Hin. destruct Hin as [Hin Hst].
  apply has_status_true in Hst. repeat split; auto.
  intros x Hx Hxs. apply Hmin. apply filter_In. split; auto.
  now apply has_status_true.
Qed.

Lemma get_next_pending_task_none (t : Table) :
  get_next_pending_task t = None <->
  forall r, In r t -> status r <> Pending.
Proof.
  unfold get_next_pending_task. split.
  - intros H r Hin Hst.
    destruct (order_by_created_at (filter (has_status Pending) t)) eqn:E;
      [|discriminate].
    apply order_by_created_at_nil in E.
    assert (In r (filter (has_status Pending) t)) as Hf.
    { apply filter_In. split; auto. now apply has_status_true. }
    rewrite E in Hf. contradiction.
  - intros H.
    destruct (filter (has_status Pending) t) as [|a l] eqn:E;
      [reflexivity|].
    assert (In a (filter (has_status Pending) t)) as Hf
      by (rewrite E; now left).
    apply filter_In in Hf. destruct Hf as [Hin Hst].
    apply has_status_true in Hst. now apply H in Hin.
Qed.

(** ** The trace *)

Lemma record_events_fields (evs : list Event) (s : State) :
  is_processing (record_events evs s) = is_processing s
  /\ queue (record_events evs s) = queue s
  /\ history (record_events evs s) = history s
  /\ trace (record_events evs s)
     = map (pair (is_processing s)) (rev evs) ++ trace s.
Proof.
  unfold record_events. revert s.
  induction evs as [|e evs IH]; intros s; simpl; [auto|].
  destruct (IH (record_event e s)) as (H1 & H2 & H3 & H4).
  rewrite H1, H2, H3, H4. simpl. repeat split.
  rewrite map_app, <- app_assoc. reflexivity.
Qed.

Lemma is_processing_record_events evs s :
  is_processing (record_events evs s) = is_processing s.
Proof. apply record_events_fields. Qed.

Lemma queue_record_events evs s :
  queue (record_events evs s) = queue s.
Proof. apply record_events_fields. Qed.

Lemma history_record_events evs s :
  history (record_events evs s) = history s.
Proof. apply record_events_fields. Qed.

Lemma trace_record_events evs s :
  trace (record_events evs s)
  = map (pair (is_processing s)) (rev evs) ++ trace s.
Proof. apply record_events_fields. Qed.

Lemma transfers_app a b : transfers (a ++ b) = transfers a ++ transfers b.
Proof.
  induction a as [|[f e] a IH]; simpl; [reflexivity|].
  destruct e; simpl; now rewrite IH.
Qed.

Lemma deletions_app a b : deletions (a ++ b) = deletions a ++ deletions b.
Proof.
  induction a as [|[f e] a IH]; simpl; [reflexivity|].
  destruct e; simpl; now rewrite IH.
Qed.

Lemma errors_app a b : errors (a ++ b) = errors a ++ errors b.
Proof.
  induction a as [|[f e] a IH]; simpl; [reflexivity|].
  destruct e; simpl; now rewrite IH.
Qed.

(** What the transfer of a task records: no deletion, no error line. *)
Lemma execute_task_events (w : World) (task : Row) (b : bool) :
  deletions (map (pair b) (rev (fst (Processor._execute_task w task)))) = []
  /\ errors (map (pair b) (rev (fst (Processor._execute_task w task)))) = [].
Proof.
  unfold Processor._execute_task, Processor._do_upload, Processor._do_copy.
  destruct (PyStr.eqb (operation_type task) (ustr "upload")); simpl; auto.
  destruct (PyStr.eqb (operation_type task) (ustr "copy")); simpl; auto.
  destruct (negb (truthy_opt (dest_local task))); simpl; auto.
Qed.

(* ================================================================== *)
(** * The processor, path by path *)
(* ================================================================== *)

(** Case analysis along the branches of [process_one_task]. *)
Ltac walk :=
  repeat (simpl;
    match goal with
    | |- context [match fault ?w ?op with _ => _ end] =>
        destruct (fault w op) eqn:?
    | |- context [match get_next_pending_task ?q with _ => _ end] =>
        destruct (get_next_pending_task q) eqn:?
    | |- context [if negb (path_exists ?w ?p) then _ else _] =>
        destruct (path_exists w p) eqn:?
    | |- context [if UploadHistory.is_uploaded ?a ?b ?c then _ else _] =>
        destruct (UploadHistory.is_uploaded a b c) eqn:?
    | |- context [if fst (snd (Processor._execute_task ?w ?t)) then _ else _] =>
        destruct (fst (snd (Processor._execute_task w t))) eqn:?
    | |- context [if delete_source ?t then _ else _] =>
        destruct (delete_source t) eqn:?
    | |- context [if ?a <? ?b then _ else _] =>
        destruct (a <? b) eqn:?
    end).

Arguments Processor.fault_line _ : simpl never.

Ltac unfold_processor :=
  unfold after, Processor.process_one_task, try_finally, try_except,
    Processor.process_body, Processor.process_handler, bind, query, update,
    perform, emit, ret, on_queue, on_history, claimed.

(** The row of a task after the statements of a pass. *)
Ltac task_row Hpk Hin :=
  unfold mark_as_processing, mark_as_completed, mark_as_failed,
    mark_as_pending_retry;
  rewrite ?queue_record_events; simpl;
  rewrite ?get_update_same by (intros; reflexivity);
  rewrite (primary_key_get _ _ Hpk Hin); simpl.

Lemma process_one_task_busy (w : World) (s : State) :
  is_processing s = true ->
  Processor.process_one_task w s = (inr false, s).
Proof. intros H. unfold Processor.process_one_task. now rewrite H. Qed.

Lemma process_one_task_returns (w : World) (s : State) :
  exists b, fst (Processor.process_one_task w s) = inr b.
Proof.
  unfold_processor.
  destruct (is_processing s); [now exists false|].
  walk; eexists; reflexivity.
Qed.

Lemma cons_neq_self {A} (x : A) (l : list A) : l <> x :: l.
Proof.
  intros H. apply (f_equal (@List.length A)) in H. simpl in H. lia.
Qed.

(** Rewriting of the projections of a trace after a pass. *)
Ltac trace_simpl :=
  repeat (progress
            (rewrite ?trace_record_events, ?is_processing_record_events,
               ?queue_record_events, ?history_record_events,
               ?errors_app, ?deletions_app, ?transfers_app,
               ?(fun w t b => proj1 (execute_task_events w t b)),
               ?(fun w t b => proj2 (execute_task_events w t b));
             simpl)).

Lemma process_one_task_true (w : World) (s : State) :
  fst (Processor.process_one_task w s) = inr true ->
  is_processing s = false
  /\ errors (trace (after w s)) = errors (trace s)
  /\ exists task,
       get_next_pending_task (queue s) = Some task
       /\ (primary_key (queue s) = true ->
           exists row,
             get (id task) (queue (after w s)) = Some row
             /\ (status row = Completed \/ status row = Failed
                 \/ (status row = Pending
                     /\ retry_count row = retry_count task + 1))).
Proof.
  unfold_processor.
  destruct (is_processing s) eqn:Hidle; [discriminate|].
  walk; intros Hres; try discriminate Hres;
    (split; [reflexivity|]); (split; [trace_simpl; reflexivity|]);
    match goal with
    | H : get_next_pending_task _ = Some ?t |- _ =>
        exists t; split; [reflexivity|]; intros Hpk;
        pose proof (proj1 (get_next_pending_task_some _ _ H)) as Hin;
        task_row Hpk Hin
    end;
    eexists; (split; [reflexivity|]); simpl; auto.
Qed.

Lemma process_one_task_false (w : World) (s : State) :
  fst (Processor.process_one_task w s) = inr false <->
  is_processing s = true
  \/ (is_processing s = false /\ fault w OpGetNextPending = None
      /\ get_next_pending_task (queue s) = None)
  \/ (is_processing s = false
      /\ exists e, errors (trace (after w s))
                   = Processor.fault_line e :: errors (trace s)).
Proof.
  unfold_processor.
  destruct (is_processing s) eqn:Hidle; simpl.
  - split; auto.
  - walk; trace_simpl; split; intros H; try discriminate H;
      try reflexivity;
      try (right; left; repeat split; assumption);
      try (right; right; split; [reflexivity|]; eexists; reflexivity);
      exfalso;
      destruct H as [H | [(_ & H1 & H2) | (_ & e' & H)]];
      try discriminate;
      try (symmetry in H; revert H; apply cons_neq_self);
      try (revert H; apply cons_neq_self).
Qed.

(** C8: the call returns a boolean.  [True] is returned only by an idle
    processor that fetched a pending task and took it out of Processing
    (Completed, Failed, or Pending with one more retry) without logging a
    fault; [False] is returned in exactly three situations that the value
    does not tell apart: the flag was set, the queue had no pending task,
    or the guarded block raised and the handler logged the fault. *)
Theorem C8_false_conflates_busy_empty_fault :
  forall (w : World) (s : State),
    (exists b, fst (Processor.process_one_task w s) = inr b)
    /\ (fst (Processor.process_one_task w s) = inr true ->
          is_processing s = false
          /\ errors (trace (after w s)) = errors (trace s)
          /\ exists task,
               get_next_pending_task (queue s) = Some task
               /\ (primary_key (queue s) = true ->
                   exists row,
                     get (id task) (queue (after w s)) = Some row
                     /\ (status row = Completed \/ status row = Failed
                         \/ (status row = Pending
                             /\ retry_count row = retry_count task + 1))))
    /\ (fst (Processor.process_one_task w s) = inr false <->
          is_processing s = true
          \/ (is_processing s = false /\ fault w OpGetNextPending = None
              /\ get_next_pending_task (queue s) = None)
          \/ (is_processing s = false
              /\ exists e, errors (trace (after w s))
                           = Processor.fault_line e :: errors (trace s))).
Proof.
  intros w s. split; [apply process_one_task_returns|].
  split; [apply process_one_task_true | apply process_one_task_false].
Qed.

(** ** A failed transfer *)

Lemma failed_pass_elim (w : World) (s : State) (tid : Z) (msg : pystr) :
  failed_pass w s tid msg = true ->
  is_processing s = false /\ primary_key (queue s) = true
  /\ fault w OpGetNextPending = None /\ fault w OpMarkProcessing = None
  /\ fault w OpPathExists = None /\ fault w OpIsUploaded = None
  /\ fault w OpMarkPendingRetry = None /\ fault w OpMarkFailed = None
  /\ exists task,
       get_next_pending_task (queue s) = Some task /\ id task = tid
       /\ path_exists w (file_path task) = true
       /\ UploadHistory.is_uploaded (Processor.fingerprint task)
            (file_size task) (history s) = false
       /\ fst (snd (Processor._execute_task w task)) = false
       /\ snd (snd (Processor._execute_task w task)) = msg.
Proof.
  unfold failed_pass. rewrite !andb_true_iff.
  intros [[[Hidle Hpk] Hq] Hnext].
  apply negb_true_iff in Hidle.
  repeat split; auto;
    try (apply (quiet_fault _ _ _ Hq); simpl; tauto).
  destruct (get_next_pending_task (queue s)) as [task|]; [|discriminate].
  rewrite !andb_true_iff in Hnext.
  destruct Hnext as [[[[Hid Hex] Hup] Hres] Hmsg].
  exists task. apply Z.eqb_eq in Hid. apply negb_true_iff in Hup, Hres.
  apply pystr_eqb_eq in Hmsg. repeat split; auto.
Qed.

Lemma failed_pass_step (w : World) (s : State) (tid : Z) (msg : pystr) :
  failed_pass w s tid msg = true ->
  fst (Processor.process_one_task w s) = inr true
  /\ exists task row,
       get tid (queue s) = Some task
       /\ get tid (queue (after w s)) = Some row
       /\ status task = Pending
       /\ retry_count row = retry_count task + 1
       /\ created_at row = created_at task
       /\ (retry_count task + 1 < 3 -> status row = Pending)
       /\ (3 <= retry_count task + 1 ->
           status row = Failed /\ error_message row = Some msg).
Proof.
  intros H. apply failed_pass_elim in H.
  destruct H as (Hidle & Hpk & F1 & F2 & F3 & F4 & F5 & F6
                 & task & Hnext & Hid & Hex & Hup & Hres & Hmsg).
  destruct (get_next_pending_task_some _ _ Hnext) as (Hin & Hst & _).
  subst tid.
  unfold_processor.
  rewrite Hidle; simpl. rewrite F1, Hnext; simpl. rewrite F2; simpl.
  rewrite F3; simpl. rewrite Hex; simpl. rewrite F4; simpl.
  rewrite Hup; simpl. rewrite Hres; simpl.
  destruct (retry_count task + 1 <? 3) eqn:Hlt; simpl.
  - rewrite F5; simpl. split; [reflexivity|].
    exists task. eexists. split; [now apply primary_key_get|].
    task_row Hpk Hin. split; [reflexivity|]. simpl.
    apply Z.ltb_lt in Hlt. repeat split; auto; intros; lia.
  - rewrite F6; simpl. split; [reflexivity|].
    exists task. eexists. split; [now apply primary_key_get|].
    task_row Hpk Hin. split; [reflexivity|]. simpl.
    apply Z.ltb_ge in Hlt. repeat split; auto; intros; try lia.
    now rewrite Hmsg.
Qed.

(** C1: on a pass whose transfer fails, the retry count of the task grows
    by exactly one and [created_at] is kept; below 3 the task is Pending
    again, from 3 on it is Failed with the message of this failure.  Three
    such passes on a task that starts at retry count 0 give the counts 1,
    2, 3 and leave it Failed with the third message. *)
Theorem C1_retry_then_fail_after_three :
  (forall (w : World) (s : State) (tid : Z) (msg : pystr),
      failed_pass w s tid msg = true ->
      exists task row,
        get tid (queue s) = Some task
        /\ get tid (queue (after w s)) = Some row
        /\ retry_count row = retry_count task + 1
        /\ created_at row = created_at task
        /\ (retry_count task + 1 < 3 -> status row = Pending)
        /\ (3 <= retry_count task + 1 ->
            status row = Failed /\ error_message row = Some msg))
  /\ (forall (w1 w2 w3 : World) (s0 : State) (tid : Z) (m1 m2 m3 : pystr),
        failed_pass w1 s0 tid m1 = true ->
        failed_pass w2 (after w1 s0) tid m2 = true ->
        failed_pass w3 (after w2 (after w1 s0)) tid m3 = true ->
        option_map retry_count (get tid (queue s0)) = Some 0 ->
        option_map retry_count (get tid (queue (after w1 s0))) = Some 1
        /\ option_map status (get tid (queue (after w1 s0))) = Some Pending
        /\ option_map retry_count (get tid (queue (after w2 (after w1 s0))))
           = Some 2
        /\ option_map status (get tid (queue (after w2 (after w1 s0))))
           = Some Pending
        /\ option_map retry_count
             (get tid (queue (after w3 (after w2 (after w1 s0))))) = Some 3
        /\ option_map status
             (get tid (queue (after w3 (after w2 (after w1 s0)))))
           = Some Failed
        /\ option_map error_message
             (get tid (queue (after w3 (after w2 (after w1 s0)))))
           = Some (Some m3)
        /\ option_map created_at
             (get tid (queue (after w3 (after w2 (after w1 s0)))))
           = option_map created_at (get tid (queue s0))).
Proof.
  split.
  - intros w s tid msg H.
    destruct (failed_pass_step _ _ _ _ H)
      as (_ & task & row & H1 & H2 & _ & H3 & H4 & H5 & H6).
    exists task, row. repeat split; auto; now apply H6.
  - intros w1 w2 w3 s0 tid m1 m2 m3 P1 P2 P3 H0.
    destruct (failed_pass_step _ _ _ _ P1)
      as (_ & t0 & t1 & G0 & G1 & _ & R1 & C1 & L1 & _).
    destruct (failed_pass_step _ _ _ _ P2)
      as (_ & t1' & t2 & G1' & G2 & _ & R2 & C2 & L2 & _).
    destruct (failed_pass_step _ _ _ _ P3)
      as (_ & t2' & t3 & G2' & G3 & _ & R3 & C3 & _ & L3).
    rewrite G1 in G1'. injection G1' as <-.
    rewrite G2 in G2'. injection G2' as <-.
    rewrite G0 in H0. simpl in H0. injection H0 as H0.
    rewrite G0, G1, G2, G3. simpl.
    assert (retry_count t1 = 1) as E1 by lia.
    assert (retry_count t2 = 2) as E2 by lia.
    assert (retry_count t3 = 3) as E3 by lia.
    destruct L3 as [S3 M3]; [lia|].
    rewrite L1 by lia. rewrite L2 by lia.
    rewrite E1, E2, E3, S3, M3. repeat split; congruence.
Qed.

(** ** The two shortcuts *)

Lemma quiet_cons (w : World) (op : Op) (ops : list Op) :
  quiet w (op :: ops) = true -> fault w op = None /\ quiet w ops = true.
Proof.
  unfold quiet. simpl. rewrite andb_true_iff. intros [H1 H2].
  split; [|assumption]. now destruct (fault w op).
Qed.

Ltac quiet_facts H :=
  repeat (apply quiet_cons in H; let F := fresh "F" in destruct H as [F H]).

(** Follow the branch the hypotheses select. *)
Ltac follow :=
  repeat (simpl;
          match goal with
          | H : ?l = _ |- context [?l] => rewrite H
          end);
  cbn [fst snd queue history trace is_processing set_queue set_history
       set_is_processing record_event].

Lemma is_uploaded_true (fp : pystr) (size : Z) (t : UploadHistory.Table) :
  UploadHistory.is_uploaded fp size t = true <->
  exists h, In h t /\ UploadHistory.file_fingerprint h = fp
            /\ UploadHistory.file_size h = size.
Proof.
  unfold UploadHistory.is_uploaded. split.
  - destruct (find (UploadHistory.matches fp size) t) as [h|] eqn:E;
      [|discriminate].
    intros _. apply find_some in E. destruct E as [Hin Hm].
    unfold UploadHistory.matches in Hm. apply andb_true_iff in Hm.
    destruct Hm as [Hf Hs]. apply pystr_eqb_eq in Hf. apply Z.eqb_eq in Hs.
    now exists h.
  - intros (h & Hin & Hf & Hs).
    destruct (find (UploadHistory.matches fp size) t) as [h'|] eqn:E;
      [reflexivity|].
    pose proof (find_none _ _ E h Hin) as Hn.
    unfold UploadHistory.matches in Hn.
    rewrite Hf, Hs, pystr_eqb_refl, Z.eqb_refl in Hn. discriminate.
Qed.

(** ** The flag *)

(** No statement of the guarded block writes the flag. *)
Lemma guarded_flag (w : World) (s : State) :
  is_processing (snd (guarded w s)) = is_processing s.
Proof.
  unfold guarded, try_except, Processor.process_body,
    Processor.process_handler, bind, query, update, perform, emit, ret,
    on_queue, on_history.
  walk;
    repeat (progress (rewrite ?is_processing_record_events; simpl));
    reflexivity.
Qed.

(** An idle call claims the flag, runs the guarded block, and releases
    the flag. *)
Lemma process_one_task_idle (w : World) (s : State) :
  is_processing s = false ->
  Processor.process_one_task w s
  = (fst (guarded w (claimed s)),
     set_is_processing false (snd (guarded w (claimed s)))).
Proof.
  intros Hidle.
  unfold Processor.process_one_task, try_finally, guarded, claimed.
  rewrite Hidle.
  now destruct (try_except (Processor.process_body w)
                  Processor.process_handler (set_is_processing true s)).
Qed.

(** The transfer of a pass is recorded while the flag is set. *)
Lemma transfer_under_flag (w : World) (s : State) (task : Row) (ev : Event) :
  is_processing s = false ->
  quiet w [OpGetNextPending; OpMarkProcessing; OpPathExists; OpIsUploaded]
  = true ->
  get_next_pending_task (queue s) = Some task ->
  path_exists w (file_path task) = true ->
  UploadHistory.is_uploaded (Processor.fingerprint task) (file_size task)
    (history s) = false ->
  In ev (fst (Processor._execute_task w task)) ->
  In (true, ev) (trace (after w s)).
Proof.
  intros Hidle Hq Hnext Hex Hup Hev.
  quiet_facts Hq.
  assert (In (true, ev)
             (map (pair true) (rev (fst (Processor._execute_task w task)))))
    as Hin by (apply in_map, in_rev; now rewrite rev_involutive).
  unfold_processor. follow.
  walk;
    repeat (progress
              (rewrite ?trace_record_events, ?is_processing_record_events;
               simpl));
    rewrite ?in_app_iff; simpl; auto.
Qed.

(** C3: a call that finds the flag set does nothing and returns, in
    every world.  A call that finds it clear sets it, runs the guarded
    block from the state with the flag set, and clears it whatever the
    block did: it returns a boolean (it never raises) and leaves the flag
    clear on every path, faults included.  The block never writes the
    flag, so the flag is set from the claim to the release: it is set in
    the state the block starts from and in the state it ends in, every
    event of the call is recorded with the flag set, the transfer of a
    task is so recorded whenever the pass gets to it, and so is the
    error line of a fault.  A call that arrives in one of these states is
    the no-op of the first sentence: a second task is not fetched while
    one is in flight. *)
Theorem C3_busy_flag_single_flight :
  forall (w : World) (s : State),
    (is_processing s = true ->
       Processor.process_one_task w s = (inr false, s))
    /\ (forall s0, is_processing (snd (guarded w s0)) = is_processing s0)
    /\ (is_processing s = false ->
          (exists b, fst (Processor.process_one_task w s) = inr b)
          /\ is_processing (after w s) = false
          /\ (forall e, In e (trace (after w s)) ->
                In e (trace s) \/ fst e = true)
          /\ Processor.process_one_task w s
             = (fst (guarded w (claimed s)),
                set_is_processing false (snd (guarded w (claimed s))))
          /\ is_processing (claimed s) = true
          /\ is_processing (snd (guarded w (claimed s))) = true
          /\ (forall w',
                Processor.process_one_task w' (claimed s)
                = (inr false, claimed s)
                /\ Processor.process_one_task w' (snd (guarded w (claimed s)))
                   = (inr false, snd (guarded w (claimed s))))
          /\ (forall task ev,
                quiet w [OpGetNextPending; OpMarkProcessing; OpPathExists;
                         OpIsUploaded] = true ->
                get_next_pending_task (queue s) = Some task ->
                path_exists w (file_path task) = true ->
                UploadHistory.is_uploaded (Processor.fingerprint task)
                  (file_size task) (history s) = false ->
                In ev (fst (Processor._execute_task w task)) ->
                In (true, ev) (trace (after w s)))
          /\ (forall e,
                fault w OpGetNextPending = Some e ->
                trace (after w s)
                = (true, EvLogError (Processor.fault_line e)) :: trace s)).
Proof.
  intros w s. split; [apply process_one_task_busy|].
  split; [apply guarded_flag|].
  intros Hidle. split; [apply process_one_task_returns|].
  assert (is_processing (snd (guarded w (claimed s))) = true) as Hend
    by (now rewrite guarded_flag).
  split.
  { unfold_processor. rewrite Hidle. walk; reflexivity. }
  split.
  { unfold_processor. rewrite Hidle. intros e. walk;
      repeat (progress
                (rewrite ?trace_record_events, ?is_processing_record_events;
                 simpl));
      rewrite ?in_app_iff, ?in_map_iff; simpl;
      intuition (subst; auto);
      repeat match goal with
             | H : exists _, _ |- _ => destruct H as [? [<- ?]]
             end; auto. }
  split; [now apply process_one_task_idle|].
  split; [reflexivity|].
  split; [exact Hend|].
  split.
  { intros w'. split; apply process_one_task_busy; [reflexivity | exact Hend]. }
  split.
  { intros task ev. now apply transfer_under_flag. }
  intros e He. unfold_processor. rewrite Hidle. simpl. rewrite He.
  reflexivity.
Qed.

(** C2, amended: when the source file of the fetched task still exists
    and a history entry carries its fingerprint
    ["{file_size}_{file_mtime}"] and its size, the pass returns [True],
    the task is Completed, and no transfer is recorded. *)
Theorem C2_history_shortcut_completes_without_transfer :
  forall (w : World) (s : State) (task : Row) (h : UploadHistory.Row),
    is_processing s = false ->
    primary_key (queue s) = true ->
    quiet w [OpGetNextPending; OpMarkProcessing; OpPathExists;
             OpIsUploaded; OpMarkCompleted] = true ->
    get_next_pending_task (queue s) = Some task ->
    path_exists w (file_path task) = true ->
    In h (history s) ->
    UploadHistory.file_fingerprint h
      = str_of_Z (file_size task) ++ ustr "_" ++ str_of_Z (file_mtime task) ->
    UploadHistory.file_size h = file_size task ->
    fst (Processor.process_one_task w s) = inr true
    /\ (exists row, get (id task) (queue (after w s)) = Some row
                    /\ status row = Completed)
    /\ transfers (trace (after w s)) = transfers (trace s).
Proof.
  intros w s task h Hidle Hpk Hq Hnext Hex Hin Hfp Hsz.
  quiet_facts Hq.
  assert (UploadHistory.is_uploaded (Processor.fingerprint task)
            (file_size task) (history s) = true) as Hup.
  { apply is_uploaded_true. exists h. auto. }
  destruct (get_next_pending_task_some _ _ Hnext) as (Hint & _).
  unfold_processor. follow.
  split; [reflexivity|]. split; [|reflexivity].
  task_row Hpk Hint. eexists. split; reflexivity.
Qed.

(** C5, amended: when the source file of the fetched task is gone, the
    pass returns [True]; the task is Failed with its retry count as it
    was and the fixed message ["文件不存在"]; nothing is transferred,
    nothing is added to the history, and the task is not fetched again. *)
Theorem C5_missing_source_fails_without_retry :
  forall (w : World) (s : State) (task : Row),
    is_processing s = false ->
    primary_key (queue s) = true ->
    quiet w [OpGetNextPending; OpMarkProcessing; OpPathExists;
             OpMarkFailed] = true ->
    get_next_pending_task (queue s) = Some task ->
    path_exists w (file_path task) = false ->
    fst (Processor.process_one_task w s) = inr true
    /\ (exists row, get (id task) (queue (after w s)) = Some row
                    /\ status row = Failed
                    /\ retry_count row = retry_count task
                    /\ error_message row = Some (ustr "文件不存在")
                    /\ created_at row = created_at task)
    /\ transfers (trace (after w s)) = transfers (trace s)
    /\ history (after w s) = history s
    /\ (forall r, get_next_pending_task (queue (after w s)) = Some r ->
                  id r <> id task).
Proof.
  intros w s task Hidle Hpk Hq Hnext Hex.
  quiet_facts Hq.
  destruct (get_next_pending_task_some _ _ Hnext) as (Hint & _).
  assert (exists row, get (id task) (queue (after w s)) = Some row
                    /\ status row = Failed
                    /\ retry_count row = retry_count task
                    /\ error_message row = Some (ustr "文件不存在")
                    /\ created_at row = created_at task) as Hrow.
  { unfold_processor. follow. task_row Hpk Hint.
    eexists. repeat split; reflexivity. }
  assert (primary_key (queue (after w s)) = true) as Hpk'.
  { unfold_processor. follow.
    unfold mark_as_failed, mark_as_processing.
    rewrite !primary_key_update by (intros; reflexivity). exact Hpk. }
  split; [unfold_processor; follow; reflexivity|].
  split; [exact Hrow|].
  split; [unfold_processor; follow; reflexivity|].
  split; [unfold_processor; follow; reflexivity|].
  intros r Hr Hid.
  destruct (get_next_pending_task_some _ _ Hr) as (Hinr & Hst & _).
  pose proof (primary_key_get _ _ Hpk' Hinr) as Hg.
  destruct Hrow as (row & Hg' & Hf & _).
  rewrite Hid, Hg' in Hg. injection Hg as ->. congruence.
Qed.

(** C9: on the history shortcut the task's row changes in [status] and
    [updated_at] only, the other rows not at all, the history is left as
    it was and no deletion or transfer is recorded, whatever
    [delete_source] says; and whenever a pass does add to the history or
    record a deletion, it is a pass whose transfer succeeded. *)
Theorem C9_shortcut_writes_status_only :
  forall (w : World) (s : State),
    (forall task : Row,
        is_processing s = false ->
        primary_key (queue s) = true ->
        quiet w [OpGetNextPending; OpMarkProcessing; OpPathExists;
                 OpIsUploaded; OpMarkCompleted] = true ->
        get_next_pending_task (queue s) = Some task ->
        path_exists w (file_path task) = true ->
        UploadHistory.is_uploaded (Processor.fingerprint task)
          (file_size task) (history s) = true ->
        history (after w s) = history s
        /\ deletions (trace (after w s)) = deletions (trace s)
        /\ transfers (trace (after w s)) = transfers (trace s)
        /\ (exists row,
              get (id task) (queue (after w s)) = Some row
              /\ status row = Completed
              /\ updated_at row = now w OpMarkCompleted
              /\ same_but_status task row)
        /\ (forall j, j <> id task ->
                      get j (queue (after w s)) = get j (queue s)))
    /\ (history (after w s) <> history s
        \/ deletions (trace (after w s)) <> deletions (trace s) ->
        exists task : Row,
          is_processing s = false
          /\ get_next_pending_task (queue s) = Some task
          /\ path_exists w (file_path task) = true
          /\ UploadHistory.is_uploaded (Processor.fingerprint task)
               (file_size task) (history s) = false
          /\ fst (snd (Processor._execute_task w task)) = true).
Proof.
  intros w s. split.
  - intros task Hidle Hpk Hq Hnext Hex Hup.
    quiet_facts Hq.
    destruct (get_next_pending_task_some _ _ Hnext) as (Hint & _).
    unfold_processor. follow.
    split; [reflexivity|]. split; [reflexivity|]. split; [reflexivity|].
    split.
    + task_row Hpk Hint. eexists. split; [reflexivity|].
      unfold same_but_status. simpl. repeat split; reflexivity.
    + intros j Hj. unfold mark_as_completed, mark_as_processing.
      rewrite !get_update_other by (auto; intros; reflexivity).
      reflexivity.
  - unfold_processor.
    destruct (is_processing s) eqn:Hidle; simpl.
    + intros [H | H]; exfalso; apply H; reflexivity.
    + walk; trace_simpl; intros [H | H];
        try (exfalso; apply H; reflexivity);
        eexists; repeat split; eauto.
Qed.

(** ** First in, first out *)

Lemma process_one_task_frame (w : World) (s : State) (j : Z) :
  (forall task, get_next_pending_task (queue s) = Some task ->
                id task <> j) ->
  get j (queue (after w s)) = get j (queue s).
Proof.
  unfold_processor.
  destruct (is_processing s) eqn:Hidle; simpl; [reflexivity|].
  walk; trace_simpl; intros H; try reflexivity;
    unfold mark_as_processing, mark_as_completed, mark_as_failed,
      mark_as_pending_retry;
    rewrite !get_update_other
      by (try (apply H; reflexivity); intros; reflexivity);
    reflexivity.
Qed.

(** C4: [get_next_pending_task] returns nothing exactly when no row is
    pending; what it returns is a pending row of the table with the least
    [created_at] among the pending rows; of two pending rows the one
    created later is never the one returned, in whatever order the rows
    lie in the table, and a pass of the processor leaves that later row
    as it is. *)
Theorem C4_oldest_pending_first :
  forall (t : Table),
    (get_next_pending_task t = None <->
       forall r, In r t -> status r <> Pending)
    /\ (forall r, get_next_pending_task t = Some r ->
          In r t /\ status r = Pending
          /\ forall x, In x t -> status x = Pending ->
                       created_at r <= created_at x)
    /\ (forall a b, In a t -> In b t ->
          status a = Pending -> status b = Pending ->
          created_at a < created_at b ->
          get_next_pending_task t <> Some b)
    /\ (forall t', Permutation t t' ->
          option_map created_at (get_next_pending_task t')
          = option_map created_at (get_next_pending_task t))
    /\ (forall (w : World) (s : State) (a b : Row),
          queue s = t -> primary_key t = true ->
          In a t -> In b t ->
          status a = Pending -> status b = Pending ->
          created_at a < created_at b ->
          get (id b) (queue (after w s)) = Some b).
Proof.
  intros t.
  assert (forall a b, In a t -> In b t ->
          status a = Pending -> status b = Pending ->
          created_at a < created_at b ->
          get_next_pending_task t <> Some b) as Hlater.
  { intros a b Ha Hb Sa Sb Hlt Hnext.
    destruct (get_next_pending_task_some _ _ Hnext) as (_ & _ & Hmin).
    specialize (Hmin a Ha Sa). lia. }
  split; [apply get_next_pending_task_none|].
  split; [apply get_next_pending_task_some|].
  split; [exact Hlater|].
  split.
  - intros t' Hperm.
    destruct (get_next_pending_task t) as [r|] eqn:E;
      destruct (get_next_pending_task t') as [r'|] eqn:E'; simpl; auto.
    + destruct (get_next_pending_task_some _ _ E) as (Hin & Hst & Hmin).
      destruct (get_next_pending_task_some _ _ E') as (Hin' & Hst' & Hmin').
      assert (created_at r <= created_at r')
        by (apply Hmin; auto;
            apply (Permutation_in _ (Permutation_sym Hperm)); auto).
      assert (created_at r' <= created_at r)
        by (apply Hmin'; auto; apply (Permutation_in _ Hperm); auto).
      f_equal. lia.
    + destruct (get_next_pending_task_some _ _ E) as (Hin & Hst & _).
      exfalso. apply (proj1 (get_next_pending_task_none t') E' r); auto.
      apply (Permutation_in _ Hperm); auto.
    + destruct (get_next_pending_task_some _ _ E') as (Hin' & Hst' & _).
      exfalso. apply (proj1 (get_next_pending_task_none t) E r'); auto.
      apply (Permutation_in _ (Permutation_sym Hperm)); auto.
  - intros w s a b Hq Hpk Ha Hb Sa Sb Hlt.
    rewrite process_one_task_frame.
    + rewrite Hq. now apply primary_key_get.
    + rewrite Hq. intros task Hnext Hid.
      destruct (get_next_pending_task_some _ _ Hnext) as (Hin & _).
      pose proof (primary_key_get _ _ Hpk Hin) as G1.
      pose proof (primary_key_get _ _ Hpk Hb) as G2.
      rewrite Hid, G2 in G1. injection G1 as ->.
      now apply (Hlater a task).
Qed.

(** ** Recovery *)

Lemma has_status_reset (ts : Z) (st : Status) (a : Row) :
  has_status st
    (if has_status Processing a then values_status Pending ts a else a)
  = if has_status Processing a then status_eqb Pending st
    else has_status st a.
Proof. destruct (has_status Processing a); reflexivity. Qed.

Lemma count_cons (st : Status) (a : Row) (t : Table) :
  count st (a :: t) = (if has_status st a then 1 else 0) + count st t.
Proof.
  unfold count. cbn [filter].
  destruct (has_status st a); cbn [List.length];
    rewrite ?Nat2Z.inj_succ; lia.
Qed.

Lemma count_reset (ts : Z) (t : Table) (st : Status) :
  count st (update_where (has_status Processing) (values_status Pending ts) t)
  = match st with
    | Processing => 0
    | Pending => count Pending t + count Processing t
    | _ => count st t
    end.
Proof.
  unfold update_where.
  induction t as [|a t IH]; [destruct st; reflexivity|].
  cbn [map]. rewrite !count_cons, has_status_reset, IH.
  unfold has_status.
  destruct st; destruct (status a); cbn [status_eqb]; lia.
Qed.

(** C6: [reset_processing_tasks] returns the number of Processing rows;
    afterwards no row is Processing, each row that was is Pending with
    only [status] and [updated_at] rewritten, every other row is as it
    was, and with no Processing row the count is 0 and the table
    unchanged. *)
Theorem C6_reset_moves_exactly_processing_rows :
  forall (ts : Z) (t : Table),
    fst (reset_processing_tasks ts t) = count Processing t
    /\ count Processing (snd (reset_processing_tasks ts t)) = 0
    /\ count Pending (snd (reset_processing_tasks ts t))
       = count Pending t + count Processing t
    /\ count Completed (snd (reset_processing_tasks ts t))
       = count Completed t
    /\ count Failed (snd (reset_processing_tasks ts t)) = count Failed t
    /\ List.length (snd (reset_processing_tasks ts t)) = List.length t
    /\ (forall (i : nat) (row : Row),
          nth_error t i = Some row ->
          (status row = Processing ->
             exists row',
               nth_error (snd (reset_processing_tasks ts t)) i = Some row'
               /\ status row' = Pending /\ updated_at row' = ts
               /\ same_but_status row row')
          /\ (status row <> Processing ->
              nth_error (snd (reset_processing_tasks ts t)) i = Some row))
    /\ (count Processing t = 0 ->
        fst (reset_processing_tasks ts t) = 0
        /\ snd (reset_processing_tasks ts t) = t).
Proof.
  intros ts t. unfold reset_processing_tasks. simpl.
  split; [reflexivity|].
  split; [apply (count_reset ts t Processing)|].
  split; [apply (count_reset ts t Pending)|].
  split; [apply (count_reset ts t Completed)|].
  split; [apply (count_reset ts t Failed)|].
  split; [apply update_where_length|].
  split.
  - intros i row Hi. unfold update_where. rewrite nth_error_map, Hi. simpl.
    split.
    + intros Hst. apply has_status_true in Hst. rewrite Hst.
      eexists. split; [reflexivity|].
      unfold same_but_status. simpl. repeat split; reflexivity.
    + intros Hst. apply has_status_false in Hst. now rewrite Hst.
  - intros Hnone. split; [exact Hnone|].
    unfold update_where.
    induction t as [|a t IH]; simpl; [reflexivity|].
    rewrite count_cons in Hnone.
    assert (0 <= count Processing t) as Hpos
      by (unfold count; lia).
    destruct (has_status Processing a); [lia|].
    f_equal. apply IH. lia.
Qed.

(** ** Extension lists *)

Lemma split_nonempty (sep : N) (s : pystr) : split sep s <> [].
Proof.
  destruct s as [|c s]; simpl; [discriminate|].
  destruct (c =? sep)%N; [discriminate|].
  destruct (split sep s); discriminate.
Qed.

Lemma split_at_sep (sep : N) (a b : pystr) :
  split sep (a ++ sep :: b) = split sep a ++ split sep b.
Proof.
  induction a as [|c a IH]; simpl.
  - now rewrite N.eqb_refl.
  - destruct (c =? sep)%N; [now rewrite IH|].
    rewrite IH. pose proof (split_nonempty sep a) as Hne.
    destruct (split sep a); [contradiction | reflexivity].
Qed.

Lemma split_no_sep (sep : N) (e : pystr) :
  ~ In sep e -> split sep e = [e].
Proof.
  induction e as [|c e IH]; simpl; [reflexivity|].
  intros Hn. destruct (c =? sep)%N eqn:E.
  - apply N.eqb_eq in E. exfalso. apply Hn. now left.
  - rewrite IH; [reflexivity|]. intros H. apply Hn. now right.
Qed.

Lemma replace1_id (old new : N) (e : pystr) :
  ~ In old e -> replace1 old new e = e.
Proof.
  unfold replace1. induction e as [|c e IH]; simpl; [reflexivity|].
  intros Hn. destruct (c =? old)%N eqn:E.
  - apply N.eqb_eq in E. exfalso. apply Hn. now left.
  - rewrite IH; [reflexivity|]. intros H. apply Hn. now right.
Qed.

Lemma parse_exts_at_delimiter (d : N) (a b : pystr) :
  d = comma \/ d = fullwidth_comma ->
  Monitor.parse_exts (a ++ [d] ++ b)
  = Monitor.parse_exts a ++ Monitor.parse_exts b.
Proof.
  intros Hd. unfold Monitor.parse_exts, replace1.
  rewrite !map_app. simpl.
  assert ((if (d =? fullwidth_comma)%N then comma else d) = comma) as ->.
  { destruct Hd as [-> | ->]; reflexivity. }
  now rewrite split_at_sep, map_app.
Qed.

(** The lower case of a string holds no upper-case ASCII letter. *)
Lemma lower_from_no_upper (u : CaseTable) (before s : pystr) (x : N) :
  In x (lower_from u before s) -> is_upper x = false.
Proof.
  revert before. induction s as [|c after IH]; intros before; simpl;
    [contradiction|].
  intros Hin. apply in_app_or in Hin. destruct Hin as [Hin | Hin];
    [|now apply (IH (c :: before))].
  destruct (c <? 128)%N eqn:E.
  - destruct Hin as [<- | []]. unfold is_upper, lower_cp.
    destruct ((65 <=? c) && (c <=? 90))%N eqn:Eu; [|exact Eu].
    apply andb_true_iff in Eu. destruct Eu as [E1 E2].
    apply N.leb_le in E1, E2.
    destruct (N.leb_spec (c + 32) 90); [lia|]. apply andb_false_r.
  - apply N.ltb_ge in E.
    destruct (to_lower_plain u before c after E) as [_ Hp].
    rewrite forallb_forall in Hp. specialize (Hp x Hin).
    unfold plain in Hp. apply andb_true_iff in Hp.
    now apply negb_true_iff, Hp.
Qed.

(** The lower case of a string that starts with another code point than
    the full stop starts with another code point than the full stop. *)
Lemma lower_from_head (u : CaseTable) (before : pystr) (c : N)
    (after : pystr) :
  c <> dot ->
  exists x t, lower_from u before (c :: after) = x :: t /\ x <> dot.
Proof.
  intros Hc. simpl. destruct (c <? 128)%N eqn:E.
  - exists (lower_cp c), (lower_from u (c :: before) after).
    split; [reflexivity|]. intros Hx. apply Hc.
    pose proof (lower_cp_fixed c dot ltac:(unfold dot; lia)) as Hfix.
    rewrite Hx, N.eqb_refl in Hfix. symmetry in Hfix.
    now apply N.eqb_eq in Hfix.
  - apply N.ltb_ge in E.
    destruct (to_lower_plain u before c after E) as [Hne Hp].
    destruct (to_lower u before c after) as [|h tl]; [contradiction|].
    exists h, (tl ++ lower_from u (c :: before) after).
    split; [reflexivity|]. simpl in Hp. apply andb_true_iff in Hp.
    destruct Hp as [Hp _]. unfold plain in Hp.
    apply andb_true_iff in Hp. destruct Hp as [Hp _].
    apply negb_true_iff in Hp. now apply N.eqb_neq in Hp.
Qed.

Lemma file_suffix_no_upper (w : World) (path entry : pystr) :
  existsb is_upper entry = true -> Monitor.file_suffix w path <> entry.
Proof.
  intros Hup Heq. apply existsb_exists in Hup.
  destruct Hup as (x & Hin & Hx). rewrite <- Heq in Hin.
  unfold Monitor.file_suffix, lower in Hin.
  apply lower_from_no_upper in Hin. congruence.
Qed.

(** C7, the code against the claim: the extension lists are cut at ASCII
    and full-width commas alike, and each piece, stripped, gets a leading
    dot.  The suffix of the file is lower-cased and looked up among the
    entries as they are written: found in the upload list, the file is an
    upload (or dropped when no remote destination is configured),
    whatever the copy list holds; else found in the copy list, it is a
    copy (or dropped when no local destination is configured); else it is
    dropped.  The entries are not lower-cased: an entry that holds an
    upper-case ASCII letter is the lower-cased suffix of no file, and
    lists of such entries classify nothing.  With the upload list [MKV]
    neither [a.MKV] nor [a.mkv] is enqueued; with the list [mkv] both
    are, as uploads. *)
Theorem C7_upper_case_entry_matches_no_file :
  (forall a b : pystr,
      Monitor.parse_exts (a ++ [fullwidth_comma] ++ b)
      = Monitor.parse_exts a ++ Monitor.parse_exts b
      /\ Monitor.parse_exts (a ++ [comma] ++ b)
         = Monitor.parse_exts a ++ Monitor.parse_exts b)
  /\ (forall e : pystr,
        ~ In comma e -> ~ In fullwidth_comma e ->
        Monitor.parse_exts e = [dot :: strip e])
  /\ (forall (cfg x : pystr),
        In x (Monitor.parse_exts cfg) -> exists e, x = dot :: strip e)
  /\ (forall (w : World)
             (path upload_cfg copy_cfg dest_remote dest_local : pystr),
        In (lower (case_table w) (suffix path))
           (Monitor.parse_exts upload_cfg) ->
        Monitor.classify (Monitor.file_suffix w path)
          (Monitor.parse_exts upload_cfg) (Monitor.parse_exts copy_cfg)
          dest_remote dest_local
        = if truthy dest_remote then Some (ustr "upload") else None)
  /\ (forall (w : World)
             (path upload_cfg copy_cfg dest_remote dest_local : pystr),
        ~ In (lower (case_table w) (suffix path))
             (Monitor.parse_exts upload_cfg) ->
        In (lower (case_table w) (suffix path))
           (Monitor.parse_exts copy_cfg) ->
        Monitor.classify (Monitor.file_suffix w path)
          (Monitor.parse_exts upload_cfg) (Monitor.parse_exts copy_cfg)
          dest_remote dest_local
        = if truthy dest_local then Some (ustr "copy") else None)
  /\ (forall (w : World)
             (path upload_cfg copy_cfg dest_remote dest_local : pystr),
        ~ In (lower (case_table w) (suffix path))
             (Monitor.parse_exts upload_cfg) ->
        ~ In (lower (case_table w) (suffix path))
             (Monitor.parse_exts copy_cfg) ->
        Monitor.classify (Monitor.file_suffix w path)
          (Monitor.parse_exts upload_cfg) (Monitor.parse_exts copy_cfg)
          dest_remote dest_local
        = None)
  /\ (forall (w : World) (path entry : pystr),
        existsb is_upper entry = true ->
        lower (case_table w) (suffix path) <> entry)
  /\ (forall (w : World)
             (path upload_cfg copy_cfg dest_remote dest_local : pystr),
        (forall x, In x (Monitor.parse_exts upload_cfg) ->
                   existsb is_upper x = true) ->
        (forall x, In x (Monitor.parse_exts copy_cfg) ->
                   existsb is_upper x = true) ->
        Monitor.classify (Monitor.file_suffix w path)
          (Monitor.parse_exts upload_cfg) (Monitor.parse_exts copy_cfg)
          dest_remote dest_local
        = None)
  /\ (suffix (ustr "/mon/a.MKV") = ustr ".MKV"
      /\ Monitor.parse_exts (config_uploadext world_upper) = [ustr ".MKV"]
      /\ queue (enqueued world_upper (ustr "/mon/a.MKV") (ustr "/mon")
                  (idle [] [])) = []
      /\ queue (enqueued world_upper (ustr "/mon/a.mkv") (ustr "/mon")
                  (idle [] [])) = []
      /\ map operation_type
           (queue (enqueued world_ok (ustr "/mon/a.MKV") (ustr "/mon")
                     (idle [] []))) = [ustr "upload"]
      /\ map operation_type
           (queue (enqueued world_ok (ustr "/mon/a.mkv") (ustr "/mon")
                     (idle [] []))) = [ustr "upload"]).
Proof.
  assert (forall (x : pystr) (l : list pystr), ~ In x l -> mem x l = false)
    as Hmem.
  { intros x l Hn. destruct (mem x l) eqn:E; [|reflexivity].
    apply mem_In in E. contradiction. }
  split.
  { intros a b. split; apply parse_exts_at_delimiter; auto. }
  split.
  { intros e Hc Hf. unfold Monitor.parse_exts.
    rewrite (replace1_id _ _ _ Hf), (split_no_sep _ _ Hc). reflexivity. }
  split.
  { intros cfg x Hin. unfold Monitor.parse_exts in Hin.
    apply in_map_iff in Hin. destruct Hin as (e & <- & _). now exists e. }
  split.
  { intros w path u c dr dl Hin.
    unfold Monitor.classify, Monitor.file_suffix.
    apply mem_In in Hin. rewrite Hin. now destruct (truthy dr). }
  split.
  { intros w path u c dr dl Hnu Hin.
    unfold Monitor.classify, Monitor.file_suffix.
    apply mem_In in Hin. rewrite Hin, (Hmem _ _ Hnu).
    now destruct (truthy dl). }
  split.
  { intros w path u c dr dl Hnu Hnc.
    unfold Monitor.classify, Monitor.file_suffix.
    now rewrite (Hmem _ _ Hnu), (Hmem _ _ Hnc). }
  split.
  { intros w path entry. apply file_suffix_no_upper. }
  split.
  { intros w path u c dr dl Hu Hc. unfold Monitor.classify.
    rewrite !Hmem; [reflexivity| |].
    - intros Hin. exact (file_suffix_no_upper w path _ (Hc _ Hin) eq_refl).
    - intros Hin. exact (file_suffix_no_upper w path _ (Hu _ Hin) eq_refl). }
  repeat split; vm_compute; reflexivity.
Qed.

(** ** The enqueuer never raises *)

Lemma is_file_stable_returns (w : World) (p : pystr) (s : State) :
  exists b, fst (Monitor.is_file_stable w p s) = inr b.
Proof.
  unfold Monitor.is_file_stable, try_except, bind, emit, ret, raise.
  destruct (sample1 w p); simpl; try (eexists; reflexivity).
  destruct (sample2 w p); simpl; eexists; reflexivity.
Qed.

Lemma is_file_stable_frame (w : World) (p : pystr) (s : State) :
  queue (snd (Monitor.is_file_stable w p s)) = queue s
  /\ history (snd (Monitor.is_file_stable w p s)) = history s
  /\ is_processing (snd (Monitor.is_file_stable w p s)) = is_processing s.
Proof.
  unfold Monitor.is_file_stable, try_except, bind, emit, ret, raise.
  destruct (sample1 w p); simpl; auto.
  destruct (sample2 w p); simpl; auto.
Qed.

(** Case analysis along the early returns of [enqueue_file]. *)
Ltac walk_enqueue :=
  repeat (simpl;
    match goal with
    | |- context [match fault ?w ?op with _ => _ end] =>
        destruct (fault w op) eqn:?
    | |- context [Monitor.is_file_stable ?w ?p ?s0] =>
        let Hf := fresh "Hf" in
        let Hr := fresh "Hr" in
        pose proof (is_file_stable_frame w p s0) as Hf;
        destruct (is_file_stable_returns w p s0) as [? Hr];
        destruct (Monitor.is_file_stable w p s0) as [? ?];
        simpl in Hf, Hr; subst
    | |- context [if ?b then _ else _] => destruct b eqn:?
    | |- context [match Monitor.match_config ?a ?b with _ => _ end] =>
        destruct (Monitor.match_config a b) eqn:?
    | |- context [match Monitor.classify ?a ?b ?c ?d ?e with _ => _ end] =>
        destruct (Monitor.classify a b c d e) eqn:?
    | |- context [match create_task ?a ?b ?c ?d ?e ?f ?g ?h ?i ?j ?k
                  with _ => _ end] =>
        destruct (create_task a b c d e f g h i j k) eqn:?
    end).

(** A block that raises has written to neither table. *)
Lemma enqueue_body_raise_frame (w : World) (event_path mon_path : pystr)
    (s : State) (e : Exn) (s1 : State) :
  Monitor.enqueue_body w event_path mon_path s = (inl e, s1) ->
  queue s1 = queue s /\ history s1 = history s.
Proof.
  unfold Monitor.enqueue_body, bind, query, ret, Monitor.create_task_stmt.
  walk_enqueue;
    intros Heq; try discriminate Heq; inversion Heq; subst; tauto.
Qed.

(** C10: [enqueue_file] returns normally in every world, for every path
    and monitor root and from every state; when its guarded block raises,
    at whichever step, nothing was written to the tables and the state is
    the one the block left plus one error line that carries the message
    of the exception; the stability check inside it never raises
    either. *)
Theorem C10_enqueue_file_never_raises :
  forall (w : World) (event_path mon_path : pystr) (s : State),
    fst (Monitor.enqueue_file w event_path mon_path s) = inr tt
    /\ (forall (e : Exn) (s1 : State),
          Monitor.enqueue_body w event_path mon_path s = (inl e, s1) ->
          snd (Monitor.enqueue_file w event_path mon_path s)
          = record_event
              (EvLogError (ustr "【目录上传】入队异常: " ++ name event_path
                           ++ ustr " | " ++ exn_msg e)) s1
          /\ queue s1 = queue s /\ history s1 = history s)
    /\ (forall s0, exists b,
          fst (Monitor.is_file_stable w event_path s0) = inr b).
Proof.
  intros w event_path mon_path s.
  unfold Monitor.enqueue_file, try_except, Monitor.enqueue_handler, emit.
  split; [|split].
  - destruct (Monitor.enqueue_body w event_path mon_path s) as [[e|[]] s1];
      reflexivity.
  - intros e s1 H. split; [rewrite H; reflexivity|].
    now apply (enqueue_body_raise_frame w event_path mon_path s e s1).
  - intros s0. apply is_file_stable_returns.
Qed.

(* ================================================================== *)
(** * The statements at sample data *)
(* ================================================================== *)

(** C1 on the sample movie: one failing pass, then three in a row with
    three different messages. *)
Lemma C1_witness :
  (failed_pass (world_failing (ustr "boom")) (idle [movie; subtitles] [])
     1 (ustr "boom") = true
   /\ exists task row,
        get 1 (queue (idle [movie; subtitles] [])) = Some task
        /\ get 1 (queue (after (world_failing (ustr "boom"))
                           (idle [movie; subtitles] []))) = Some row
        /\ retry_count row = retry_count task + 1
        /\ created_at row = created_at task
        /\ (retry_count task + 1 < 3 -> status row = Pending)
        /\ (3 <= retry_count task + 1 ->
            status row = Failed /\ error_message row = Some (ustr "boom")))
  /\ (let w1 := world_failing (ustr "first") in
      let w2 := world_failing (ustr "second") in
      let w3 := world_failing (ustr "third") in
      let s0 := idle [movie; subtitles] [] in
      failed_pass w1 s0 1 (ustr "first") = true
      /\ failed_pass w2 (after w1 s0) 1 (ustr "second") = true
      /\ failed_pass w3 (after w2 (after w1 s0)) 1 (ustr "third") = true
      /\ option_map retry_count (get 1 (queue s0)) = Some 0
      /\ option_map retry_count (get 1 (queue (after w1 s0))) = Some 1
      /\ option_map status (get 1 (queue (after w1 s0))) = Some Pending
      /\ option_map retry_count (get 1 (queue (after w2 (after w1 s0))))
         = Some 2
      /\ option_map status (get 1 (queue (after w2 (after w1 s0))))
         = Some Pending
      /\ option_map retry_count
           (get 1 (queue (after w3 (after w2 (after w1 s0))))) = Some 3
      /\ option_map status
           (get 1 (queue (after w3 (after w2 (after w1 s0))))) = Some Failed
      /\ option_map error_message
           (get 1 (queue (after w3 (after w2 (after w1 s0)))))
         = Some (Some (ustr "third"))
      /\ option_map created_at
           (get 1 (queue (after w3 (after w2 (after w1 s0)))))
         = option_map created_at (get 1 (queue s0))).
Proof.
  split.
  - split; [vm_compute; reflexivity|].
    apply (proj1 C1_retry_then_fail_after_three
             (world_failing (ustr "boom")) (idle [movie; subtitles] [])
             1 (ustr "boom")).
    vm_compute; reflexivity.
  - split; [vm_compute; reflexivity|].
    split; [vm_compute; reflexivity|].
    split; [vm_compute; reflexivity|].
    split; [vm_compute; reflexivity|].
    apply (proj2 C1_retry_then_fail_after_three
             (world_failing (ustr "first")) (world_failing (ustr "second"))
             (world_failing (ustr "third")) (idle [movie; subtitles] [])
             1 (ustr "first") (ustr "second") (ustr "third"));
      vm_compute; reflexivity.
Defined.

(** C2 as stated fails: the movie's fingerprint and size are in the
    history, its file is gone, and the pass leaves it Failed, not
    Completed. *)
Lemma C2_counterexample :
  get_next_pending_task (queue (idle [movie] [movie_done])) = Some movie
  /\ In movie_done (history (idle [movie] [movie_done]))
  /\ UploadHistory.file_fingerprint movie_done
     = str_of_Z (file_size movie) ++ ustr "_" ++ str_of_Z (file_mtime movie)
  /\ UploadHistory.file_size movie_done = file_size movie
  /\ option_map status
       (get 1 (queue (after world_missing (idle [movie] [movie_done]))))
     = Some Failed
  /\ option_map status
       (get 1 (queue (after world_missing (idle [movie] [movie_done]))))
     <> Some Completed.
Proof.
  split; [vm_compute; reflexivity|].
  split; [left; reflexivity|].
  split; [vm_compute; reflexivity|].
  split; [reflexivity|].
  split; [vm_compute; reflexivity|].
  vm_compute. discriminate.
Defined.

Lemma C2_witness :
  is_processing (idle [movie] [movie_done]) = false
  /\ primary_key (queue (idle [movie] [movie_done])) = true
  /\ quiet world_ok [OpGetNextPending; OpMarkProcessing; OpPathExists;
                     OpIsUploaded; OpMarkCompleted] = true
  /\ get_next_pending_task (queue (idle [movie] [movie_done])) = Some movie
  /\ path_exists world_ok (file_path movie) = true
  /\ In movie_done (history (idle [movie] [movie_done]))
  /\ UploadHistory.file_fingerprint movie_done
     = str_of_Z (file_size movie) ++ ustr "_" ++ str_of_Z (file_mtime movie)
  /\ UploadHistory.file_size movie_done = file_size movie
  /\ fst (Processor.process_one_task world_ok (idle [movie] [movie_done]))
     = inr true
  /\ (exists row,
        get (id movie) (queue (after world_ok (idle [movie] [movie_done])))
        = Some row /\ status row = Completed)
  /\ transfers (trace (after world_ok (idle [movie] [movie_done])))
     = transfers (trace (idle [movie] [movie_done])).
Proof.
  split; [reflexivity|]. split; [reflexivity|]. split; [reflexivity|].
  split; [vm_compute; reflexivity|]. split; [reflexivity|].
  split; [left; reflexivity|].
  split; [vm_compute; reflexivity|]. split; [reflexivity|].
  apply (C2_history_shortcut_completes_without_transfer
           world_ok (idle [movie] [movie_done]) movie movie_done);
    try reflexivity; try (vm_compute; reflexivity).
  left; reflexivity.
Defined.

(** C3 on the sample movie: the busy call, a pass that a fault ends
    after the claim, and a pass that uploads with the flag set. *)
Lemma C3_witness :
  (is_processing (busy [movie] []) = true
   /\ Processor.process_one_task world_ok (busy [movie] [])
      = (inr false, busy [movie] []))
  /\ (is_processing (idle [movie] []) = false
      /\ (exists b,
            fst (Processor.process_one_task (world_fault OpIsUploaded)
                   (idle [movie] [])) = inr b)
      /\ is_processing (after (world_fault OpIsUploaded) (idle [movie] []))
         = false
      /\ (forall e,
            In e (trace (after (world_fault OpIsUploaded)
                           (idle [movie] []))) ->
            In e (trace (idle [movie] [])) \/ fst e = true))
  /\ (quiet world_ok [OpGetNextPending; OpMarkProcessing; OpPathExists;
                      OpIsUploaded] = true
      /\ get_next_pending_task (queue (idle [movie] [])) = Some movie
      /\ path_exists world_ok (file_path movie) = true
      /\ UploadHistory.is_uploaded (Processor.fingerprint movie)
           (file_size movie) (history (idle [movie] [])) = false
      /\ In (EvUpload 1) (fst (Processor._execute_task world_ok movie))
      /\ In (true, EvUpload 1) (trace (after world_ok (idle [movie] []))))
  /\ (fault (world_fault OpGetNextPending) OpGetNextPending = Some locked
      /\ trace (after (world_fault OpGetNextPending) (idle [movie] []))
         = (true, EvLogError (Processor.fault_line locked))
             :: trace (idle [movie] [])).
Proof.
  split.
  - split; [reflexivity|].
    apply (proj1 (C3_busy_flag_single_flight world_ok (busy [movie] []))).
    reflexivity.
  - destruct (proj2 (proj2 (C3_busy_flag_single_flight
                              (world_fault OpIsUploaded) (idle [movie] [])))
                eq_refl) as (Hb & Hf & He & _).
    split; [repeat split; assumption|].
    destruct (proj2 (proj2 (C3_busy_flag_single_flight
                              world_ok (idle [movie] []))) eq_refl)
      as (_ & _ & _ & _ & _ & _ & _ & Hev & _).
    destruct (proj2 (proj2 (C3_busy_flag_single_flight
                              (world_fault OpGetNextPending)
                              (idle [movie] []))) eq_refl)
      as (_ & _ & _ & _ & _ & _ & _ & _ & Hfault).
    split.
    + assert (In (EvUpload 1)
                 (fst (Processor._execute_task world_ok movie))) as Hin
        by (left; reflexivity).
      split; [reflexivity|]. split; [vm_compute; reflexivity|].
      split; [reflexivity|]. split; [reflexivity|].
      split; [exact Hin|].
      apply (Hev movie (EvUpload 1)); try reflexivity;
        try (vm_compute; reflexivity); exact Hin.
    + split; [reflexivity|]. apply Hfault. reflexivity.
Defined.

Lemma C4_witness :
  (get_next_pending_task [subtitles; movie] = Some movie
   /\ In movie [subtitles; movie] /\ status movie = Pending
   /\ forall x, In x [subtitles; movie] -> status x = Pending ->
                created_at movie <= created_at x)
  /\ (created_at movie < created_at subtitles
      /\ get_next_pending_task [subtitles; movie] <> Some subtitles)
  /\ (Permutation [subtitles; movie] [movie; subtitles]
      /\ option_map created_at (get_next_pending_task [movie; subtitles])
         = option_map created_at (get_next_pending_task [subtitles; movie]))
  /\ (primary_key [subtitles; movie] = true
      /\ get (id subtitles)
           (queue (after world_ok (idle [subtitles; movie] [])))
         = Some subtitles).
Proof.
  pose proof (C4_oldest_pending_first [subtitles; movie])
    as (_ & Hsome & Hlater & Hperm & Hpass).
  split.
  - split; [vm_compute; reflexivity|].
    apply Hsome. vm_compute; reflexivity.
  - split.
    + split; [vm_compute; reflexivity|].
      apply (Hlater movie subtitles);
        try reflexivity; simpl; auto; vm_compute; reflexivity.
    + split.
      * split; [apply perm_swap|]. apply Hperm. apply perm_swap.
      * split; [reflexivity|].
        apply (Hpass world_ok (idle [subtitles; movie] []) movie subtitles);
          try reflexivity; simpl; auto; vm_compute; reflexivity.
Defined.

(** C5 as stated fails on the message: what the code stores is its own
    fixed text, not "source missing". *)
Lemma C5_counterexample :
  get_next_pending_task (queue (idle [movie] [])) = Some movie
  /\ path_exists world_missing (file_path movie) = false
  /\ option_map error_message
       (get 1 (queue (after world_missing (idle [movie] []))))
     = Some (Some (ustr "文件不存在"))
  /\ option_map error_message
       (get 1 (queue (after world_missing (idle [movie] []))))
     <> Some (Some (ustr "source missing")).
Proof.
  split; [vm_compute; reflexivity|].
  split; [reflexivity|].
  split; [vm_compute; reflexivity|].
  vm_compute. discriminate.
Defined.

Lemma C5_witness :
  is_processing (idle [movie; subtitles] []) = false
  /\ primary_key (queue (idle [movie; subtitles] [])) = true
  /\ quiet world_missing [OpGetNextPending; OpMarkProcessing; OpPathExists;
                          OpMarkFailed] = true
  /\ get_next_pending_task (queue (idle [movie; subtitles] [])) = Some movie
  /\ path_exists world_missing (file_path movie) = false
  /\ fst (Processor.process_one_task world_missing
            (idle [movie; subtitles] [])) = inr true
  /\ (exists row,
        get (id movie)
          (queue (after world_missing (idle [movie; subtitles] [])))
        = Some row
        /\ status row = Failed
        /\ retry_count row = retry_count movie
        /\ error_message row = Some (ustr "文件不存在")
        /\ created_at row = created_at movie)
  /\ transfers (trace (after world_missing (idle [movie; subtitles] [])))
     = transfers (trace (idle [movie; subtitles] []))
  /\ history (after world_missing (idle [movie; subtitles] []))
     = history (idle [movie; subtitles] [])
  /\ (forall r,
        get_next_pending_task
          (queue (after world_missing (idle [movie; subtitles] []))) = Some r ->
        id r <> id movie).
Proof.
  split; [reflexivity|]. split; [reflexivity|]. split; [reflexivity|].
  split; [vm_compute; reflexivity|]. split; [reflexivity|].
  apply (C5_missing_source_fails_without_retry
           world_missing (idle [movie; subtitles] []) movie);
    try reflexivity; vm_compute; reflexivity.
Defined.

Lemma C6_witness :
  (nth_error [movie_claimed; subtitles] 0 = Some movie_claimed
   /\ status movie_claimed = Processing
   /\ exists row',
        nth_error
          (snd (reset_processing_tasks 1700000200
                  [movie_claimed; subtitles])) 0 = Some row'
        /\ status row' = Pending /\ updated_at row' = 1700000200
        /\ same_but_status movie_claimed row')
  /\ (nth_error [movie_claimed; subtitles] 1 = Some subtitles
      /\ status subtitles <> Processing
      /\ nth_error
           (snd (reset_processing_tasks 1700000200
                   [movie_claimed; subtitles])) 1 = Some subtitles)
  /\ fst (reset_processing_tasks 1700000200 [movie_claimed; subtitles]) = 1
  /\ (count Processing [movie; subtitles] = 0
      /\ fst (reset_processing_tasks 1700000200 [movie; subtitles]) = 0
      /\ snd (reset_processing_tasks 1700000200 [movie; subtitles])
         = [movie; subtitles]).
Proof.
  pose proof (C6_reset_moves_exactly_processing_rows 1700000200
                [movie_claimed; subtitles])
    as (Hcount & _ & _ & _ & _ & _ & Hrows & _).
  pose proof (C6_reset_moves_exactly_processing_rows 1700000200
                [movie; subtitles])
    as (_ & _ & _ & _ & _ & _ & _ & Hnone).
  split.
  - split; [reflexivity|]. split; [reflexivity|].
    apply (proj1 (Hrows 0%nat movie_claimed eq_refl)). reflexivity.
  - split.
    + split; [reflexivity|]. split; [discriminate|].
      apply (proj2 (Hrows 1%nat subtitles eq_refl)). discriminate.
    + split; [rewrite Hcount; reflexivity|].
      split; [reflexivity|]. apply Hnone. reflexivity.
Defined.

(** C7 at sample lists: a list cut at a full-width comma, an upload, a
    copy, a file that is dropped, and the entry [.MKV], which is the
    suffix of [a.MKV] letter for letter and is not its lower-cased
    suffix. *)
Lemma C7_witness :
  (~ In comma (ustr " mkv ") /\ ~ In fullwidth_comma (ustr " mkv ")
   /\ Monitor.parse_exts (ustr " mkv ") = [dot :: strip (ustr " mkv ")])
  /\ (In (ustr ".mp4") (Monitor.parse_exts (ustr "mkv，mp4"))
      /\ exists e, ustr ".mp4" = dot :: strip e)
  /\ (In (lower (case_table world_ok) (suffix (ustr "/mon/a/Movie.MKV")))
         (Monitor.parse_exts (ustr "mkv，mp4"))
      /\ Monitor.classify
           (Monitor.file_suffix world_ok (ustr "/mon/a/Movie.MKV"))
           (Monitor.parse_exts (ustr "mkv，mp4"))
           (Monitor.parse_exts (ustr "srt, mkv"))
           (ustr "/remote") (ustr "/local")
         = if truthy (ustr "/remote") then Some (ustr "upload") else None)
  /\ (~ In (lower (case_table world_ok) (suffix (ustr "/mon/a/Movie.SRT")))
          (Monitor.parse_exts (ustr "mkv，mp4"))
      /\ In (lower (case_table world_ok) (suffix (ustr "/mon/a/Movie.SRT")))
            (Monitor.parse_exts (ustr "srt, ass"))
      /\ Monitor.classify
           (Monitor.file_suffix world_ok (ustr "/mon/a/Movie.SRT"))
           (Monitor.parse_exts (ustr "mkv，mp4"))
           (Monitor.parse_exts (ustr "srt, ass"))
           (ustr "/remote") (ustr "/local")
         = if truthy (ustr "/local") then Some (ustr "copy") else None)
  /\ (~ In (lower (case_table world_ok) (suffix (ustr "/mon/a/notes.txt")))
          (Monitor.parse_exts (ustr "mkv，mp4"))
      /\ ~ In (lower (case_table world_ok) (suffix (ustr "/mon/a/notes.txt")))
              (Monitor.parse_exts (ustr "srt, ass"))
      /\ Monitor.classify
           (Monitor.file_suffix world_ok (ustr "/mon/a/notes.txt"))
           (Monitor.parse_exts (ustr "mkv，mp4"))
           (Monitor.parse_exts (ustr "srt, ass"))
           (ustr "/remote") (ustr "/local") = None)
  /\ (existsb is_upper (ustr ".MKV") = true
      /\ In (suffix (ustr "/mon/a.MKV")) (Monitor.parse_exts (ustr "MKV"))
      /\ lower (case_table world_upper) (suffix (ustr "/mon/a.MKV"))
         <> ustr ".MKV")
  /\ ((forall x, In x (Monitor.parse_exts (ustr "MKV，Mp4")) ->
                 existsb is_upper x = true)
      /\ (forall x, In x (Monitor.parse_exts (ustr "SRT")) ->
                    existsb is_upper x = true)
      /\ Monitor.classify
           (Monitor.file_suffix world_upper (ustr "/mon/a.MKV"))
           (Monitor.parse_exts (ustr "MKV，Mp4"))
           (Monitor.parse_exts (ustr "SRT"))
           (ustr "/remote") (ustr "/local") = None).
Proof.
  pose proof C7_upper_case_entry_matches_no_file
    as (_ & Hone & Hdot & Hup & Hcopy & Hdrop & Hentry & Hlists & _).
  assert (forall (x : pystr) (l : list pystr), mem x l = false -> ~ In x l)
    as Hnot.
  { intros x l H Hin. apply mem_In in Hin. congruence. }
  split.
  { assert (~ In comma (ustr " mkv ")) as H1
      by (vm_compute; intuition discriminate).
    assert (~ In fullwidth_comma (ustr " mkv ")) as H2
      by (vm_compute; intuition discriminate).
    split; [exact H1|]. split; [exact H2|]. now apply Hone. }
  split.
  { assert (In (ustr ".mp4") (Monitor.parse_exts (ustr "mkv，mp4"))) as H
      by (apply mem_In; vm_compute; reflexivity).
    split; [exact H|]. exact (Hdot _ _ H). }
  split.
  { assert (In (lower (case_table world_ok)
                  (suffix (ustr "/mon/a/Movie.MKV")))
              (Monitor.parse_exts (ustr "mkv，mp4"))) as H
      by (apply mem_In; vm_compute; reflexivity).
    split; [exact H|]. now apply Hup. }
  split.
  { assert (~ In (lower (case_table world_ok)
                    (suffix (ustr "/mon/a/Movie.SRT")))
                (Monitor.parse_exts (ustr "mkv，mp4"))) as H1
      by (apply Hnot; vm_compute; reflexivity).
    assert (In (lower (case_table world_ok)
                  (suffix (ustr "/mon/a/Movie.SRT")))
              (Monitor.parse_exts (ustr "srt, ass"))) as H2
      by (apply mem_In; vm_compute; reflexivity).
    split; [exact H1|]. split; [exact H2|]. now apply Hcopy. }
  split.
  { assert (~ In (lower (case_table world_ok)
                    (suffix (ustr "/mon/a/notes.txt")))
                (Monitor.parse_exts (ustr "mkv，mp4"))) as H1
      by (apply Hnot; vm_compute; reflexivity).
    assert (~ In (lower (case_table world_ok)
                    (suffix (ustr "/mon/a/notes.txt")))
                (Monitor.parse_exts (ustr "srt, ass"))) as H2
      by (apply Hnot; vm_compute; reflexivity).
    split; [exact H1|]. split; [exact H2|]. now apply Hdrop. }
  split.
  { assert (existsb is_upper (ustr ".MKV") = true) as H
      by (vm_compute; reflexivity).
    split; [exact H|].
    split; [left; vm_compute; reflexivity|].
    exact (Hentry world_upper (ustr "/mon/a.MKV") (ustr ".MKV") H). }
  assert (forall x, In x (Monitor.parse_exts (ustr "MKV，Mp4")) ->
                    existsb is_upper x = true) as H1.
  { intros x Hx. vm_compute in Hx.
    destruct Hx as [<- | [<- | []]]; vm_compute; reflexivity. }
  assert (forall x, In x (Monitor.parse_exts (ustr "SRT")) ->
                    existsb is_upper x = true) as H2.
  { intros x Hx. vm_compute in Hx.
    destruct Hx as [<- | []]; vm_compute; reflexivity. }
  split; [exact H1|]. split; [exact H2|].
  exact (Hlists world_upper (ustr "/mon/a.MKV") (ustr "MKV，Mp4")
           (ustr "SRT") (ustr "/remote") (ustr "/local") H1 H2).
Defined.

(** C8 at its four outcomes: a task processed, and the three that
    return [False]. *)
Lemma C8_witness :
  (fst (Processor.process_one_task world_ok (idle [movie] [])) = inr true
   /\ is_processing (idle [movie] []) = false
   /\ errors (trace (after world_ok (idle [movie] [])))
      = errors (trace (idle [movie] [])))
  /\ (is_processing (busy [movie] []) = true
      /\ fst (Processor.process_one_task world_ok (busy [movie] []))
         = inr false)
  /\ (is_processing (idle [] []) = false
      /\ fault world_ok OpGetNextPending = None
      /\ get_next_pending_task (queue (idle [] [])) = None
      /\ fst (Processor.process_one_task world_ok (idle [] [])) = inr false)
  /\ (is_processing (idle [movie] []) = false
      /\ errors (trace (after (world_fault OpMarkProcessing)
                          (idle [movie] [])))
         = Processor.fault_line locked :: errors (trace (idle [movie] []))
      /\ fst (Processor.process_one_task (world_fault OpMarkProcessing)
                (idle [movie] [])) = inr false).
Proof.
  split.
  - assert (fst (Processor.process_one_task world_ok (idle [movie] []))
            = inr true) as H by (vm_compute; reflexivity).
    split; [exact H|].
    destruct (proj1 (proj2 (C8_false_conflates_busy_empty_fault
                              world_ok (idle [movie] []))) H)
      as (H1 & H2 & _).
    split; assumption.
  - split.
    + split; [reflexivity|].
      apply (proj2 (proj2 (C8_false_conflates_busy_empty_fault
                             world_ok (busy [movie] [])))).
      left. reflexivity.
    + split.
      * split; [reflexivity|]. split; [reflexivity|].
        split; [reflexivity|].
        apply (proj2 (proj2 (C8_false_conflates_busy_empty_fault
                               world_ok (idle [] [])))).
        right. left. repeat split; reflexivity.
      * assert (errors (trace (after (world_fault OpMarkProcessing)
                                 (idle [movie] [])))
                = Processor.fault_line locked
                    :: errors (trace (idle [movie] []))) as H
          by (vm_compute; reflexivity).
        split; [reflexivity|]. split; [exact H|].
        apply (proj2 (proj2 (C8_false_conflates_busy_empty_fault
                               (world_fault OpMarkProcessing)
                               (idle [movie] [])))).
        right. right. split; [reflexivity|]. exists locked. exact H.
Defined.

(** C9 on a task whose [delete_source] is set, and on a pass whose
    transfer succeeds. *)
Lemma C9_witness :
  (delete_source movie = true
   /\ UploadHistory.is_uploaded (Processor.fingerprint movie)
        (file_size movie) (history (idle [movie; subtitles] [movie_done]))
      = true
   /\ history (after world_ok (idle [movie; subtitles] [movie_done]))
      = history (idle [movie; subtitles] [movie_done])
   /\ deletions (trace (after world_ok (idle [movie; subtitles] [movie_done])))
      = deletions (trace (idle [movie; subtitles] [movie_done]))
   /\ transfers (trace (after world_ok (idle [movie; subtitles] [movie_done])))
      = transfers (trace (idle [movie; subtitles] [movie_done]))
   /\ (exists row,
         get (id movie)
           (queue (after world_ok (idle [movie; subtitles] [movie_done])))
         = Some row
         /\ status row = Completed
         /\ updated_at row = now world_ok OpMarkCompleted
         /\ same_but_status movie row)
   /\ (forall j, j <> id movie ->
         get j (queue (after world_ok (idle [movie; subtitles] [movie_done])))
         = get j (queue (idle [movie; subtitles] [movie_done]))))
  /\ (history (after world_ok (idle [movie] [])) <> history (idle [movie] [])
      /\ exists task : Row,
           is_processing (idle [movie] []) = false
           /\ get_next_pending_task (queue (idle [movie] [])) = Some task
           /\ path_exists world_ok (file_path task) = true
           /\ UploadHistory.is_uploaded (Processor.fingerprint task)
                (file_size task) (history (idle [movie] [])) = false
           /\ fst (snd (Processor._execute_task world_ok task)) = true).
Proof.
  split.
  - split; [reflexivity|]. split; [vm_compute; reflexivity|].
    apply (proj1 (C9_shortcut_writes_status_only world_ok
                    (idle [movie; subtitles] [movie_done])) movie);
      try reflexivity; vm_compute; reflexivity.
  - assert (history (after world_ok (idle [movie] []))
            <> history (idle [movie] [])) as H
      by (vm_compute; discriminate).
    split; [exact H|].
    apply (proj2 (C9_shortcut_writes_status_only world_ok (idle [movie] []))).
    left. exact H.
Defined.

(** C10 when the stat of the file raises: the call returns, the error is
    logged, the tables are as they were. *)
Lemma C10_witness :
  Monitor.enqueue_body (world_fault OpStat) (ustr "/mon/a/movie.mkv")
    (ustr "/mon") (idle [] [])
  = (inl locked, idle [] [])
  /\ fst (Monitor.enqueue_file (world_fault OpStat) (ustr "/mon/a/movie.mkv")
            (ustr "/mon") (idle [] [])) = inr tt
  /\ snd (Monitor.enqueue_file (world_fault OpStat) (ustr "/mon/a/movie.mkv")
            (ustr "/mon") (idle [] []))
     = record_event
         (EvLogError (ustr "【目录上传】入队异常: "
                      ++ name (ustr "/mon/a/movie.mkv")
                      ++ ustr " | " ++ exn_msg locked)) (idle [] [])
  /\ queue (idle [] []) = queue (idle [] [])
  /\ history (idle [] []) = history (idle [] []).
Proof.
  assert (Monitor.enqueue_body (world_fault OpStat) (ustr "/mon/a/movie.mkv")
            (ustr "/mon") (idle [] [])
          = (inl locked, idle [] [])) as H by (vm_compute; reflexivity).
  split; [exact H|].
  destruct (C10_enqueue_file_never_raises (world_fault OpStat)
              (ustr "/mon/a/movie.mkv") (ustr "/mon") (idle [] []))
    as (Hret & Hraise & _).
  split; [exact Hret|].
  exact (Hraise locked (idle [] []) H).
Defined.

(** ** Runs of the enqueuer *)

(** A file with an upper-case suffix against a lower-case list, cut at a
    full-width comma: one pending upload task. *)
Example enqueue_file_uppercase_suffix :
  option_map (fun q => map (fun r => (operation_type r, status r)) q)
    (Some (queue (snd (Monitor.enqueue_file world_ok
                         (ustr "/mon/a/Movie.MP4") (ustr "/mon")
                         (idle [] [])))))
  = Some [(ustr "upload", Pending)].
Proof. vm_compute. reflexivity. Qed.

(** A suffix with a cased letter outside ASCII, [x.MKÄ]: an upload
    against the list [mkä], dropped against the list [mkÄ]. *)
Example enqueue_file_latin1_suffix :
  map operation_type
    (queue (snd (Monitor.enqueue_file
                   (sample_world true (true, []) no_fault (ustr "mkä"))
                   (ustr "/mon/a/x.MKÄ") (ustr "/mon") (idle [] []))))
  = [ustr "upload"]
  /\ queue (snd (Monitor.enqueue_file
                   (sample_world true (true, []) no_fault (ustr "mkÄ"))
                   (ustr "/mon/a/x.MKÄ") (ustr "/mon") (idle [] [])))
     = [].
Proof. split; vm_compute; reflexivity. Qed.

(** A path whose row is Failed is not in the queue any more, and the
    unique index still rejects it: the exception is caught and logged. *)
Example enqueue_file_after_failure :
  let failed_movie := values_failed (ustr "boom") 3 1700000300 movie in
  let r := Monitor.enqueue_file world_ok (ustr "/mon/a/movie.mkv")
             (ustr "/mon") (idle [failed_movie] []) in
  fst r = inr tt
  /\ queue (snd r) = [failed_movie]
  /\ List.length (errors (trace (snd r))) = 1%nat.
Proof. vm_compute. repeat split; reflexivity. Qed.

(* ================================================================== *)
(** * Further properties: ordered selects *)
(* ================================================================== *)

Lemma in_firstn {A} (n : nat) (l : list A) (x : A) :
  In x (firstn n l) -> In x l.
Proof.
  intros H. rewrite <- (firstn_skipn n l). apply in_or_app. now left.
Qed.

Lemma in_skipn {A} (n : nat) (l : list A) (x : A) :
  In x (skipn n l) -> In x l.
Proof.
  intros H. rewrite <- (firstn_skipn n l). apply in_or_app. now right.
Qed.

Section OrderByFacts.

Context {A : Type} (key : A -> Z).

Local Abbreviation ge_key := (Sql.desc_by key).

Lemma insert_desc_perm (r : A) (l : list A) :
  Permutation (Sql.insert_desc key r l) (r :: l).
Proof.
  induction l as [|m l IH]; simpl; [reflexivity|].
  match goal with
  | |- context [if ?c then _ else _] => destruct c
  end; [reflexivity|].
  rewrite IH. apply perm_swap.
Qed.

Lemma order_by_desc_perm (l : list A) :
  Permutation (Sql.order_by_desc key l) l.
Proof.
  induction l as [|r l IH]; simpl; [reflexivity|].
  rewrite insert_desc_perm. now constructor.
Qed.

Lemma insert_desc_sorted (r : A) (l : list A) :
  StronglySorted ge_key l ->
  StronglySorted ge_key (Sql.insert_desc key r l).
Proof.
  induction l as [|m l IH]; simpl; intros Hs.
  - repeat constructor.
  - inversion Hs as [|? ? Hl Hm]; subst.
    match goal with
    | |- context [if ?c then _ else _] => destruct c eqn:E
    end.
    + assert (key m <= key r) as Hle
        by (first [apply Z.leb_le in E | apply Z.ltb_lt in E]; lia).
      constructor; [assumption|].
      constructor; [unfold Sql.desc_by; lia|].
      rewrite Forall_forall in *. intros x Hx.
      specialize (Hm x Hx). unfold Sql.desc_by in *. lia.
    + assert (key r <= key m) as Hle
        by (first [apply Z.leb_gt in E | apply Z.ltb_ge in E]; lia).
      constructor; [now apply IH|].
      rewrite Forall_forall in *. intros x Hx.
      apply (Permutation_in _ (insert_desc_perm r l)) in Hx.
      destruct Hx as [<- | Hx]; [unfold Sql.desc_by; lia | now apply Hm].
Qed.

Lemma order_by_desc_sorted (l : list A) :
  StronglySorted ge_key (Sql.order_by_desc key l).
Proof.
  induction l as [|r l IH]; simpl; [constructor|].
  now apply insert_desc_sorted.
Qed.

Lemma sorted_firstn (n : nat) (l : list A) :
  StronglySorted ge_key l -> StronglySorted ge_key (firstn n l).
Proof.
  revert n. induction l as [|a l IH]; intros [|n] Hs; simpl;
    try constructor.
  - inversion Hs; subst. now apply IH.
  - inversion Hs as [|? ? _ Ha]; subst.
    rewrite Forall_forall in *. intros x Hx. apply Ha.
    now apply (in_firstn n).
Qed.

Lemma sorted_split (n : nat) (l : list A) (x y : A) :
  StronglySorted ge_key l ->
  In x (firstn n l) -> In y (skipn n l) -> key y <= key x.
Proof.
  revert n. induction l as [|a l IH]; intros [|n] Hs Hx Hy; simpl in *;
    try contradiction.
  inversion Hs as [|? ? Hl Ha]; subst.
  destruct Hx as [<- | Hx].
  - rewrite Forall_forall in Ha. apply Ha.
    now apply (in_skipn n).
  - now apply (IH n).
Qed.

(** The first [n] rows by descending key: a sorted selection of the
    rows, no longer than [n], and every row left out has a key that is
    not above any key selected. *)
Lemma top_by_desc (n : nat) (l : list A) :
  let top := Sql.limit n (Sql.order_by_desc key l) in
  (forall x, In x top -> In x l)
  /\ List.length top = Nat.min n (List.length l)
  /\ StronglySorted ge_key top
  /\ (forall r x, In r l -> ~ In r top -> In x top -> key r <= key x).
Proof.
  unfold Sql.limit. cbn zeta.
  pose proof (order_by_desc_perm l) as Hp.
  pose proof (order_by_desc_sorted l) as Hs.
  split; [|split; [|split]].
  - intros x Hx. apply (Permutation_in _ Hp).
    now apply (in_firstn n).
  - rewrite length_firstn. now rewrite (Permutation_length Hp).
  - now apply sorted_firstn.
  - intros r x Hr Hnot Hx.
    apply (Permutation_in _ (Permutation_sym Hp)) in Hr.
    rewrite <- (firstn_skipn n (Sql.order_by_desc key l)) in Hr.
    apply in_app_or in Hr. destruct Hr as [Hr | Hr]; [contradiction|].
    now apply (sorted_split n (Sql.order_by_desc key l)).
Qed.

End OrderByFacts.

(* ================================================================== *)
(** * Further properties: the queue table *)
(* ================================================================== *)

Lemma next_id_above (t : Table) (r : Row) : In r t -> id r < next_id t.
Proof.
  unfold next_id. induction t as [|a t IH]; cbn [fold_right In];
    [contradiction|].
  intros [-> | Hin]; [lia|]. specialize (IH Hin). lia.
Qed.

Lemma distinct_app_fresh (l : list Z) (x : Z) :
  distinct l = true -> (forall y, In y l -> y <> x) ->
  distinct (l ++ [x]) = true.
Proof.
  induction l as [|a l IH]; simpl; [reflexivity|].
  rewrite !andb_true_iff, !negb_true_iff. intros [Ha Hd] Hx.
  split.
  - rewrite existsb_app. simpl. rewrite Ha. simpl.
    rewrite orb_false_r. apply Z.eqb_neq. apply Hx. now left.
  - apply IH; [assumption|]. intros y Hy. apply Hx. now right.
Qed.

Lemma mem_false (x : pystr) (l : list pystr) :
  mem x l = false <-> ~ In x l.
Proof.
  split.
  - intros H Hin. apply mem_In in Hin. congruence.
  - intros H. destruct (mem x l) eqn:E; [|reflexivity].
    apply mem_In in E. contradiction.
Qed.

Lemma distinct_paths_app_fresh (l : list pystr) (x : pystr) :
  distinct_paths l = true -> ~ In x l ->
  distinct_paths (l ++ [x]) = true.
Proof.
  induction l as [|a l IH]; simpl; [reflexivity|].
  rewrite !andb_true_iff, !negb_true_iff. intros [Ha Hd] Hx.
  split.
  - apply mem_false. apply mem_false in Ha. intros Hin.
    apply in_app_or in Hin. destruct Hin as [Hin | [<- | []]].
    + contradiction.
    + apply Hx. now left.
  - apply IH; [assumption|]. intros Hin. apply Hx. now right.
Qed.

Lemma path_present (path : pystr) (t : Table) :
  existsb (fun r => PyStr.eqb (file_path r) path) t = true <->
  exists r, In r t /\ file_path r = path.
Proof.
  rewrite existsb_exists. split; intros (r & Hin & H); exists r;
    (split; [assumption|]); now apply pystr_eqb_eq.
Qed.

Lemma exists_in_queue_true (path : pystr) (t : Table) :
  exists_in_queue path t = true <->
  exists r, In r t /\ file_path r = path
            /\ (status r = Pending \/ status r = Processing).
Proof.
  unfold exists_in_queue.
  set (p := fun r => PyStr.eqb (file_path r) path
                     && (has_status Pending r || has_status Processing r)).
  assert (forall r, p r = true <->
                    file_path r = path
                    /\ (status r = Pending \/ status r = Processing)) as Hp.
  { intros r. unfold p.
    rewrite andb_true_iff, orb_true_iff, pystr_eqb_eq,
      !has_status_true. tauto. }
  split.
  - intros H. destruct (filter p t) as [|r l] eqn:E; [discriminate|].
    assert (In r (filter p t)) as Hin by (rewrite E; now left).
    apply filter_In in Hin. destruct Hin as [Hin Hr].
    exists r. split; [assumption|]. now apply Hp.
  - intros (r & Hin & Hr).
    assert (In r (filter p t)) as Hf.
    { apply filter_In. split; [assumption|]. now apply Hp. }
    destruct (filter p t); [contradiction|].
    cbn [List.length]. rewrite Nat2Z.inj_succ. apply Z.ltb_lt. lia.
Qed.

Lemma exists_in_queue_false (path : pystr) (t : Table) :
  exists_in_queue path t = false <->
  forall r, In r t -> file_path r = path ->
            status r = Completed \/ status r = Failed.
Proof.
  split.
  - intros H r Hin Hp.
    destruct (status r) eqn:E; auto; exfalso;
      assert (exists_in_queue path t = true) as Ht
        by (apply exists_in_queue_true; exists r; auto);
      congruence.
  - intros H. destruct (exists_in_queue path t) eqn:E; [|reflexivity].
    apply exists_in_queue_true in E. destruct E as (r & Hin & Hp & Hs).
    destruct (H r Hin Hp) as [Hc | Hc]; destruct Hs as [Hs | Hs];
      congruence.
Qed.

(** X1: [create_task] is rejected exactly when some row, in whatever
    status, already has the path; otherwise it appends one row and
    touches no other: that row is Pending with retry count 0, no error
    message, both timestamps equal to the clock read and an id above
    every id of the table, so the primary key and the unique index on
    the path keep holding, and the path is in the queue afterwards. *)
Theorem X1_create_task_appends_one_pending_row :
  forall (path fname : pystr) (size mtime : Z) (mon op : pystr)
         (remote local_ : option pystr) (del : bool) (ts : Z) (t : Table),
    (create_task path fname size mtime mon op remote local_ del ts t = None
     <-> exists r, In r t /\ file_path r = path)
    /\ (forall t',
          create_task path fname size mtime mon op remote local_ del ts t
          = Some t' ->
          exists row,
            t' = t ++ [row]
            /\ file_path row = path /\ file_name row = fname
            /\ file_size row = size /\ file_mtime row = mtime
            /\ monitor_path row = mon /\ operation_type row = op
            /\ dest_remote row = remote /\ dest_local row = local_
            /\ delete_source row = del
            /\ status row = Pending /\ retry_count row = 0
            /\ error_message row = None
            /\ created_at row = ts /\ updated_at row = ts
            /\ (forall r, In r t -> id r < id row)
            /\ (primary_key t = true -> primary_key t' = true)
            /\ (unique_paths t = true -> unique_paths t' = true)
            /\ exists_in_queue path t' = true).
Proof.
  intros. unfold create_task.
  destruct (existsb (fun r => PyStr.eqb (file_path r) path) t) eqn:E.
  - split.
    + split; [intros _; now apply path_present | reflexivity].
    + intros t' H. discriminate.
  - split.
    + split; [discriminate|]. intros H. apply path_present in H. congruence.
    + intros t' [= <-]. eexists. split; [reflexivity|]. simpl.
      repeat split; auto.
      * intros r Hin. now apply next_id_above.
      * unfold primary_key. rewrite map_app. simpl. intros Hd.
        apply distinct_app_fresh; [assumption|].
        intros y Hy Heq. apply in_map_iff in Hy.
        destruct Hy as (r & <- & Hin).
        pose proof (next_id_above t r Hin). lia.
      * unfold unique_paths. rewrite map_app. simpl. intros Hd.
        apply distinct_paths_app_fresh; [assumption|].
        intros Hin. apply in_map_iff in Hin. destruct Hin as (r & Hp & Hin).
        assert (existsb (fun r => PyStr.eqb (file_path r) path) t = true)
          by (apply path_present; now exists r).
        congruence.
      * apply exists_in_queue_true. eexists. split.
        -- apply in_or_app. right. left. reflexivity.
        -- simpl. auto.
Qed.

Lemma primary_key_inj (t : Table) (a b : Row) :
  primary_key t = true -> In a t -> In b t -> id a = id b -> a = b.
Proof.
  intros Hpk Ha Hb Hid.
  pose proof (primary_key_get t a Hpk Ha) as Ga.
  pose proof (primary_key_get t b Hpk Hb) as Gb.
  rewrite Hid, Gb in Ga. now injection Ga.
Qed.

Lemma unique_paths_inj (t : Table) (a b : Row) :
  unique_paths t = true -> In a t -> In b t ->
  file_path a = file_path b -> a = b.
Proof.
  unfold unique_paths. induction t as [|c t IH]; simpl; [contradiction|].
  rewrite andb_true_iff, negb_true_iff, mem_false.
  intros [Hc Hd] [-> | Ha] [-> | Hb] Hp; auto.
  - exfalso. apply Hc. rewrite Hp. now apply in_map.
  - exfalso. apply Hc. rewrite <- Hp. now apply in_map.
Qed.

Lemma in_update_where p f (t : Table) (r' : Row) :
  In r' (update_where p f t) ->
  exists r, In r t /\ r' = (if p r then f r else r).
Proof.
  unfold update_where. intros H. apply in_map_iff in H.
  destruct H as (r & <- & Hin). now exists r.
Qed.

(** X2: [exists_in_queue] holds exactly when a row with the path is
    Pending or Processing.  With the unique index on the path, marking
    the row of a path Completed or Failed takes the path out of the
    queue, and marking it Processing or Pending for a retry keeps it
    in. *)
Theorem X2_exists_in_queue_follows_the_status :
  forall (t : Table) (r : Row) (ts rc : Z) (msg : pystr),
    (forall path,
        exists_in_queue path t = true <->
        exists x, In x t /\ file_path x = path
                  /\ (status x = Pending \/ status x = Processing))
    /\ (unique_paths t = true -> In r t ->
        exists_in_queue (file_path r) (mark_as_completed (id r) ts t) = false
        /\ exists_in_queue (file_path r) (mark_as_failed (id r) msg rc ts t)
           = false
        /\ exists_in_queue (file_path r) (mark_as_processing (id r) ts t)
           = true
        /\ exists_in_queue (file_path r) (mark_as_pending_retry (id r) rc ts t)
           = true).
Proof.
  intros t r ts rc msg. split; [intros; apply exists_in_queue_true|].
  intros Hu Hin.
  assert (has_id (id r) r = true) as Hid
    by (unfold has_id; apply Z.eqb_refl).
  assert (forall f, (forall x, file_path (f x) = file_path x) ->
            (forall x, status (f x) = Completed \/ status (f x) = Failed) ->
            exists_in_queue (file_path r) (update_where (has_id (id r)) f t)
            = false) as Hout.
  { intros f Hfp Hst. apply exists_in_queue_false. intros x' Hx' Hp.
    apply in_update_where in Hx'. destruct Hx' as (x & Hx & ->).
    destruct (has_id (id r) x) eqn:E; [apply Hst|].
    assert (x = r) by (now apply (unique_paths_inj t)).
    subst x. congruence. }
  assert (forall f, (forall x, file_path (f x) = file_path x) ->
            (forall x, status (f x) = Pending \/ status (f x) = Processing) ->
            exists_in_queue (file_path r) (update_where (has_id (id r)) f t)
            = true) as Hin'.
  { intros f Hfp Hst. apply exists_in_queue_true. exists (f r).
    split; [|split; [apply Hfp | apply Hst]].
    unfold update_where. apply in_map_iff. exists r.
    now rewrite Hid. }
  split; [|split; [|split]].
  - apply Hout; intros; simpl; auto.
  - apply Hout; intros; simpl; auto.
  - apply Hin'; intros; simpl; auto.
  - apply Hin'; intros; simpl; auto.
Qed.

Lemma update_where_none p f (t : Table) :
  (forall r, In r t -> p r = false) -> update_where p f t = t.
Proof.
  unfold update_where. induction t as [|a t IH]; simpl; [reflexivity|].
  intros H. rewrite (H a) by now left. f_equal. apply IH.
  intros r Hr. apply H. now right.
Qed.

(** X3: marking a task id that no row has is a silent no-op: each of the
    four marking statements leaves the table as it is. *)
Theorem X3_marking_an_unknown_id_changes_nothing :
  forall (t : Table) (task_id ts rc : Z) (msg : pystr),
    get task_id t = None ->
    mark_as_processing task_id ts t = t
    /\ mark_as_completed task_id ts t = t
    /\ mark_as_failed task_id msg rc ts t = t
    /\ mark_as_pending_retry task_id rc ts t = t.
Proof.
  intros t task_id ts rc msg Hget.
  assert (forall r, In r t -> has_id task_id r = false) as Hno.
  { intros r Hin. unfold get in Hget.
    exact (find_none _ _ Hget r Hin). }
  unfold mark_as_processing, mark_as_completed, mark_as_failed,
    mark_as_pending_retry.
  repeat split; now apply update_where_none.
Qed.

Lemma count_total (t : Table) :
  count Pending t + count Processing t + count Completed t + count Failed t
  = Z.of_nat (List.length t).
Proof.
  induction t as [|a t IH]; [reflexivity|].
  rewrite !count_cons. cbn [List.length]. rewrite Nat2Z.inj_succ.
  unfold has_status. destruct (status a); cbn [status_eqb]; lia.
Qed.

Lemma count_nonneg (st : Status) (t : Table) : 0 <= count st t.
Proof. unfold count. lia. Qed.

(** X4: the dictionary of [count_by_status] has each of the four statuses
    as a key exactly once, the value of a status is the number of rows in
    it (0 when there is none), and the four values add up to the number
    of rows. *)
Theorem X4_count_by_status_is_zero_filled :
  forall (t : Table),
    (forall st, lookup st (count_by_status t) = Some (count st t))
    /\ Permutation (map fst (count_by_status t))
         [Pending; Processing; Completed; Failed]
    /\ count Pending t + count Processing t + count Completed t
       + count Failed t = Z.of_nat (List.length t).
Proof.
  intros t. split; [|split; [|apply count_total]].
  - intros st. unfold count_by_status, group_by_status, lookup, has_key.
    cbn [map].
    assert (forall x, rowcount (has_status x) t = count x t) as Hc
      by reflexivity.
    rewrite !Hc.
    pose proof (count_nonneg Completed t).
    pose proof (count_nonneg Failed t).
    pose proof (count_nonneg Pending t).
    pose proof (count_nonneg Processing t).
    destruct st;
      generalize dependent (count Completed t); intros c1 ?;
      generalize dependent (count Failed t); intros c2 ?;
      generalize dependent (count Pending t); intros c3 ?;
      generalize dependent (count Processing t); intros c4 ?;
      cbn [filter snd];
      destruct (0 <? c1) eqn:E1; destruct (0 <? c2) eqn:E2;
      destruct (0 <? c3) eqn:E3; destruct (0 <? c4) eqn:E4;
      cbn; f_equal; rewrite ?Z.ltb_ge in *; lia.
  - unfold count_by_status, group_by_status, has_key.
    cbn [map filter snd].
    destruct (0 <? rowcount (has_status Completed) t);
      destruct (0 <? rowcount (has_status Failed) t);
      destruct (0 <? rowcount (has_status Pending) t);
      destruct (0 <? rowcount (has_status Processing) t);
      cbn [fold_left existsb fst status_eqb orb app map];
      apply NoDup_Permutation;
      try (repeat constructor; simpl; intuition discriminate);
      intros [] ; simpl; tauto.
Qed.


(** The head of an insertion depends on the head of the list only. *)
Lemma insert_by_created_at_hd r l1 l2 :
  hd_error l1 = hd_error l2 ->
  hd_error (insert_by_created_at r l1) = hd_error (insert_by_created_at r l2).
Proof.
  destruct l1 as [|m1 l1], l2 as [|m2 l2]; simpl; intros H;
    try discriminate; [reflexivity|].
  injection H as ->.
  match goal with
  | |- context [if ?c then _ else _] => destruct c
  end; reflexivity.
Qed.

(** A row appended to the table with a [created_at] above all others
    does not become the first of the ordered select. *)
Lemma order_by_created_at_snoc (l : list Row) (x : Row) :
  l <> [] ->
  (forall r, In r l -> created_at r < created_at x) ->
  hd_error (order_by_created_at (l ++ [x]))
  = hd_error (order_by_created_at l).
Proof.
  induction l as [|a l IH]; [congruence|]. intros _ Hlt.
  destruct l as [|b l].
  - assert (created_at a < created_at x) as Ha by (apply Hlt; now left).
    simpl.
    match goal with
    | |- context [if ?c then _ else _] => destruct c eqn:E
    end; [reflexivity|].
    exfalso. first [apply Z.leb_gt in E | apply Z.ltb_ge in E]; lia.
  - change ((a :: b :: l) ++ [x]) with (a :: ((b :: l) ++ [x])).
    change (order_by_created_at (a :: ((b :: l) ++ [x])))
      with (insert_by_created_at a
              (order_by_created_at ((b :: l) ++ [x]))).
    change (order_by_created_at (a :: b :: l))
      with (insert_by_created_at a (order_by_created_at (b :: l))).
    apply insert_by_created_at_hd. apply IH; [discriminate|].
    intros r Hr. apply Hlt. now right.
Qed.

(** X6: a task created when the clock is past the [created_at] of every
    Pending row never overtakes: as long as some row is Pending, the row
    [get_next_pending_task] returns is the same before and after the
    insertion.  When the clock is merely not behind (a Pending row was
    created in the same second), the row returned after the insertion is
    a Pending row with the [created_at] of the row returned before.  Into
    a queue with no Pending row, the new task is the next one. *)
Theorem X6_new_task_goes_to_the_back :
  forall (path fname : pystr) (size mtime : Z) (mon op : pystr)
         (remote local_ : option pystr) (del : bool) (ts : Z) (t t' : Table),
    create_task path fname size mtime mon op remote local_ del ts t
    = Some t' ->
    ((forall r, In r t -> status r = Pending -> created_at r < ts) ->
     forall r, get_next_pending_task t = Some r ->
               get_next_pending_task t' = Some r)
    /\ ((forall r, In r t -> status r = Pending -> created_at r <= ts) ->
        forall r, get_next_pending_task t = Some r ->
                  exists r', get_next_pending_task t' = Some r'
                             /\ status r' = Pending
                             /\ created_at r' = created_at r)
    /\ (get_next_pending_task t = None ->
        exists row, get_next_pending_task t' = Some row
                    /\ file_path row = path /\ created_at row = ts).
Proof.
  intros path fname size mtime mon op remote local_ del ts t t' Hc.
  unfold create_task in Hc.
  destruct (existsb (fun r => PyStr.eqb (file_path r) path) t);
    [discriminate|].
  injection Hc as <-.
  split; [|split].
  - intros Hlt r Hr.
    unfold get_next_pending_task in *. rewrite filter_app. simpl.
    rewrite order_by_created_at_snoc; [exact Hr | |].
    + intros E. rewrite E in Hr. discriminate.
    + intros x Hx. apply filter_In in Hx. destruct Hx as [Hx Hp].
      simpl. apply Hlt; [assumption|]. now apply has_status_true.
  - intros Hle r Hr.
    destruct (get_next_pending_task_some _ _ Hr) as (Hin & Hst & Hmin).
    match goal with
    | |- exists r', get_next_pending_task ?q = _ /\ _ =>
        destruct (get_next_pending_task q) as [r'|] eqn:Hr'
    end.
    + exists r'. split; [reflexivity|].
      destruct (get_next_pending_task_some _ _ Hr') as (Hin' & Hst' & Hmin').
      split; [exact Hst'|].
      assert (created_at r' <= created_at r) as H1.
      { apply Hmin'; [|exact Hst]. apply in_or_app. now left. }
      assert (created_at r <= created_at r') as H2.
      { apply in_app_or in Hin'. destruct Hin' as [Hin' | [<- | []]].
        - now apply Hmin.
        - simpl. now apply Hle. }
      lia.
    + exfalso.
      apply (proj1 (get_next_pending_task_none _) Hr' r);
        [apply in_or_app; now left | exact Hst].
  - intros Hnone.
    assert (filter (has_status Pending) t = []) as Hf.
    { destruct (filter (has_status Pending) t) as [|a l] eqn:E;
        [reflexivity|].
      assert (In a (filter (has_status Pending) t)) as Ha
        by (rewrite E; now left).
      apply filter_In in Ha. destruct Ha as [Ha Hs].
      apply has_status_true in Hs.
      exfalso. exact (proj1 (get_next_pending_task_none t) Hnone a Ha Hs). }
    unfold get_next_pending_task. rewrite filter_app, Hf. simpl.
    eexists. split; [reflexivity|]. simpl. auto.
Qed.

(* ================================================================== *)
(** * Further properties: the history table *)
(* ================================================================== *)

Lemma is_uploaded_false (fp : pystr) (size : Z) (t : UploadHistory.Table) :
  UploadHistory.is_uploaded fp size t = false <->
  forall h, In h t ->
            ~ (UploadHistory.file_fingerprint h = fp
               /\ UploadHistory.file_size h = size).
Proof.
  split.
  - intros H h Hin [Hf Hs].
    assert (UploadHistory.is_uploaded fp size t = true)
      by (apply is_uploaded_true; now exists h).
    congruence.
  - intros H. destruct (UploadHistory.is_uploaded fp size t) eqn:E;
      [|reflexivity].
    apply is_uploaded_true in E. destruct E as (h & Hin & Hf & Hs).
    exfalso. now apply (H h Hin).
Qed.

(** X7: what [record_upload] records, [is_uploaded] finds, under the
    same fingerprint and size; it forgets nothing that was found before;
    and a lookup that succeeds afterwards either succeeded before or asks
    for exactly the recorded fingerprint and size, so the same
    fingerprint with another size is not a match. *)
Theorem X7_record_upload_then_is_uploaded :
  forall (fp : pystr) (size : Z) (path fname op : pystr)
         (remote local_ : option pystr) (ts : Z) (t : UploadHistory.Table)
         (fp' : pystr) (size' : Z),
    UploadHistory.is_uploaded fp size
      (UploadHistory.record_upload fp size path fname op remote local_ ts t)
    = true
    /\ (UploadHistory.is_uploaded fp' size' t = true ->
        UploadHistory.is_uploaded fp' size'
          (UploadHistory.record_upload fp size path fname op remote local_
             ts t) = true)
    /\ (UploadHistory.is_uploaded fp' size'
          (UploadHistory.record_upload fp size path fname op remote local_
             ts t) = true ->
        UploadHistory.is_uploaded fp' size' t = true
        \/ (fp' = fp /\ size' = size)).
Proof.
  intros. unfold UploadHistory.record_upload.
  split; [|split].
  - apply is_uploaded_true. eexists. split.
    + apply in_or_app. right. left. reflexivity.
    + simpl. auto.
  - intros H. apply is_uploaded_true in H. destruct H as (h & Hin & Hf & Hs).
    apply is_uploaded_true. exists h. split; auto.
    apply in_or_app. now left.
  - intros H. apply is_uploaded_true in H. destruct H as (h & Hin & Hf & Hs).
    apply in_app_or in Hin. destruct Hin as [Hin | [<- | []]].
    + left. apply is_uploaded_true. now exists h.
    + right. simpl in Hf, Hs. auto.
Qed.

Lemma filter_length_split {A} (p : A -> bool) (l : list A) :
  (List.length (filter p l) + List.length (filter (fun x => negb (p x)) l)
   = List.length l)%nat.
Proof.
  induction l as [|a l IH]; simpl; [reflexivity|].
  destruct (p a); simpl; lia.
Qed.

Lemma filter_none {A} (p : A -> bool) (l : list A) :
  (forall x, In x l -> p x = false) -> filter p l = [].
Proof.
  induction l as [|a l IH]; simpl; [reflexivity|].
  intros H. rewrite (H a) by now left. apply IH.
  intros x Hx. apply H. now right.
Qed.

Lemma filter_all {A} (p : A -> bool) (l : list A) :
  (forall x, In x l -> p x = true) -> filter p l = l.
Proof.
  induction l as [|a l IH]; simpl; [reflexivity|].
  intros H. rewrite (H a) by now left. f_equal. apply IH.
  intros x Hx. apply H. now right.
Qed.

(** X8: [cleanup_old_records] deletes exactly the entries completed
    before the cutoff and returns how many they were; the entries that
    stay keep their order; a second run at the same clock deletes
    nothing; a fingerprint is still found afterwards exactly when an
    entry for it is not older than the cutoff.  While the retention
    period does not reach before the epoch, the cutoff is the clock in
    whole seconds minus [days * 86400]. *)
Theorem X8_cleanup_old_records_deletes_exactly_the_old :
  forall (now_us days : Z) (t : UploadHistory.Table),
    let cutoff := UploadHistory.cutoff_timestamp now_us days in
    let left_ := snd (UploadHistory.cleanup_old_records now_us days t) in
    (forall h, In h left_ <->
               In h t /\ cutoff <= UploadHistory.completed_at h)
    /\ fst (UploadHistory.cleanup_old_records now_us days t)
       = Z.of_nat (List.length t) - Z.of_nat (List.length left_)
    /\ left_ = filter (fun h => cutoff <=? UploadHistory.completed_at h) t
    /\ UploadHistory.cleanup_old_records now_us days left_ = (0, left_)
    /\ (forall fp size,
          UploadHistory.is_uploaded fp size left_ = true <->
          exists h, In h t /\ cutoff <= UploadHistory.completed_at h
                    /\ UploadHistory.file_fingerprint h = fp
                    /\ UploadHistory.file_size h = size)
    /\ (0 <= days * 86400 <= now_us / 1000000 ->
        cutoff = now_us / 1000000 - days * 86400).
Proof.
  intros now_us days t cutoff left_.
  unfold left_, UploadHistory.cleanup_old_records. fold cutoff.
  cbn [fst snd].
  assert (forall h, negb (UploadHistory.is_old cutoff h)
                    = (cutoff <=? UploadHistory.completed_at h)) as Hneg.
  { intros h. unfold UploadHistory.is_old.
    destruct (UploadHistory.completed_at h <? cutoff) eqn:E;
      [apply Z.ltb_lt in E | apply Z.ltb_ge in E]; simpl; symmetry;
      [apply Z.leb_gt | apply Z.leb_le]; lia. }
  assert (forall h,
            In h (filter (fun r => negb (UploadHistory.is_old cutoff r)) t)
            <-> In h t /\ cutoff <= UploadHistory.completed_at h) as Hin.
  { intros h. rewrite filter_In, Hneg, Z.leb_le. tauto. }
  split; [exact Hin|].
  split.
  { pose proof (filter_length_split (UploadHistory.is_old cutoff) t). lia. }
  split.
  { apply filter_ext. exact Hneg. }
  split.
  { f_equal.
    - rewrite filter_none; [reflexivity|].
      intros h Hh. apply filter_In in Hh. destruct Hh as [_ Hh].
      now apply negb_true_iff in Hh.
    - apply filter_all. intros h Hh. apply filter_In in Hh. tauto. }
  split.
  { intros fp size. rewrite is_uploaded_true. split.
    - intros (h & Hh & Hf & Hs). apply Hin in Hh. exists h. tauto.
    - intros (h & Hh & Hc & Hf & Hs). exists h. rewrite Hin. tauto. }
  intros Hrange. unfold cutoff, UploadHistory.cutoff_timestamp.
  pose proof (Z.mul_div_le now_us 1000000 ltac:(lia)) as Hfloor.
  rewrite Z.quot_div_nonneg by lia.
  replace (now_us - days * 86400 * 1000000)
    with (now_us + (- (days * 86400)) * 1000000) by lia.
  rewrite Z.div_add by lia. lia.
Qed.


(** ** The fingerprint *)

Lemma bytes_of_inj (a b : string) : bytes_of a = bytes_of b -> a = b.
Proof.
  unfold bytes_of. intros H.
  rewrite <- (string_of_list_ascii_of_string a),
          <- (string_of_list_ascii_of_string b).
  f_equal. revert H.
  generalize (list_ascii_of_string a) (list_ascii_of_string b).
  induction l as [|x l IH]; intros [|y l']; simpl; try discriminate;
    [reflexivity|].
  intros [= Hxy Hl]. f_equal; [|now apply IH].
  rewrite <- (ascii_N_embedding x), <- (ascii_N_embedding y).
  now rewrite Hxy.
Qed.

Lemma str_of_Z_inj (a b : Z) : str_of_Z a = str_of_Z b -> a = b.
Proof.
  unfold str_of_Z. intros H. apply bytes_of_inj in H.
  apply DecimalZ.to_int_inj.
  assert (forall z, Z.to_int z <> Decimal.Pos Decimal.Nil
                    /\ Z.to_int z <> Decimal.Neg Decimal.Nil) as Hnn.
  { intros [|p|p]; simpl; split; try discriminate;
      intros [= E]; now apply Unsigned.to_uint_nonnil in E. }
  pose proof (NilZero.isi (Z.to_int a) (proj1 (Hnn a)) (proj2 (Hnn a))) as Ea.
  pose proof (NilZero.isi (Z.to_int b) (proj1 (Hnn b)) (proj2 (Hnn b))) as Eb.
  rewrite H in Ea. rewrite Ea in Eb. now injection Eb.
Qed.

Lemma string_of_uint_digits (d : Decimal.uint) (c : N) :
  In c (bytes_of (NilEmpty.string_of_uint d)) -> (48 <= c <= 57)%N.
Proof.
  unfold bytes_of. induction d; simpl; try contradiction;
    (intros [<- | H]; [lia | now apply IHd]).
Qed.

Lemma str_of_Z_no_underscore (z : Z) : ~ In 95%N (str_of_Z z).
Proof.
  unfold str_of_Z, NilZero.string_of_int, NilZero.string_of_uint.
  assert (forall d, ~ In 95%N
            (bytes_of match d with
                      | Decimal.Nil => "0"%string
                      | _ => NilEmpty.string_of_uint d
                      end)) as Hu.
  { intros d H.
    assert ((48 <= 95 <= 57)%N); [|lia].
    destruct d; try (now apply (string_of_uint_digits _ _ H)).
    simpl in H. destruct H as [H | []]. discriminate. }
  destruct (Z.to_int z) as [d | d].
  - apply Hu.
  - intros H. change (bytes_of (String "-" ?s)) with (45%N :: bytes_of s) in H.
    unfold bytes_of in H. simpl in H. destruct H as [H | H];
      [discriminate|]. now apply (Hu d).
Qed.

Lemma split_at_first (sep : N) (a a' b b' : pystr) :
  ~ In sep a -> ~ In sep a' ->
  a ++ sep :: b = a' ++ sep :: b' -> a = a' /\ b = b'.
Proof.
  revert a'. induction a as [|x a IH]; intros [|y a'] Ha Ha'; simpl.
  - intros [= ->]. auto.
  - intros [= <- _]. exfalso. apply Ha'. now left.
  - intros [= -> _]. exfalso. apply Ha. now left.
  - intros [= -> H]. destruct (IH a') as [-> ->]; auto.
    + intros Hin. apply Ha. now right.
    + intros Hin. apply Ha'. now right.
Qed.

(** X10: the fingerprint ["{file_size}_{file_mtime}"] determines both
    numbers: two tasks have the same fingerprint exactly when they have
    the same size and the same modification time. *)
Theorem X10_fingerprint_determines_size_and_mtime :
  forall (a b : Row),
    Processor.fingerprint a = Processor.fingerprint b <->
    file_size a = file_size b /\ file_mtime a = file_mtime b.
Proof.
  intros a b. unfold Processor.fingerprint. split.
  - change (ustr "_") with [95%N]. simpl. intros H.
    apply split_at_first in H; try apply str_of_Z_no_underscore.
    destruct H as [Hs Hm]. split; now apply str_of_Z_inj.
  - intros [-> ->]. reflexivity.
Qed.

(* ================================================================== *)
(** * Further properties: the processor *)
(* ================================================================== *)

(** After the pass whose transfer succeeds the history has the task's
    fingerprint. *)
Lemma successful_pass_historized (w : World) (s : State) (task : Row) :
  is_processing s = false ->
  primary_key (queue s) = true ->
  quiet w [OpGetNextPending; OpMarkProcessing; OpPathExists;
           OpIsUploaded; OpMarkCompleted; OpRecordUpload] = true ->
  get_next_pending_task (queue s) = Some task ->
  path_exists w (file_path task) = true ->
  UploadHistory.is_uploaded (Processor.fingerprint task) (file_size task)
    (history s) = false ->
  fst (snd (Processor._execute_task w task)) = true ->
  UploadHistory.is_uploaded (Processor.fingerprint task)
    (file_size task) (history (after w s)) = true.
Proof.
  intros Hidle Hpk Hq Hnext Hex Hup Hok.
  quiet_facts Hq.
  apply is_uploaded_true.
  unfold_processor. follow. trace_simpl. rewrite ?Hok. follow.
  trace_simpl.
  destruct (delete_source task); simpl; trace_simpl;
    unfold UploadHistory.record_upload;
    eexists; (split; [apply in_or_app; right; left; reflexivity|]);
    simpl; split; reflexivity.
Qed.

(** X11: on a pass whose transfer succeeds the task is Completed, with
    [status] and [updated_at] the only columns rewritten; one entry is
    appended to the history, carrying the task's fingerprint, size,
    path, name, operation type and destinations, so that [is_uploaded]
    finds the task's fingerprint afterwards; and
    [_delete_source_file] is called, once and for the path of the task,
    exactly when [delete_source] is set (what the call removes is the
    file system's). *)
Theorem X11_successful_pass_completes_and_records :
  forall (w : World) (s : State) (task : Row),
    is_processing s = false ->
    primary_key (queue s) = true ->
    quiet w [OpGetNextPending; OpMarkProcessing; OpPathExists;
             OpIsUploaded; OpMarkCompleted; OpRecordUpload] = true ->
    get_next_pending_task (queue s) = Some task ->
    path_exists w (file_path task) = true ->
    UploadHistory.is_uploaded (Processor.fingerprint task) (file_size task)
      (history s) = false ->
    fst (snd (Processor._execute_task w task)) = true ->
    fst (Processor.process_one_task w s) = inr true
    /\ (exists row,
          get (id task) (queue (after w s)) = Some row
          /\ status row = Completed
          /\ updated_at row = now w OpMarkCompleted
          /\ same_but_status task row)
    /\ (exists h,
          history (after w s) = history s ++ [h]
          /\ UploadHistory.file_fingerprint h = Processor.fingerprint task
          /\ UploadHistory.file_size h = file_size task
          /\ UploadHistory.file_path h = file_path task
          /\ UploadHistory.file_name h = file_name task
          /\ UploadHistory.operation_type h = operation_type task
          /\ UploadHistory.dest_remote h = dest_remote task
          /\ UploadHistory.dest_local h = dest_local task
          /\ UploadHistory.completed_at h = now w OpRecordUpload)
    /\ UploadHistory.is_uploaded (Processor.fingerprint task)
         (file_size task) (history (after w s)) = true
    /\ deletions (trace (after w s))
       = (if delete_source task then [file_path task] else [])
         ++ deletions (trace s).
Proof.
  intros w s task Hidle Hpk Hq Hnext Hex Hup Hok.
  quiet_facts Hq.
  destruct (get_next_pending_task_some _ _ Hnext) as (Hint & _).
  assert (exists h,
          history (after w s) = history s ++ [h]
          /\ UploadHistory.file_fingerprint h = Processor.fingerprint task
          /\ UploadHistory.file_size h = file_size task
          /\ UploadHistory.file_path h = file_path task
          /\ UploadHistory.file_name h = file_name task
          /\ UploadHistory.operation_type h = operation_type task
          /\ UploadHistory.dest_remote h = dest_remote task
          /\ UploadHistory.dest_local h = dest_local task
          /\ UploadHistory.completed_at h = now w OpRecordUpload) as Hh.
  { unfold_processor. follow. trace_simpl. rewrite ?Hok. follow.
    trace_simpl.
    destruct (delete_source task); simpl; trace_simpl;
      unfold UploadHistory.record_upload;
      eexists; (split; [reflexivity|]); simpl; repeat split; reflexivity. }
  split.
  { unfold_processor. follow. trace_simpl. rewrite ?Hok. follow.
    destruct (delete_source task); reflexivity. }
  split.
  { unfold_processor. follow. trace_simpl. rewrite ?Hok. follow.
    destruct (delete_source task); simpl; trace_simpl;
      task_row Hpk Hint; eexists; (split; [reflexivity|]);
      unfold same_but_status; simpl; repeat split; reflexivity. }
  split; [exact Hh|].
  split.
  { destruct Hh as (h & -> & Hf & Hs & _).
    apply is_uploaded_true. exists h. split; [|auto].
    apply in_or_app. right. now left. }
  unfold_processor. follow. trace_simpl. rewrite ?Hok. follow.
  destruct (delete_source task); simpl; trace_simpl; reflexivity.
Qed.

Lemma update_where_compose p f g (t : Table) :
  (forall r, p (f r) = p r) ->
  update_where p g (update_where p f t)
  = update_where p (fun r => g (f r)) t.
Proof.
  intros Hp. unfold update_where. rewrite map_map. apply map_ext.
  intros r. destruct (p r) eqn:E; [now rewrite Hp, E | now rewrite E].
Qed.

(** What a pass does to the queue: nothing, or one update of the rows
    with the id of the fetched task that keeps every column but
    [status], [retry_count], [error_message] and [updated_at]. *)
Lemma process_one_task_queue (w : World) (s : State) :
  queue (after w s) = queue s
  \/ exists task f,
       get_next_pending_task (queue s) = Some task
       /\ queue (after w s) = update_where (has_id (id task)) f (queue s)
       /\ forall r, same_task r (f r)
                    /\ (retry_count (f r) = retry_count r
                        \/ retry_count (f r) = retry_count task
                        \/ retry_count (f r) = retry_count task + 1).
Proof.
  unfold_processor.
  destruct (is_processing s) eqn:Hidle; simpl; [now left|].
  walk; trace_simpl; try (now left); right;
    unfold mark_as_processing, mark_as_completed, mark_as_failed,
      mark_as_pending_retry;
    rewrite ?update_where_compose by (intros; reflexivity);
    eexists; eexists; (split; [reflexivity|]); (split; [reflexivity|]);
    intros x; unfold same_task; simpl; repeat split; auto.
Qed.

(** X12: a pass of [process_one_task], in any world and from any state,
    faults included, neither adds nor removes nor reorders rows; it
    keeps the id, path, name, size, mtime, monitor root, destinations,
    operation type, deletion flag and [created_at] of every row; it
    changes no row but the one it fetched; and under the primary key the
    retry count of a row grows by at most one and never shrinks, and a
    row that is not Pending (Processing, Completed or Failed) is left
    exactly as it is. *)
Theorem X12_pass_rewrites_only_the_fetched_pending_row :
  forall (w : World) (s : State),
    map id (queue (after w s)) = map id (queue s)
    /\ map file_path (queue (after w s)) = map file_path (queue s)
    /\ (get_next_pending_task (queue s) = None ->
        queue (after w s) = queue s)
    /\ (forall (i : nat) (row : Row),
          nth_error (queue s) i = Some row ->
          exists row',
            nth_error (queue (after w s)) i = Some row'
            /\ same_task row row'
            /\ (forall task,
                  get_next_pending_task (queue s) = Some task ->
                  id row <> id task -> row' = row)
            /\ (primary_key (queue s) = true ->
                retry_count row <= retry_count row' <= retry_count row + 1
                /\ (status row <> Pending -> row' = row))).
Proof.
  intros w s.
  assert (forall r, same_task r r) as Hrefl
    by (intros r; unfold same_task; repeat split; reflexivity).
  destruct (process_one_task_queue w s)
    as [-> | (task & f & Hnext & -> & Hf)].
  - repeat split; auto.
    intros i row Hi. exists row. repeat split; auto; lia.
  - destruct (get_next_pending_task_some _ _ Hnext) as (Hin & Hst & _).
    split; [|split; [|split]].
    + unfold update_where. rewrite map_map. apply map_ext.
      intros r. destruct (has_id (id task) r); [apply Hf | reflexivity].
    + unfold update_where. rewrite map_map. apply map_ext.
      intros r. destruct (has_id (id task) r); [apply Hf | reflexivity].
    + congruence.
    + intros i row Hi. unfold update_where.
      rewrite nth_error_map, Hi. simpl. eexists. split; [reflexivity|].
      destruct (has_id (id task) row) eqn:E.
      * unfold has_id in E. apply Z.eqb_eq in E.
        split; [apply Hf|]. split.
        -- intros task' Hnext'. congruence.
        -- intros Hpk.
           assert (row = task) as ->.
           { apply (primary_key_inj (queue s)); auto.
             now apply (nth_error_In _ i). }
           split; [|congruence].
           destruct (Hf task) as (_ & [H | [H | H]]); lia.
      * repeat split; auto; lia.
Qed.

Lemma execute_task_transfers (w : World) (task : Row) (b : bool) :
  transfers (map (pair b) (rev (fst (Processor._execute_task w task)))) = []
  \/ transfers (map (pair b) (rev (fst (Processor._execute_task w task))))
     = [id task].
Proof.
  unfold Processor._execute_task, Processor._do_upload, Processor._do_copy.
  destruct (PyStr.eqb (operation_type task) (ustr "upload")); simpl; auto.
  destruct (PyStr.eqb (operation_type task) (ustr "copy")); simpl; auto.
  destruct (negb (truthy_opt (dest_local task))); simpl; auto.
Qed.

(** X13: a pass appends at most one entry to the history and never
    changes or removes one; it makes at most one transfer, for the task
    it fetched; and it deletes at most one source file, that of the
    fetched task, and only when the task's [delete_source] is set. *)
Theorem X13_pass_at_most_one_transfer_entry_and_deletion :
  forall (w : World) (s : State),
    (history (after w s) = history s
     \/ exists h, history (after w s) = history s ++ [h])
    /\ (transfers (trace (after w s)) = transfers (trace s)
        \/ exists task,
             get_next_pending_task (queue s) = Some task
             /\ transfers (trace (after w s))
                = id task :: transfers (trace s))
    /\ (deletions (trace (after w s)) = deletions (trace s)
        \/ exists task,
             get_next_pending_task (queue s) = Some task
             /\ delete_source task = true
             /\ deletions (trace (after w s))
                = file_path task :: deletions (trace s)).
Proof.
  intros w s. unfold_processor.
  destruct (is_processing s) eqn:Hidle; simpl; [auto|].
  split; [|split].
  - walk; trace_simpl; auto;
      unfold UploadHistory.record_upload; right; eexists; reflexivity.
  - walk; trace_simpl; auto;
      match goal with
      | |- context [transfers (map (pair ?b)
                      (rev (fst (Processor._execute_task ?w ?t))))] =>
          destruct (execute_task_transfers w t b) as [-> | ->]
      end; simpl; auto; right; eexists; split; reflexivity.
  - walk; trace_simpl; auto;
      right; eexists; repeat split; eauto.
Qed.

Lemma process_one_task_ids (w : World) (s : State) :
  map id (queue (after w s)) = map id (queue s).
Proof.
  destruct (process_one_task_queue w s)
    as [-> | (task & f & _ & -> & Hf)]; [reflexivity|].
  apply update_where_ids. intros r. apply Hf.
Qed.

Lemma process_one_task_primary_key (w : World) (s : State) :
  primary_key (queue (after w s)) = primary_key (queue s).
Proof. unfold primary_key. now rewrite process_one_task_ids. Qed.

(** X14: when a pass has fetched a task and marked it Processing and
    then returns [False], a statement after the claim has raised.  The
    task is then left Processing, or, when it was [record_upload] that
    raised, Completed with no history entry and its source still there;
    retry count and error message are as they were.  Later passes do not
    fetch it again: whatever they meet, its row stays as the fault left
    it. *)
Theorem X14_fault_after_the_claim_strands_the_task :
  forall (w : World) (s : State) (task : Row),
    is_processing s = false ->
    primary_key (queue s) = true ->
    fault w OpGetNextPending = None ->
    fault w OpMarkProcessing = None ->
    get_next_pending_task (queue s) = Some task ->
    fst (Processor.process_one_task w s) = inr false ->
    exists row,
      get (id task) (queue (after w s)) = Some row
      /\ same_task task row
      /\ retry_count row = retry_count task
      /\ error_message row = error_message task
      /\ history (after w s) = history s
      /\ deletions (trace (after w s)) = deletions (trace s)
      /\ ((status row = Processing
           /\ updated_at row = now w OpMarkProcessing)
          \/ (status row = Completed
              /\ updated_at row = now w OpMarkCompleted
              /\ fault w OpRecordUpload <> None))
      /\ (forall w' : World,
            get (id task) (queue (after w' (after w s))) = Some row).
Proof.
  intros w s task Hidle Hpk F1 F2 Hnext Hres.
  destruct (get_next_pending_task_some _ _ Hnext) as (Hint & _).
  assert (exists row,
      get (id task) (queue (after w s)) = Some row
      /\ same_task task row
      /\ retry_count row = retry_count task
      /\ error_message row = error_message task
      /\ history (after w s) = history s
      /\ deletions (trace (after w s)) = deletions (trace s)
      /\ ((status row = Processing
           /\ updated_at row = now w OpMarkProcessing)
          \/ (status row = Completed
              /\ updated_at row = now w OpMarkCompleted
              /\ fault w OpRecordUpload <> None))) as Hrow.
  { revert Hres. unfold_processor.
    rewrite Hidle; simpl. rewrite F1, Hnext; simpl. rewrite F2.
    walk; trace_simpl; intros Hres; try discriminate Hres;
      task_row Hpk Hint; eexists; (split; [reflexivity|]);
      unfold same_task; simpl;
      repeat split; auto;
      first [ left; split; reflexivity
            | right; repeat split; auto; discriminate ]. }
  destruct Hrow as (row & Hget & Hsame & Hrc & Hmsg & Hh & Hd & Hst).
  exists row. repeat split; try apply Hsame; auto.
  intros w'. rewrite process_one_task_frame; [exact Hget|].
  intros task' Hnext' Hid.
  destruct (get_next_pending_task_some _ _ Hnext') as (Hin' & Hst' & _).
  assert (primary_key (queue (after w s)) = true) as Hpk'
    by (now rewrite process_one_task_primary_key).
  pose proof (primary_key_get _ _ Hpk' Hin') as G.
  rewrite Hid, Hget in G. injection G as ->.
  destruct Hst as [[Hp _] | [Hc _]]; congruence.
Qed.

(** X15: recovery.  [reset_stale_tasks] leaves no row Processing and
    touches neither the history nor the flag; afterwards a task can be
    fetched unless every row was already Completed or Failed, so a task
    stranded in Processing is fetchable again; a second recovery changes
    nothing.  When the statement raises, the exception leaves the
    function, which has no handler, and nothing is written. *)
Theorem X15_recovery_makes_stranded_tasks_fetchable :
  forall (ts ts' : Z) (s : State) (e : Exn),
    fst (Processor.reset_stale_tasks None ts s) = inr tt
    /\ history (snd (Processor.reset_stale_tasks None ts s)) = history s
    /\ is_processing (snd (Processor.reset_stale_tasks None ts s))
       = is_processing s
    /\ (forall row,
          In row (queue (snd (Processor.reset_stale_tasks None ts s))) ->
          status row <> Processing)
    /\ (get_next_pending_task
          (queue (snd (Processor.reset_stale_tasks None ts s))) = None
        <-> forall r, In r (queue s) ->
                      status r = Completed \/ status r = Failed)
    /\ queue (snd (Processor.reset_stale_tasks None ts'
                     (snd (Processor.reset_stale_tasks None ts s))))
       = queue (snd (Processor.reset_stale_tasks None ts s))
    /\ Processor.reset_stale_tasks (Some e) ts s = (inl e, s).
Proof.
  intros ts ts' s e. unfold Processor.reset_stale_tasks.
  cbn [fst snd queue history is_processing set_queue].
  unfold reset_processing_tasks. cbn [snd].
  assert (forall row,
            In row (update_where (has_status Processing)
                      (values_status Pending ts) (queue s)) ->
            status row <> Processing) as Hnone.
  { intros row Hin. apply in_update_where in Hin.
    destruct Hin as (r & _ & ->).
    destruct (has_status Processing r) eqn:E; [simpl; discriminate|].
    now apply has_status_false. }
  repeat split; auto.
  - intros Hn r Hin.
    assert (In (if has_status Processing r
                then values_status Pending ts r else r)
               (update_where (has_status Processing)
                  (values_status Pending ts) (queue s))) as Hin'.
    { unfold update_where. apply in_map_iff. now exists r. }
    pose proof (proj1 (get_next_pending_task_none _) Hn _ Hin') as Hp.
    destruct (has_status Processing r) eqn:E; [simpl in Hp; congruence|].
    apply has_status_false in E. destruct (status r); auto; congruence.
  - intros Hall. apply get_next_pending_task_none.
    intros row Hin. apply in_update_where in Hin.
    destruct Hin as (r & Hr & ->).
    destruct (Hall r Hr) as [Hs | Hs];
      unfold has_status; rewrite Hs; simpl; congruence.
  - apply update_where_none. intros row Hin.
    apply has_status_false. now apply Hnone.
Qed.

(** ** The walk over the parents of a deleted source *)

Lemma components_nonempty (p c : pystr) : In c (components p) -> c <> [].
Proof.
  unfold components. intros H. apply filter_In in H.
  destruct H as [_ H]. apply andb_true_iff in H. destruct H as [H _].
  now destruct c.
Qed.

Lemma path_str_path_of (p : pystr) :
  path_str p = Processor.path_of (Processor.root_of p) (components p).
Proof.
  transitivity
    (match Processor.root_of p, components p with
     | [], [] => [dot]
     | _, cs => Processor.root_of p ++ join slash cs
     end); [reflexivity|].
  unfold Processor.path_of.
  destruct (Processor.root_of p), (components p); reflexivity.
Qed.

Lemma join_firstn_length (k : nat) (cs : list pystr) :
  (List.length (join slash (firstn k cs))
   <= List.length (join slash cs))%nat.
Proof.
  revert k. induction cs as [|c cs IH]; intros [|k]; simpl; try lia.
  specialize (IH k).
  destruct (firstn k cs) as [|x l] eqn:E; destruct cs as [|y cs'];
    simpl in *; rewrite ?length_app in *; simpl in *; try lia.
  destruct k; discriminate.
Qed.

Lemma path_of_firstn_length (root : pystr) (k : nat) (cs : list pystr) :
  (forall c, In c cs -> c <> []) ->
  (List.length (Processor.path_of root (firstn k cs))
   <= List.length (Processor.path_of root cs))%nat.
Proof.
  intros Hne. pose proof (join_firstn_length k cs) as Hj.
  unfold Processor.path_of.
  destruct root as [|r root].
  - destruct (firstn k cs) as [|x l] eqn:E; destruct cs as [|c cs'];
      simpl in *; try lia.
    assert (c <> []) by (apply Hne; now left).
    destruct c; [congruence|].
    destruct cs'; simpl; rewrite ?length_app; simpl; lia.
  - destruct (firstn k cs), cs; simpl in *; rewrite ?length_app in *;
      simpl in *; lia.
Qed.

Lemma parents_length (p a : pystr) :
  In a (Processor.parents p) ->
  (List.length a <= List.length (path_str p))%nat.
Proof.
  unfold Processor.parents. intros H. apply in_map_iff in H.
  destruct H as (k & <- & _). rewrite path_str_path_of.
  apply path_of_firstn_length. intros c. apply components_nonempty.
Qed.

Lemma remove_empty_parents_prefix list_files n dirs :
  exists rest,
    dirs = Processor.remove_empty_parents list_files n dirs ++ rest
    /\ (forall d, In d (Processor.remove_empty_parents list_files n dirs) ->
                  list_files d = Processor.NoFiles
                  /\ (n < List.length d)%nat)
    /\ (forall d rest', rest = d :: rest' ->
                        (List.length d <= n)%nat
                        \/ list_files d <> Processor.NoFiles).
Proof.
  induction dirs as [|d dirs IH]; simpl.
  - exists []. repeat split; try contradiction; discriminate.
  - destruct (List.length d <=? n)%nat eqn:E.
    + exists (d :: dirs). apply Nat.leb_le in E.
      repeat split; try contradiction.
      intros d' rest' [= <- _]. now left.
    + apply Nat.leb_gt in E. destruct (list_files d) eqn:L.
      * exists (d :: dirs). repeat split; try contradiction.
        intros d' rest' [= <- _]. right. congruence.
      * destruct IH as (rest & Hr & Hin & Hstop). exists rest.
        split; [simpl; now f_equal|]. split; [|exact Hstop].
        intros d' [<- | Hd']; [split; [assumption | lia] | now apply Hin].
      * exists (d :: dirs). repeat split; try contradiction.
        intros d' rest' [= <- _]. right. congruence.
Qed.

(** X16: the directories [_delete_source_file] removes are the nearest
    parents of the file, in order, up to the first one that has files,
    whose listing raises, or whose path string is not longer than that
    of the monitor root.  Each one removed was listed empty and is
    longer than the monitor root, so neither the monitor root nor any
    of its own parents is ever removed; and when the monitor root is a
    parent of the file, the walk ends before it. *)
Theorem X16_empty_parents_removed_below_the_monitor_root :
  forall (list_files : pystr -> Processor.Listing)
         (file_path monitor_path : pystr),
    exists rest,
      Processor.parents file_path
      = Processor.removed_dirs list_files file_path monitor_path ++ rest
      /\ (forall d,
            In d (Processor.removed_dirs list_files file_path monitor_path) ->
            list_files d = Processor.NoFiles
            /\ (List.length (path_str monitor_path) < List.length d)%nat
            /\ d <> path_str monitor_path
            /\ ~ In d (Processor.parents monitor_path))
      /\ (forall d rest', rest = d :: rest' ->
            (List.length d <= List.length (path_str monitor_path))%nat
            \/ list_files d <> Processor.NoFiles)
      /\ (In (path_str monitor_path) (Processor.parents file_path) ->
          In (path_str monitor_path) rest).
Proof.
  intros list_files file_path monitor_path. unfold Processor.removed_dirs.
  destruct (remove_empty_parents_prefix list_files
              (List.length (path_str monitor_path))
              (Processor.parents file_path))
    as (rest & Hsplit & Hin & Hstop).
  exists rest. split; [exact Hsplit|].
  assert (forall d,
            In d (Processor.remove_empty_parents list_files
                    (List.length (path_str monitor_path))
                    (Processor.parents file_path)) ->
            d <> path_str monitor_path) as Hneq.
  { intros d Hd ->. apply Hin in Hd. lia. }
  split; [|split; [exact Hstop|]].
  - intros d Hd. destruct (Hin d Hd) as [Hl Hlen].
    repeat split; auto.
    intros Hp. apply parents_length in Hp. lia.
  - intros Hmon. rewrite Hsplit in Hmon. apply in_app_or in Hmon.
    destruct Hmon as [Hmon | Hmon]; [|exact Hmon].
    exfalso. now apply (Hneq _ Hmon).
Qed.

(* ================================================================== *)
(** * Further properties: the enqueuer *)
(* ================================================================== *)

Lemma is_file_stable_spec (w : World) (p : pystr) (s : State) :
  exists s1,
    Monitor.is_file_stable w p s = (inr (Monitor.stable_samples w p), s1)
    /\ queue s1 = queue s /\ history s1 = history s
    /\ is_processing s1 = is_processing s
    /\ transfers (trace s1) = transfers (trace s)
    /\ deletions (trace s1) = deletions (trace s).
Proof.
  unfold Monitor.is_file_stable, Monitor.stable_samples, try_except, bind,
    emit, ret, raise.
  destruct (sample1 w p); simpl; try (eexists; repeat split; reflexivity).
  destruct (sample2 w p); simpl; eexists; repeat split; reflexivity.
Qed.

(** Case analysis along [enqueue_file], with the stability check replaced
    by its value. *)
Ltac walk_enqueue_spec :=
  repeat (simpl;
    match goal with
    | |- context [match fault ?w ?op with _ => _ end] =>
        destruct (fault w op) eqn:?
    | |- context [Monitor.is_file_stable ?w ?p ?s0] =>
        let s1 := fresh "s1" in
        let Hst := fresh "Hst" in
        destruct (is_file_stable_spec w p s0)
          as (s1 & Hst & ? & ? & ? & ? & ?);
        rewrite Hst
    | |- context [if ?b then _ else _] => destruct b eqn:?
    | |- context [match Monitor.match_config ?a ?b with _ => _ end] =>
        destruct (Monitor.match_config a b) eqn:?
    | |- context [match Monitor.classify ?a ?b ?c ?d ?e with _ => _ end] =>
        destruct (Monitor.classify a b c d e) eqn:?
    | |- context [match create_task ?a ?b ?c ?d ?e ?f ?g ?h ?i ?j ?k
                  with _ => _ end] =>
        destruct (create_task a b c d e f g h i j k) eqn:?
    end).

(** What a call of [enqueue_file] does: it leaves the history, the flag,
    and the record of transfers and deletions alone, and either leaves
    the queue alone or every check has passed and [create_task] has
    succeeded. *)
Lemma enqueue_file_cases (w : World) (event_path mon_path : pystr)
    (s : State) :
  history (enqueued w event_path mon_path s) = history s
  /\ is_processing (enqueued w event_path mon_path s) = is_processing s
  /\ transfers (trace (enqueued w event_path mon_path s))
     = transfers (trace s)
  /\ deletions (trace (enqueued w event_path mon_path s))
     = deletions (trace s)
  /\ (queue (enqueued w event_path mon_path s) = queue s
      \/ exists item op,
           quiet w [OpPathExists; OpLock; OpStat; OpIsUploaded;
                    OpExistsInQueue; OpConfigPaths; OpConfigUploadExt;
                    OpConfigCopyExt; OpCreateTask] = true
           /\ path_exists w event_path = true
           /\ Monitor.is_recycle_or_hidden event_path = false
           /\ Monitor.is_bluray event_path = false
           /\ Monitor.stable_samples w event_path = true
           /\ UploadHistory.is_uploaded
                (str_of_Z (fst (stat w event_path)) ++ ustr "_"
                 ++ str_of_Z (snd (stat w event_path)))
                (fst (stat w event_path)) (history s) = false
           /\ exists_in_queue (path_str event_path) (queue s) = false
           /\ Monitor.match_config mon_path (config_paths w) = Some item
           /\ Monitor.classify (Monitor.file_suffix w event_path)
                (Monitor.parse_exts (config_uploadext w))
                (Monitor.parse_exts (config_copyext w))
                (cfg_dest_remote item) (cfg_dest_local item) = Some op
           /\ create_task (path_str event_path) (name event_path)
                (fst (stat w event_path)) (snd (stat w event_path))
                mon_path op
                (if PyStr.eqb op (ustr "upload")
                 then Some (cfg_dest_remote item) else None)
                (if PyStr.eqb op (ustr "copy")
                 then Some (cfg_dest_local item) else None)
                (delete item) (now w OpCreateTask) (queue s)
              = Some (queue (enqueued w event_path mon_path s))).
Proof.
  unfold enqueued, Monitor.enqueue_file, try_except, Monitor.enqueue_handler,
    Monitor.enqueue_body, bind, query, ret, emit, Monitor.create_task_stmt,
    quiet.
  walk_enqueue_spec; simpl;
    repeat match goal with
           | H : negb _ = false |- _ => apply negb_false_iff in H
           | H : negb _ = true |- _ => apply negb_true_iff in H
           end;
    repeat (split; [congruence|]);
    try (left; congruence);
    right; eexists; eexists; repeat split; eauto; try congruence;
    repeat match goal with
           | H : PyStr.eqb _ _ = _ |- _ => rewrite H; clear H
           end;
    congruence.
Qed.

Lemma create_task_inv (path fname : pystr) (size mtime : Z) (mon op : pystr)
    (remote local_ : option pystr) (del : bool) (ts : Z) (t t' : Table) :
  create_task path fname size mtime mon op remote local_ del ts t = Some t' ->
  (forall r, In r t -> file_path r <> path)
  /\ t' = t ++ [ {| id := next_id t; file_path := path;
                    file_name := fname; file_size := size;
                    file_mtime := mtime; monitor_path := mon;
                    dest_remote := remote; dest_local := local_;
                    operation_type := op; delete_source := del;
                    status := Pending; retry_count := 0;
                    error_message := None;
                    created_at := ts; updated_at := ts |} ].
Proof.
  unfold create_task.
  destruct (existsb (fun r => PyStr.eqb (file_path r) path) t) eqn:E;
    [discriminate|].
  intros [= <-]. split; [|reflexivity].
  intros r Hin Hp.
  assert (existsb (fun r => PyStr.eqb (file_path r) path) t = true)
    by (apply path_present; now exists r).
  congruence.
Qed.

Lemma create_task_keys (path fname : pystr) (size mtime : Z) (mon op : pystr)
    (remote local_ : option pystr) (del : bool) (ts : Z) (t t' : Table) :
  create_task path fname size mtime mon op remote local_ del ts t = Some t' ->
  (primary_key t = true -> primary_key t' = true)
  /\ (unique_paths t = true -> unique_paths t' = true).
Proof.
  intros H. apply create_task_inv in H. destruct H as [Hfresh ->].
  split.
  - unfold primary_key. rewrite map_app. simpl. intros Hd.
    apply distinct_app_fresh; [assumption|].
    intros y Hy Heq. apply in_map_iff in Hy.
    destruct Hy as (r & <- & Hin).
    pose proof (next_id_above t r Hin). lia.
  - unfold unique_paths. rewrite map_app. simpl. intros Hd.
    apply distinct_paths_app_fresh; [assumption|].
    intros Hin. apply in_map_iff in Hin. destruct Hin as (r & Hp & Hin).
    now apply (Hfresh r).
Qed.

(** X17: a call of [enqueue_file], in any world, leaves the history, the
    processor's flag and the record of transfers and deletions as they
    are, and either leaves the queue as it is or appends exactly one
    row: Pending, retry count 0, no error message, with the normalised
    path, the file name, the monitor root, the size and mtime of the
    stat, and both timestamps at the clock read.  The primary key and
    the unique index on the path survive the call. *)
Theorem X17_enqueue_file_appends_at_most_one_pending_row :
  forall (w : World) (event_path mon_path : pystr) (s : State),
    history (enqueued w event_path mon_path s) = history s
    /\ is_processing (enqueued w event_path mon_path s) = is_processing s
    /\ transfers (trace (enqueued w event_path mon_path s))
       = transfers (trace s)
    /\ deletions (trace (enqueued w event_path mon_path s))
       = deletions (trace s)
    /\ (queue (enqueued w event_path mon_path s) = queue s
        \/ exists row,
             queue (enqueued w event_path mon_path s) = queue s ++ [row]
             /\ status row = Pending /\ retry_count row = 0
             /\ error_message row = None
             /\ file_path row = path_str event_path
             /\ file_name row = name event_path
             /\ monitor_path row = mon_path
             /\ file_size row = fst (stat w event_path)
             /\ file_mtime row = snd (stat w event_path)
             /\ created_at row = now w OpCreateTask
             /\ updated_at row = now w OpCreateTask)
    /\ (primary_key (queue s) = true ->
        primary_key (queue (enqueued w event_path mon_path s)) = true)
    /\ (unique_paths (queue s) = true ->
        unique_paths (queue (enqueued w event_path mon_path s)) = true).
Proof.
  intros w event_path mon_path s.
  destruct (enqueue_file_cases w event_path mon_path s)
    as (Hh & Hp & Ht & Hd & Hq).
  repeat (split; [assumption|]).
  destruct Hq as [-> | (item & op & _ & _ & _ & _ & _ & _ & _ & _ & _ & Hc)].
  - split; [now left|]. split; auto.
  - pose proof (create_task_keys _ _ _ _ _ _ _ _ _ _ _ _ Hc) as [Hpk Hu].
    split; [|split; assumption].
    right. apply create_task_inv in Hc. destruct Hc as [_ ->].
    eexists. split; [reflexivity|]. simpl. repeat split; reflexivity.
Qed.

Lemma stable_samples_true (w : World) (p : pystr) :
  Monitor.stable_samples w p = true <->
  exists n, sample1 w p = Size n /\ sample2 w p = Size n /\ 0 < n.
Proof.
  unfold Monitor.stable_samples. split.
  - destruct (sample1 w p) as [|a|]; try discriminate.
    destruct (sample2 w p) as [|b|]; try discriminate.
    rewrite andb_true_iff, Z.eqb_eq, Z.gtb_lt. intros [-> H].
    exists b. auto.
  - intros (n & -> & -> & H).
    rewrite andb_true_iff, Z.eqb_eq, Z.gtb_lt. auto.
Qed.

Lemma classify_some (sfx : pystr) (ue ce : list pystr) (dr dl op : pystr) :
  Monitor.classify sfx ue ce dr dl = Some op <->
  (In sfx ue /\ dr <> [] /\ op = ustr "upload")
  \/ (~ In sfx ue /\ In sfx ce /\ dl <> [] /\ op = ustr "copy").
Proof.
  unfold Monitor.classify.
  destruct (mem sfx ue) eqn:Eu.
  - apply mem_In in Eu. destruct dr; simpl; split.
    + discriminate.
    + intros [(_ & H & _) | (H & _)]; [congruence | contradiction].
    + intros [= <-]. left. repeat split; auto. discriminate.
    + intros [(_ & _ & ->) | (H & _)]; [reflexivity | contradiction].
  - apply mem_false in Eu. destruct (mem sfx ce) eqn:Ec.
    + apply mem_In in Ec. destruct dl; simpl; split.
      * discriminate.
      * intros [(H & _) | (_ & _ & H & _)]; [contradiction | congruence].
      * intros [= <-]. right. repeat split; auto. discriminate.
      * intros [(H & _) | (_ & _ & _ & ->)]; [contradiction | reflexivity].
    + apply mem_false in Ec. split; [discriminate|].
      intros [(H & _) | (_ & H & _)]; contradiction.
Qed.

Lemma match_config_some (mon : pystr) (items : list (option ConfigItem))
    (item : ConfigItem) :
  Monitor.match_config mon items = Some item ->
  In (Some item) items /\ src item = mon.
Proof.
  induction items as [|[i|] items IH]; simpl; [discriminate| |].
  - destruct (PyStr.eqb mon (src i)) eqn:E.
    + intros [= ->]. apply pystr_eqb_eq in E. auto.
    + intros H. destruct (IH H). auto.
  - intros H. destruct (IH H). auto.
Qed.

(** When every check passes and nothing raises, the task is created. *)
Lemma enqueue_file_complete (w : World) (event_path mon_path : pystr)
    (s : State) (item : ConfigItem) (op : pystr) (t' : Table) :
  quiet w [OpPathExists; OpLock; OpStat; OpIsUploaded; OpExistsInQueue;
           OpConfigPaths; OpConfigUploadExt; OpConfigCopyExt;
           OpCreateTask] = true ->
  path_exists w event_path = true ->
  Monitor.is_recycle_or_hidden event_path = false ->
  Monitor.is_bluray event_path = false ->
  Monitor.stable_samples w event_path = true ->
  UploadHistory.is_uploaded
    (str_of_Z (fst (stat w event_path)) ++ ustr "_"
     ++ str_of_Z (snd (stat w event_path)))
    (fst (stat w event_path)) (history s) = false ->
  exists_in_queue (path_str event_path) (queue s) = false ->
  Monitor.match_config mon_path (config_paths w) = Some item ->
  Monitor.classify (Monitor.file_suffix w event_path)
    (Monitor.parse_exts (config_uploadext w))
    (Monitor.parse_exts (config_copyext w))
    (cfg_dest_remote item) (cfg_dest_local item) = Some op ->
  create_task (path_str event_path) (name event_path)
    (fst (stat w event_path)) (snd (stat w event_path)) mon_path op
    (if PyStr.eqb op (ustr "upload")
     then Some (cfg_dest_remote item) else None)
    (if PyStr.eqb op (ustr "copy")
     then Some (cfg_dest_local item) else None)
    (delete item) (now w OpCreateTask) (queue s) = Some t' ->
  queue (enqueued w event_path mon_path s) = t'.
Proof.
  intros Hq Hex Hrec Hblu Hstable Hup Hinq Hcfg Hcl Hcreate.
  quiet_facts Hq.
  destruct (is_file_stable_spec w event_path s)
    as (s1 & Hst & Hq1 & Hh1 & _).
  rewrite <- Hq1 in Hinq, Hcreate. rewrite <- Hh1 in Hup.
  unfold enqueued, Monitor.enqueue_file, try_except, Monitor.enqueue_handler,
    Monitor.enqueue_body, bind, query, ret, emit, Monitor.create_task_stmt.
  simpl in Hup. follow. reflexivity.
Qed.

Lemma create_task_fresh (path fname : pystr) (size mtime : Z) (mon op : pystr)
    (remote local_ : option pystr) (del : bool) (ts : Z) (t : Table) :
  (forall r, In r t -> file_path r <> path) ->
  exists row,
    create_task path fname size mtime mon op remote local_ del ts t
    = Some (t ++ [row]).
Proof.
  intros Hfresh. unfold create_task.
  destruct (existsb (fun r => PyStr.eqb (file_path r) path) t) eqn:E.
  - apply path_present in E. destruct E as (r & Hin & Hp).
    exfalso. now apply (Hfresh r).
  - eexists. reflexivity.
Qed.

Lemma app_one_neq {A} (l : list A) (x : A) : l ++ [x] <> l.
Proof.
  intros H. apply (f_equal (@List.length A)) in H.
  rewrite length_app in H. simpl in H. lia.
Qed.

(** X18: [enqueue_file] adds a row exactly when none of its statements
    raises, the path exists and carries no recycle-bin, hidden-file or
    Blu-ray marker, the two size samples are equal and positive, the
    history has no entry for the size and mtime of the stat, no row of
    the queue, in whatever status, has the path, some entry of the
    configuration has the monitor root as its source, and the
    lower-cased suffix is in the upload list with a remote destination
    configured, or not in it but in the copy list with a local
    destination configured. *)
Theorem X18_enqueue_file_adds_a_row_exactly_past_every_check :
  forall (w : World) (event_path mon_path : pystr) (s : State),
    queue (enqueued w event_path mon_path s) <> queue s
    <->
    quiet w [OpPathExists; OpLock; OpStat; OpIsUploaded; OpExistsInQueue;
             OpConfigPaths; OpConfigUploadExt; OpConfigCopyExt;
             OpCreateTask] = true
    /\ path_exists w event_path = true
    /\ Monitor.is_recycle_or_hidden event_path = false
    /\ Monitor.is_bluray event_path = false
    /\ (exists n, sample1 w event_path = Size n
                  /\ sample2 w event_path = Size n /\ 0 < n)
    /\ UploadHistory.is_uploaded
         (str_of_Z (fst (stat w event_path)) ++ ustr "_"
          ++ str_of_Z (snd (stat w event_path)))
         (fst (stat w event_path)) (history s) = false
    /\ (forall r, In r (queue s) -> file_path r <> path_str event_path)
    /\ exists item,
         Monitor.match_config mon_path (config_paths w) = Some item
         /\ ((In (Monitor.file_suffix w event_path)
                 (Monitor.parse_exts (config_uploadext w))
              /\ cfg_dest_remote item <> [])
             \/ (~ In (Monitor.file_suffix w event_path)
                      (Monitor.parse_exts (config_uploadext w))
                 /\ In (Monitor.file_suffix w event_path)
                       (Monitor.parse_exts (config_copyext w))
                 /\ cfg_dest_local item <> [])).
Proof.
  intros w event_path mon_path s. split.
  - intros Hneq.
    destruct (enqueue_file_cases w event_path mon_path s)
      as (_ & _ & _ & _ & [Hq | Hq]); [contradiction|].
    destruct Hq as (item & op & Hquiet & Hex & Hrec & Hblu & Hst & Hup
                    & Hinq & Hcfg & Hcl & Hcreate).
    repeat (split; [assumption|]).
    split; [now apply stable_samples_true|].
    split; [assumption|].
    split; [now apply (create_task_inv _ _ _ _ _ _ _ _ _ _ _ _ Hcreate)|].
    exists item. split; [assumption|].
    apply classify_some in Hcl. tauto.
  - intros (Hquiet & Hex & Hrec & Hblu & Hst & Hup & Hfresh
            & item & Hcfg & Hcl).
    apply stable_samples_true in Hst.
    assert (exists op,
              Monitor.classify (Monitor.file_suffix w event_path)
                (Monitor.parse_exts (config_uploadext w))
                (Monitor.parse_exts (config_copyext w))
                (cfg_dest_remote item) (cfg_dest_local item) = Some op)
      as (op & Hop).
    { destruct Hcl as [(H1 & H2) | (H1 & H2 & H3)];
        eexists; apply classify_some; [left | right]; eauto. }
    assert (exists_in_queue (path_str event_path) (queue s) = false) as Hinq.
    { apply exists_in_queue_false. intros r Hin Hp.
      exfalso. now apply (Hfresh r). }
    destruct (create_task_fresh (path_str event_path) (name event_path)
                (fst (stat w event_path)) (snd (stat w event_path))
                mon_path op
                (if PyStr.eqb op (ustr "upload")
                 then Some (cfg_dest_remote item) else None)
                (if PyStr.eqb op (ustr "copy")
                 then Some (cfg_dest_local item) else None)
                (delete item) (now w OpCreateTask) (queue s) Hfresh)
      as (row & Hcreate).
    rewrite (enqueue_file_complete w event_path mon_path s item op _
               Hquiet Hex Hrec Hblu Hst Hup Hinq Hcfg Hop Hcreate).
    apply app_one_neq.
Qed.

(** X19: the row [enqueue_file] appends takes its deletion flag from the
    first configuration entry whose source is the monitor root, and its
    destination fits its operation: an upload has that entry's remote
    destination, which is not empty, and no local one; a copy has its
    local destination, which is not empty, and no remote one; there is
    no third operation type. *)
Theorem X19_enqueued_row_has_the_destination_of_its_operation :
  forall (w : World) (event_path mon_path : pystr) (s : State) (row : Row),
    queue (enqueued w event_path mon_path s) = queue s ++ [row] ->
    exists item,
      Monitor.match_config mon_path (config_paths w) = Some item
      /\ In (Some item) (config_paths w) /\ src item = mon_path
      /\ delete_source row = delete item
      /\ ((operation_type row = ustr "upload"
           /\ dest_remote row = Some (cfg_dest_remote item)
           /\ cfg_dest_remote item <> []
           /\ dest_local row = None)
          \/ (operation_type row = ustr "copy"
              /\ dest_local row = Some (cfg_dest_local item)
              /\ cfg_dest_local item <> []
              /\ dest_remote row = None)).
Proof.
  intros w event_path mon_path s row Hrow.
  destruct (enqueue_file_cases w event_path mon_path s)
    as (_ & _ & _ & _ & [Hq | Hq]).
  - rewrite Hq in Hrow. symmetry in Hrow. now apply app_one_neq in Hrow.
  - destruct Hq as (item & op & _ & _ & _ & _ & _ & _ & _ & Hcfg & Hcl
                    & Hcreate).
    apply create_task_inv in Hcreate. destruct Hcreate as [_ Hcreate].
    rewrite Hrow in Hcreate. apply app_inv_head in Hcreate.
    injection Hcreate as ->.
    exists item. destruct (match_config_some _ _ _ Hcfg) as [Hin Hsrc].
    repeat (split; [assumption|]). split; [reflexivity|].
    apply classify_some in Hcl.
    destruct Hcl as [(_ & Hd & ->) | (_ & _ & Hd & ->)]; simpl.
    + left. repeat split; auto.
    + right. repeat split; auto.
Qed.

(** X20: once a pass has transferred a task, a file with the size and
    mtime of that task is not enqueued again, whatever its path and
    whatever the world of the later call: the queue stays as the pass
    left it. *)
Theorem X20_transferred_file_is_not_enqueued_again :
  forall (w w' : World) (s : State) (task : Row)
         (event_path mon_path : pystr),
    is_processing s = false ->
    primary_key (queue s) = true ->
    quiet w [OpGetNextPending; OpMarkProcessing; OpPathExists;
             OpIsUploaded; OpMarkCompleted; OpRecordUpload] = true ->
    get_next_pending_task (queue s) = Some task ->
    path_exists w (file_path task) = true ->
    UploadHistory.is_uploaded (Processor.fingerprint task) (file_size task)
      (history s) = false ->
    fst (snd (Processor._execute_task w task)) = true ->
    stat w' event_path = (file_size task, file_mtime task) ->
    queue (enqueued w' event_path mon_path (after w s)) = queue (after w s).
Proof.
  intros w w' s task event_path mon_path Hidle Hpk Hq Hnext Hex Hup Hok
         Hstat.
  pose proof (successful_pass_historized w s task Hidle Hpk Hq Hnext Hex
                Hup Hok) as Hdone.
  destruct (enqueue_file_cases w' event_path mon_path (after w s))
    as (_ & _ & _ & _ & [Hsame | Hadd]); [exact Hsame|].
  destruct Hadd as (item & op & _ & _ & _ & _ & _ & Hnot & _).
  rewrite Hstat in Hnot. cbn [fst snd] in Hnot.
  unfold Processor.fingerprint in Hdone. congruence.
Qed.

(** X21: [enqueue_file] is idempotent on the queue: a second call for
    the same path and monitor root in the same world adds nothing to
    what the first call left. *)
Theorem X21_enqueue_file_twice_adds_nothing_more :
  forall (w : World) (event_path mon_path : pystr) (s : State),
    queue (enqueued w event_path mon_path (enqueued w event_path mon_path s))
    = queue (enqueued w event_path mon_path s).
Proof.
  intros w event_path mon_path s.
  destruct (enqueue_file_cases w event_path mon_path s)
    as (Hh & _ & _ & _ & Hq).
  destruct (enqueue_file_cases w event_path mon_path
              (enqueued w event_path mon_path s))
    as (_ & _ & _ & _ & [Hsame | Hadd]); [exact Hsame|].
  destruct Hadd as (item & op & Hquiet & Hex & Hrec & Hblu & Hst & Hup
                    & Hinq & Hcfg & Hcl & Hcreate).
  destruct Hq as [Hq | Hq].
  - rewrite Hq in Hinq, Hcreate. rewrite Hh in Hup.
    symmetry.
    exact (enqueue_file_complete w event_path mon_path s item op _
             Hquiet Hex Hrec Hblu Hst Hup Hinq Hcfg Hcl Hcreate).
  - exfalso.
    destruct Hq as (item0 & op0 & _ & _ & _ & _ & _ & _ & _ & _ & _ & Hc0).
    apply create_task_inv in Hc0. destruct Hc0 as [_ Hc0].
    apply create_task_inv in Hcreate. destruct Hcreate as [Hfresh _].
    rewrite Hc0 in Hfresh.
    eapply Hfresh; [apply in_or_app; right; left; reflexivity|].
    reflexivity.
Qed.

(** ** Exclusion and suffix edge cases *)

Lemma ci_lower (letter c : N) :
  Monitor.ci letter (lower_cp c) = Monitor.ci letter c.
Proof.
  unfold Monitor.ci. rewrite lower_cp_idem.
  now rewrite (lower_cp_fixed c 383) by lia.
Qed.

Lemma sep_class_lower (c : N) :
  Monitor.sep_class (lower_cp c) = Monitor.sep_class c.
Proof.
  unfold Monitor.sep_class, slash, backslash.
  now rewrite (lower_cp_fixed c 47), (lower_cp_fixed c 92) by lia.
Qed.

Lemma match_here_lower (pat : list (N -> bool)) (s : pystr) :
  (forall p c, In p pat -> p (lower_cp c) = p c) ->
  Monitor.match_here pat (ascii_lower s) = Monitor.match_here pat s.
Proof.
  revert s. induction pat as [|p pat IH]; intros s Hp; [reflexivity|].
  destruct s as [|c s]; [reflexivity|]. simpl.
  rewrite Hp by now left. f_equal. apply IH.
  intros q d Hq. apply Hp. now right.
Qed.

Lemma search_lower (pat : list (N -> bool)) (s : pystr) :
  (forall p c, In p pat -> p (lower_cp c) = p c) ->
  Monitor.search pat (ascii_lower s) = Monitor.search pat s.
Proof.
  intros Hp. induction s as [|c s IH].
  - reflexivity.
  - change (ascii_lower (c :: s)) with (lower_cp c :: ascii_lower s).
    cbn [Monitor.search]. rewrite IH. f_equal.
    exact (match_here_lower pat (c :: s) Hp).
Qed.

Lemma match_here_app (pat : list (N -> bool)) (m b : pystr) :
  Monitor.match_here pat m = true -> Monitor.match_here pat (m ++ b) = true.
Proof.
  revert m. induction pat as [|p pat IH]; intros m; [reflexivity|].
  destruct m as [|c m]; simpl; [discriminate|].
  rewrite !andb_true_iff. intros [H1 H2]. split; auto.
Qed.

Lemma search_app (pat : list (N -> bool)) (a s : pystr) :
  Monitor.match_here pat s = true -> Monitor.search pat (a ++ s) = true.
Proof.
  intros H. induction a as [|c a IH]; simpl.
  - destruct s; simpl in *; rewrite H; reflexivity.
  - rewrite IH. apply orb_true_r.
Qed.

(** X22: the Blu-ray check does not depend on the ASCII letter case of
    the path, and it fires on [BDMV/STREAM] and on [BDMV\STREAM] wherever
    they stand in the path. *)
Theorem X22_bluray_check_ignores_letter_case :
  forall (p a b : pystr),
    Monitor.is_bluray (ascii_lower p) = Monitor.is_bluray p
    /\ Monitor.is_bluray (a ++ ustr "BDMV/STREAM" ++ b) = true
    /\ Monitor.is_bluray (a ++ ustr "bdmv\stream" ++ b) = true.
Proof.
  intros p a b. unfold Monitor.is_bluray. split; [|split].
  - apply search_lower. intros q c Hq.
    apply in_app_or in Hq. destruct Hq as [Hq | Hq].
    + apply in_map_iff in Hq. destruct Hq as (l & <- & _). apply ci_lower.
    + destruct Hq as [<- | Hq]; [apply sep_class_lower|].
      apply in_map_iff in Hq. destruct Hq as (l & <- & _). apply ci_lower.
  - apply search_app. apply match_here_app. vm_compute. reflexivity.
  - apply search_app. apply match_here_app. vm_compute. reflexivity.
Qed.

Lemma suffix_from_shape (n s : pystr) :
  suffix_from n = Some s -> exists t, s = dot :: t /\ ~ In dot t.
Proof.
  revert s. induction n as [|c n IH]; simpl; [discriminate|].
  intros s. destruct (suffix_from n) as [s'|] eqn:E.
  - intros [= <-]. now apply IH.
  - destruct (N.eqb_spec c dot) as [-> | Hc]; [|discriminate].
    intros [= <-]. exists n. split; [reflexivity|].
    clear IH. revert E. induction n as [|d n IHn]; simpl; [tauto|].
    destruct (suffix_from n); [discriminate|].
    destruct (N.eqb_spec d dot); [discriminate|].
    intros _ [H | H]; [congruence | now apply IHn].
Qed.

Lemma file_suffix_shape (w : World) (p : pystr) :
  Monitor.file_suffix w p = []
  \/ exists x t, Monitor.file_suffix w p = dot :: x :: t /\ x <> dot.
Proof.
  unfold Monitor.file_suffix, lower, suffix, suffix_of_name.
  destruct (name p) as [|c r]; [now left|].
  destruct (suffix_from r) as [[|a [|x t]]|] eqn:E; try (now left).
  right. apply suffix_from_shape in E.
  destruct E as (t' & [= -> <-] & Hnot).
  assert (x <> dot) as Hx by (intros ->; apply Hnot; now left).
  destruct (lower_from_head (case_table w) [dot] x t Hx)
    as (y & t1 & Heq & Hy).
  exists y, t1. split; [|exact Hy].
  change (lower_from (case_table w) [] (dot :: x :: t))
    with (dot :: lower_from (case_table w) [dot] (x :: t)).
  now rewrite Heq.
Qed.

(** X23: a file without a suffix is never classified, whatever the two
    lists hold; and no file matches the entry ["."] that a blank piece
    of a list gives (an empty list, a trailing comma), nor an entry that
    was written with its own dot and so starts with two. *)
Theorem X23_files_without_suffix_and_dotted_entries_match_nothing :
  forall (w : World) (path : pystr),
    (forall (upload_cfg copy_cfg dest_remote dest_local : pystr),
        suffix path = [] ->
        Monitor.classify (Monitor.file_suffix w path)
          (Monitor.parse_exts upload_cfg) (Monitor.parse_exts copy_cfg)
          dest_remote dest_local = None)
    /\ Monitor.file_suffix w path <> [dot]
    /\ (forall e, Monitor.file_suffix w path <> dot :: dot :: e).
Proof.
  intros w path.
  assert (Monitor.file_suffix w path <> [dot]) as H1.
  { destruct (file_suffix_shape w path) as [-> | (x & t & -> & _)];
      discriminate. }
  assert (forall e, Monitor.file_suffix w path <> dot :: dot :: e) as H2.
  { intros e.
    destruct (file_suffix_shape w path) as [-> | (x & t & -> & Hx)];
      [discriminate|]. intros [= -> _]. now apply Hx. }
  split; [|split; [exact H1|exact H2]].
  intros u c dr dl Hs. unfold Monitor.file_suffix, lower. rewrite Hs. simpl.
  assert (forall cfg, mem [] (Monitor.parse_exts cfg) = false) as Hno.
  { intros cfg. apply mem_false. unfold Monitor.parse_exts.
    intros Hin. apply in_map_iff in Hin.
    destruct Hin as (e & He & _). discriminate. }
  unfold Monitor.classify. now rewrite !Hno.
Qed.

(** The transfer method of a task that [enqueue_file] has created. *)
Lemma enqueued_task_method (w w' : World) (event_path mon_path : pystr)
    (s : State) (row : Row) :
  queue (enqueued w event_path mon_path s) = queue s ++ [row] ->
  (operation_type row = ustr "upload"
   /\ Processor._execute_task w' row
      = ([EvUpload (id row)], do_upload w' row))
  \/ (operation_type row = ustr "copy"
      /\ truthy_opt (dest_local row) = true
      /\ Processor._execute_task w' row
         = ([EvCopy (id row)], do_copy w' row)).
Proof.
  intros Hrow.
  destruct (enqueue_file_cases w event_path mon_path s)
    as (_ & _ & _ & _ & [Hq | Hq]).
  - rewrite Hq in Hrow. symmetry in Hrow. now apply app_one_neq in Hrow.
  - destruct Hq as (item & op & _ & _ & _ & _ & _ & _ & _ & Hcfg & Hcl
                    & Hcreate).
    apply create_task_inv in Hcreate. destruct Hcreate as [_ Hcreate].
    rewrite Hrow in Hcreate. apply app_inv_head in Hcreate.
    injection Hcreate as ->.
    apply classify_some in Hcl.
    destruct Hcl as [(_ & Hd & ->) | (_ & _ & Hd & ->)].
    + left. split; [reflexivity|].
      unfold Processor._execute_task. reflexivity.
    + right. split; [reflexivity|].
      unfold Processor._execute_task, Processor._do_copy.
      cbn [operation_type dest_local id].
      change (PyStr.eqb (ustr "copy") (ustr "upload")) with false.
      change (PyStr.eqb (ustr "copy") (ustr "copy")) with true.
      cbn [truthy_opt]. destruct (cfg_dest_local item); [congruence|].
      split; reflexivity.
Qed.

(** X24: for a task that [enqueue_file] has created, [_execute_task]
    never returns from one of its own failure branches: the operation
    type is one of the two it knows, and a copy task has its local
    destination.  It runs [_do_upload] for an upload task, and [_do_copy]
    past the destination check for a copy task, once, and returns what
    that method returns (which may still be a failure of the method:
    a path outside the monitor root, a folder that cannot be made, the
    transfer itself).  So a pass that fetches such a task, finds its
    file and no history entry for it, records one transfer attempt for
    it, whatever the pass does afterwards. *)
Theorem X24_enqueued_task_gets_to_its_transfer_method :
  forall (w w' : World) (event_path mon_path : pystr) (s : State)
         (row : Row),
    queue (enqueued w event_path mon_path s) = queue s ++ [row] ->
    ((operation_type row = ustr "upload"
      /\ Processor._execute_task w' row
         = ([EvUpload (id row)], do_upload w' row))
     \/ (operation_type row = ustr "copy"
         /\ truthy_opt (dest_local row) = true
         /\ Processor._execute_task w' row
            = ([EvCopy (id row)], do_copy w' row)))
    /\ (forall s' : State,
          is_processing s' = false ->
          quiet w' [OpGetNextPending; OpMarkProcessing; OpPathExists;
                    OpIsUploaded] = true ->
          get_next_pending_task (queue s') = Some row ->
          path_exists w' (file_path row) = true ->
          UploadHistory.is_uploaded (Processor.fingerprint row)
            (file_size row) (history s') = false ->
          transfers (trace (after w' s')) = id row :: transfers (trace s')).
Proof.
  intros w w' event_path mon_path s row Hrow.
  pose proof (enqueued_task_method w w' event_path mon_path s row Hrow)
    as Hm.
  split; [exact Hm|].
  intros s' Hidle Hq Hnext Hex Hup.
  assert (forall b, transfers (map (pair b)
                      (rev (fst (Processor._execute_task w' row))))
                    = [id row]) as Hev.
  { intros b. destruct Hm as [(_ & ->) | (_ & _ & ->)]; reflexivity. }
  quiet_facts Hq.
  unfold_processor. follow.
  walk; trace_simpl; rewrite ?Hev; reflexivity.
Qed.

(* ================================================================== *)
(** * The further properties at sample data *)
(* ================================================================== *)

(** X1 on the queue that holds the movie: its path is rejected, a new
    path is appended. *)
Lemma X1_witness :
  ((exists r, In r [movie] /\ file_path r = ustr "/mon/a/movie.mkv")
   /\ create_task (ustr "/mon/a/movie.mkv") (ustr "movie.mkv") 1 2
        (ustr "/mon") (ustr "upload") (Some (ustr "/remote")) None false
        1700000500 [movie] = None)
  /\ (exists t' row,
        create_task (ustr "/mon/a/other.mkv") (ustr "other.mkv") 1 2
          (ustr "/mon") (ustr "upload") (Some (ustr "/remote")) None false
          1700000500 [movie] = Some t'
        /\ t' = [movie] ++ [row] /\ status row = Pending
        /\ exists_in_queue (ustr "/mon/a/other.mkv") t' = true).
Proof.
  split.
  - assert (exists r, In r [movie]
                      /\ file_path r = ustr "/mon/a/movie.mkv") as H
      by (exists movie; split; [left|]; reflexivity).
    split; [exact H|].
    exact (proj2 (proj1 (X1_create_task_appends_one_pending_row
                           (ustr "/mon/a/movie.mkv") (ustr "movie.mkv") 1 2
                           (ustr "/mon") (ustr "upload")
                           (Some (ustr "/remote")) None false
                           1700000500 [movie])) H).
  - eexists.
    destruct (proj2 (X1_create_task_appends_one_pending_row
                       (ustr "/mon/a/other.mkv") (ustr "other.mkv") 1 2
                       (ustr "/mon") (ustr "upload")
                       (Some (ustr "/remote")) None false
                       1700000500 [movie]) _ eq_refl)
      as (row & Ht & _ & _ & _ & _ & _ & _ & _ & _ & _ & Hs & _ & _ & _ & _
          & _ & _ & _ & Hq).
    exists row. split; [reflexivity|]. split; [exact Ht|].
    split; [exact Hs | exact Hq].
Defined.

Lemma X2_witness :
  unique_paths [movie; subtitles] = true
  /\ In movie [movie; subtitles]
  /\ exists_in_queue (file_path movie)
       (mark_as_completed (id movie) 1700000600 [movie; subtitles]) = false
  /\ exists_in_queue (file_path movie)
       (mark_as_failed (id movie) (ustr "boom") 3 1700000600
          [movie; subtitles]) = false
  /\ exists_in_queue (file_path movie)
       (mark_as_processing (id movie) 1700000600 [movie; subtitles]) = true
  /\ exists_in_queue (file_path movie)
       (mark_as_pending_retry (id movie) 3 1700000600 [movie; subtitles])
     = true.
Proof.
  split; [vm_compute; reflexivity|]. split; [left; reflexivity|].
  apply (proj2 (X2_exists_in_queue_follows_the_status
                  [movie; subtitles] movie 1700000600 3 (ustr "boom"))).
  - vm_compute; reflexivity.
  - left; reflexivity.
Defined.

Lemma X3_witness :
  get 7 [movie; subtitles] = None
  /\ mark_as_processing 7 1700000600 [movie; subtitles] = [movie; subtitles]
  /\ mark_as_completed 7 1700000600 [movie; subtitles] = [movie; subtitles]
  /\ mark_as_failed 7 (ustr "boom") 1 1700000600 [movie; subtitles]
     = [movie; subtitles]
  /\ mark_as_pending_retry 7 1 1700000600 [movie; subtitles]
     = [movie; subtitles].
Proof.
  split; [reflexivity|].
  apply (X3_marking_an_unknown_id_changes_nothing
           [movie; subtitles] 7 1700000600 1 (ustr "boom")).
  reflexivity.
Defined.


(** X6 on the queue that holds the subtitles and the older movie: the
    task created later leaves the movie at the front. *)
Lemma X6_witness :
  create_task (ustr "/mon/a/other.mkv") (ustr "other.mkv") 1 2
    (ustr "/mon") (ustr "upload") (Some (ustr "/remote")) None false
    1700000500 [subtitles; movie]
  = Some ([subtitles; movie]
          ++ [ {| id := 3; file_path := ustr "/mon/a/other.mkv";
                  file_name := ustr "other.mkv"; file_size := 1;
                  file_mtime := 2; monitor_path := ustr "/mon";
                  dest_remote := Some (ustr "/remote");
                  dest_local := None;
                  operation_type := ustr "upload";
                  delete_source := false;
                  status := Pending; retry_count := 0;
                  error_message := None;
                  created_at := 1700000500;
                  updated_at := 1700000500 |} ])
  /\ (forall r, In r [subtitles; movie] -> status r = Pending ->
                created_at r < 1700000500)
  /\ get_next_pending_task [subtitles; movie] = Some movie
  /\ get_next_pending_task
       ([subtitles; movie]
        ++ [ {| id := 3; file_path := ustr "/mon/a/other.mkv";
                file_name := ustr "other.mkv"; file_size := 1;
                file_mtime := 2; monitor_path := ustr "/mon";
                dest_remote := Some (ustr "/remote");
                dest_local := None;
                operation_type := ustr "upload";
                delete_source := false;
                status := Pending; retry_count := 0;
                error_message := None;
                created_at := 1700000500;
                updated_at := 1700000500 |} ])
     = Some movie.
Proof.
  assert (forall r, In r [subtitles; movie] -> status r = Pending ->
                    created_at r < 1700000500) as Hlt.
  { intros r [<- | [<- | []]] _; reflexivity. }
  split; [vm_compute; reflexivity|].
  split; [exact Hlt|].
  split; [vm_compute; reflexivity|].
  apply (proj1 (X6_new_task_goes_to_the_back
                  (ustr "/mon/a/other.mkv") (ustr "other.mkv") 1 2
                  (ustr "/mon") (ustr "upload") (Some (ustr "/remote")) None
                  false 1700000500 [subtitles; movie] _
                  ltac:(vm_compute; reflexivity)) Hlt).
  vm_compute; reflexivity.
Defined.

Lemma X7_witness :
  UploadHistory.is_uploaded (ustr "52000_1600000001") 52000 [old_done] = true
  /\ UploadHistory.is_uploaded (ustr "52000_1600000001") 52000
       (UploadHistory.record_upload (ustr "1000000000_1700000000")
          1000000000 (ustr "/mon/a/movie.mkv") (ustr "movie.mkv")
          (ustr "upload") (Some (ustr "/remote")) None 1700000100 [old_done])
     = true.
Proof.
  split; [vm_compute; reflexivity|].
  apply (proj1 (proj2 (X7_record_upload_then_is_uploaded
                         (ustr "1000000000_1700000000") 1000000000
                         (ustr "/mon/a/movie.mkv") (ustr "movie.mkv")
                         (ustr "upload") (Some (ustr "/remote")) None
                         1700000100 [old_done]
                         (ustr "52000_1600000001") 52000))).
  vm_compute; reflexivity.
Defined.

(** X8 ninety days after the movie was recorded: the entry of 2020 goes,
    the movie's stays. *)
Lemma X8_witness :
  0 <= 90 * 86400 <= 1707776090500000 / 1000000
  /\ UploadHistory.cutoff_timestamp 1707776090500000 90
     = 1707776090500000 / 1000000 - 90 * 86400
  /\ UploadHistory.cleanup_old_records 1707776090500000 90
       [old_done; movie_done]
     = (1, [movie_done]).
Proof.
  assert (0 <= 90 * 86400 <= 1707776090500000 / 1000000) as H
    by (vm_compute; split; discriminate).
  split; [exact H|].
  split; [|vm_compute; reflexivity].
  exact (proj2 (proj2 (proj2 (proj2 (proj2
           (X8_cleanup_old_records_deletes_exactly_the_old
              1707776090500000 90 [old_done; movie_done]))))) H).
Defined.


Lemma X10_witness :
  Processor.fingerprint movie = Processor.fingerprint movie_failed
  /\ file_size movie = file_size movie_failed
  /\ file_mtime movie = file_mtime movie_failed.
Proof.
  assert (Processor.fingerprint movie = Processor.fingerprint movie_failed)
    as H by (vm_compute; reflexivity).
  split; [exact H|].
  exact (proj1 (X10_fingerprint_determines_size_and_mtime
                  movie movie_failed) H).
Defined.

Lemma X11_witness :
  is_processing (idle [movie; subtitles] []) = false
  /\ primary_key (queue (idle [movie; subtitles] [])) = true
  /\ quiet world_ok [OpGetNextPending; OpMarkProcessing; OpPathExists;
                     OpIsUploaded; OpMarkCompleted; OpRecordUpload] = true
  /\ get_next_pending_task (queue (idle [movie; subtitles] [])) = Some movie
  /\ path_exists world_ok (file_path movie) = true
  /\ UploadHistory.is_uploaded (Processor.fingerprint movie)
       (file_size movie) (history (idle [movie; subtitles] [])) = false
  /\ fst (snd (Processor._execute_task world_ok movie)) = true
  /\ UploadHistory.is_uploaded (Processor.fingerprint movie)
       (file_size movie)
       (history (after world_ok (idle [movie; subtitles] []))) = true
  /\ deletions (trace (after world_ok (idle [movie; subtitles] [])))
     = (if delete_source movie then [file_path movie] else [])
       ++ deletions (trace (idle [movie; subtitles] [])).
Proof.
  split; [reflexivity|]. split; [reflexivity|]. split; [reflexivity|].
  split; [vm_compute; reflexivity|]. split; [reflexivity|].
  split; [reflexivity|]. split; [reflexivity|].
  destruct (X11_successful_pass_completes_and_records world_ok
              (idle [movie; subtitles] []) movie)
    as (_ & _ & _ & H1 & H2);
    try reflexivity; try (vm_compute; reflexivity).
  split; assumption.
Defined.

Lemma X12_witness :
  nth_error (queue (idle [movie_failed; subtitles] [])) 0 = Some movie_failed
  /\ primary_key (queue (idle [movie_failed; subtitles] [])) = true
  /\ status movie_failed <> Pending
  /\ nth_error
       (queue (after world_ok (idle [movie_failed; subtitles] []))) 0
     = Some movie_failed.
Proof.
  split; [reflexivity|]. split; [reflexivity|]. split; [discriminate|].
  destruct (proj2 (proj2 (proj2
              (X12_pass_rewrites_only_the_fetched_pending_row world_ok
                 (idle [movie_failed; subtitles] []))))
              0%nat movie_failed eq_refl)
    as (row' & Hn & _ & _ & Hpk).
  rewrite Hn. f_equal.
  apply (proj2 (Hpk eq_refl)). discriminate.
Defined.

Lemma X14_witness :
  is_processing (idle [movie] []) = false
  /\ primary_key (queue (idle [movie] [])) = true
  /\ fault (world_fault OpIsUploaded) OpGetNextPending = None
  /\ fault (world_fault OpIsUploaded) OpMarkProcessing = None
  /\ get_next_pending_task (queue (idle [movie] [])) = Some movie
  /\ fst (Processor.process_one_task (world_fault OpIsUploaded)
            (idle [movie] [])) = inr false
  /\ exists row,
       get (id movie)
         (queue (after (world_fault OpIsUploaded) (idle [movie] [])))
       = Some row
       /\ status row = Processing
       /\ get (id movie)
            (queue (after world_ok
                      (after (world_fault OpIsUploaded) (idle [movie] []))))
          = Some row.
Proof.
  split; [reflexivity|]. split; [reflexivity|]. split; [reflexivity|].
  split; [reflexivity|]. split; [vm_compute; reflexivity|].
  split; [vm_compute; reflexivity|].
  destruct (X14_fault_after_the_claim_strands_the_task
              (world_fault OpIsUploaded) (idle [movie] []) movie)
    as (row & Hg & _ & _ & _ & _ & _ & Hst & Hlater);
    try reflexivity; try (vm_compute; reflexivity).
  exists row. split; [exact Hg|]. split; [|apply Hlater].
  destruct Hst as [[Hp _] | [Hc _]]; [exact Hp|].
  exfalso. revert Hg Hc. vm_compute. intros [= <-]. discriminate.
Defined.

(** X15 on the queue a crash left behind: the claimed movie is fetchable
    after recovery. *)
Lemma X15_witness :
  get_next_pending_task [movie_claimed] = None
  /\ (forall r, In r (queue (idle [subtitles_completed; movie_failed] [])) ->
                status r = Completed \/ status r = Failed)
  /\ get_next_pending_task
       (queue (snd (Processor.reset_stale_tasks None 1700000700
                      (idle [subtitles_completed; movie_failed] []))))
     = None
  /\ get_next_pending_task
       (queue (snd (Processor.reset_stale_tasks None 1700000700
                      (idle [movie_claimed] []))))
     <> None.
Proof.
  split; [vm_compute; reflexivity|].
  assert (forall r, In r (queue (idle [subtitles_completed; movie_failed] []))
                    -> status r = Completed \/ status r = Failed) as H.
  { intros r [<- | [<- | []]]; [left | right]; reflexivity. }
  split; [exact H|]. split.
  - exact (proj2 (proj1 (proj2 (proj2 (proj2 (proj2
             (X15_recovery_makes_stranded_tasks_fetchable 1700000700
                1700000800 (idle [subtitles_completed; movie_failed] [])
                locked)))))) H).
  - vm_compute. discriminate.
Defined.

(** X16 for a file two levels below the monitor root, the upper level
    still holding files: only the lower directory goes, and the monitor
    root is in what the walk did not reach. *)
Lemma X16_witness :
  In (path_str (ustr "/mon"))
     (Processor.parents (ustr "/mon/a/b/movie.mkv"))
  /\ Processor.removed_dirs only_a_has_files (ustr "/mon/a/b/movie.mkv")
       (ustr "/mon") = [ustr "/mon/a/b"]
  /\ exists rest,
       Processor.parents (ustr "/mon/a/b/movie.mkv")
       = Processor.removed_dirs only_a_has_files (ustr "/mon/a/b/movie.mkv")
           (ustr "/mon") ++ rest
       /\ In (path_str (ustr "/mon")) rest.
Proof.
  assert (In (path_str (ustr "/mon"))
             (Processor.parents (ustr "/mon/a/b/movie.mkv"))) as H
    by (vm_compute; tauto).
  split; [exact H|]. split; [vm_compute; reflexivity|].
  destruct (X16_empty_parents_removed_below_the_monitor_root
              only_a_has_files (ustr "/mon/a/b/movie.mkv") (ustr "/mon"))
    as (rest & Hsplit & _ & _ & Hmon).
  exists rest. split; [exact Hsplit | exact (Hmon H)].
Defined.

Lemma X17_witness :
  primary_key (queue (idle [subtitles] [])) = true
  /\ unique_paths (queue (idle [subtitles] [])) = true
  /\ primary_key
       (queue (enqueued world_ok (ustr "/mon/a/movie.mkv") (ustr "/mon")
                 (idle [subtitles] []))) = true
  /\ unique_paths
       (queue (enqueued world_ok (ustr "/mon/a/movie.mkv") (ustr "/mon")
                 (idle [subtitles] []))) = true
  /\ List.length
       (queue (enqueued world_ok (ustr "/mon/a/movie.mkv") (ustr "/mon")
                 (idle [subtitles] []))) = 2%nat.
Proof.
  split; [reflexivity|]. split; [vm_compute; reflexivity|].
  destruct (X17_enqueue_file_appends_at_most_one_pending_row world_ok
              (ustr "/mon/a/movie.mkv") (ustr "/mon") (idle [subtitles] []))
    as (_ & _ & _ & _ & _ & Hpk & Hu).
  split; [apply Hpk; reflexivity|].
  split; [apply Hu; vm_compute; reflexivity|].
  vm_compute; reflexivity.
Defined.

(** X18 both ways: the movie passes every check and is added; under a
    hidden directory it is not. *)
Lemma X18_witness :
  queue (enqueued world_ok (ustr "/mon/a/movie.mkv") (ustr "/mon")
           (idle [] [])) <> queue (idle [] [])
  /\ Monitor.stable_samples world_ok (ustr "/mon/a/movie.mkv") = true
  /\ path_exists world_ok (ustr "/mon/a/movie.mkv") = true
  /\ Monitor.is_recycle_or_hidden (ustr "/mon/.cache/movie.mkv") = true
  /\ queue (enqueued world_ok (ustr "/mon/.cache/movie.mkv") (ustr "/mon")
              (idle [] [])) = queue (idle [] []).
Proof.
  assert (queue (enqueued world_ok (ustr "/mon/a/movie.mkv") (ustr "/mon")
                   (idle [] [])) <> queue (idle [] [])) as H
    by (vm_compute; discriminate).
  split; [exact H|].
  destruct (proj1 (X18_enqueue_file_adds_a_row_exactly_past_every_check
                     world_ok (ustr "/mon/a/movie.mkv") (ustr "/mon")
                     (idle [] [])) H)
    as (_ & Hex & _ & _ & Hst & _).
  split; [vm_compute; reflexivity|]. split; [exact Hex|].
  split; [vm_compute; reflexivity|]. vm_compute; reflexivity.
Defined.

Lemma X19_witness :
  exists row,
    queue (enqueued world_ok (ustr "/mon/a/movie.srt") (ustr "/mon")
             (idle [] [])) = queue (idle [] []) ++ [row]
    /\ exists item,
         Monitor.match_config (ustr "/mon") (config_paths world_ok)
         = Some item
         /\ delete_source row = delete item
         /\ operation_type row = ustr "copy"
         /\ dest_local row = Some (cfg_dest_local item)
         /\ dest_remote row = None.
Proof.
  eexists. split; [vm_compute; reflexivity|].
  destruct (X19_enqueued_row_has_the_destination_of_its_operation world_ok
              (ustr "/mon/a/movie.srt") (ustr "/mon") (idle [] []) _
              ltac:(vm_compute; reflexivity))
    as (item & Hcfg & _ & _ & Hdel & [(Hop & _) | (Hop & Hl & _ & Hr)]).
  - exfalso. revert Hop. vm_compute. discriminate.
  - exists item. repeat split; assumption.
Defined.

(** X20: the movie is transferred, then a copy of it appears under
    another name. *)
Lemma X20_witness :
  is_processing (idle [movie] []) = false
  /\ primary_key (queue (idle [movie] [])) = true
  /\ get_next_pending_task (queue (idle [movie] [])) = Some movie
  /\ fst (snd (Processor._execute_task world_ok movie)) = true
  /\ stat world_ok (ustr "/mon/b/movie-copy.mkv")
     = (file_size movie, file_mtime movie)
  /\ queue (enqueued world_ok (ustr "/mon/b/movie-copy.mkv") (ustr "/mon")
              (after world_ok (idle [movie] [])))
     = queue (after world_ok (idle [movie] [])).
Proof.
  split; [reflexivity|]. split; [reflexivity|].
  split; [vm_compute; reflexivity|]. split; [reflexivity|].
  split; [reflexivity|].
  apply (X20_transferred_file_is_not_enqueued_again world_ok world_ok
           (idle [movie] []) movie);
    try reflexivity; vm_compute; reflexivity.
Defined.

Lemma X23_witness :
  suffix (ustr "/mon/a/README") = []
  /\ Monitor.classify (Monitor.file_suffix world_ok (ustr "/mon/a/README"))
       (Monitor.parse_exts (ustr "mkv,")) (Monitor.parse_exts (ustr ""))
       (ustr "/remote") (ustr "/local") = None.
Proof.
  assert (suffix (ustr "/mon/a/README") = []) as H
    by (vm_compute; reflexivity).
  split; [exact H|].
  exact (proj1 (X23_files_without_suffix_and_dotted_entries_match_nothing
                  world_ok (ustr "/mon/a/README"))
           (ustr "mkv,") (ustr "") (ustr "/remote") (ustr "/local") H).
Defined.

(** X24 on the subtitles: enqueued as a copy, then fetched by a
    pass. *)
Lemma X24_witness :
  exists row,
    queue (enqueued world_ok (ustr "/mon/a/movie.srt") (ustr "/mon")
             (idle [] [])) = queue (idle [] []) ++ [row]
    /\ Processor._execute_task world_ok row
       = ([EvCopy (id row)], do_copy world_ok row)
    /\ is_processing (idle [row] []) = false
    /\ quiet world_ok [OpGetNextPending; OpMarkProcessing; OpPathExists;
                       OpIsUploaded] = true
    /\ get_next_pending_task (queue (idle [row] [])) = Some row
    /\ path_exists world_ok (file_path row) = true
    /\ UploadHistory.is_uploaded (Processor.fingerprint row)
         (file_size row) (history (idle [row] [])) = false
    /\ transfers (trace (after world_ok (idle [row] [])))
       = id row :: transfers (trace (idle [row] [])).
Proof.
  eexists. split; [vm_compute; reflexivity|].
  destruct (X24_enqueued_task_gets_to_its_transfer_method world_ok
              world_ok (ustr "/mon/a/movie.srt") (ustr "/mon")
              (idle [] []) _ ltac:(vm_compute; reflexivity))
    as [[(Hop & _) | (_ & _ & H)] Hpass].
  - exfalso. revert Hop. vm_compute. discriminate.
  - split; [exact H|].
    split; [reflexivity|]. split; [reflexivity|].
    split; [vm_compute; reflexivity|]. split; [reflexivity|].
    split; [vm_compute; reflexivity|].
    apply Hpass; try reflexivity; vm_compute; reflexivity.
Defined.
